(** * Client-side metadata cache of the Ceph kernel client (kernel/inode.c)

    A shallow embedding of the inode cache: the fragment tree, the
    attribute reconciler, inode leases, the size and time setters and the
    extended-attribute lookup, followed by the properties proved of them. *)

From Stdlib Require Import ZArith List Bool String Lia.
From stdpp Require Import base option list gmap strings pretty.
From coqutil Require Import Word.LittleEndianList.
Local Open Scope Z_scope.

(** ** Outcomes

    A kernel function either returns or stops the machine.  [BugOn] is a
    BUG_ON that fired, [NullDeref] a store through a null pointer,
    [Undefined] an operation to which C gives no meaning (a shift by a count
    outside the width of its operand, a read past the end of a buffer),
    [OutOfFuel] a loop that was still running when the model's step budget
    ended. *)

Inductive fault : Type :=
  | BugOn
  | NullDeref
  | Undefined
  | OutOfFuel.

Inductive kres (A : Type) : Type :=
  | Ret (a : A)
  | Fault (f : fault).
Arguments Ret {A} a.
Arguments Fault {A} f.

#[global] Instance kres_ret : MRet kres := @Ret.
#[global] Instance kres_bind : MBind kres :=
  λ A B k m, match m with Ret a => k a | Fault f => Fault f end.

(** kmalloc may fail.  The allocator is an oracle: the list says, call by
    call, whether the next allocation succeeds; once the list is used up
    every allocation succeeds. *)

Definition kst (A : Type) : Type := list bool → kres (A * list bool).

#[global] Instance kst_ret : MRet kst := λ A a o, Ret (a, o).
#[global] Instance kst_bind : MBind kst :=
  λ A B k m o, match m o with Ret (a, o') => k a o' | Fault f => Fault f end.

Definition kmalloc : kst bool :=
  λ o, match o with [] => Ret (true, []) | ok :: o' => Ret (ok, o') end.

Definition kfault {A : Type} (f : fault) : kst A := λ _, Fault f.

(** ** Machine integers

    Integer values are kept in [Z]; the width of the C type is applied where
    the code computes. *)

Definition u16 (x : Z) : Z := x mod 2 ^ 16.
Definition u32 (x : Z) : Z := x mod 2 ^ 32.
Definition u64 (x : Z) : Z := x mod 2 ^ 64.
Definition s32 (x : Z) : Z := let y := u32 x in if y <? 2 ^ 31 then y else y - 2 ^ 32.
Definition s64 (x : Z) : Z := let y := u64 x in if y <? 2 ^ 63 then y else y - 2 ^ 64.

Definition shl32 (x n : Z) : kres Z :=
  if (0 <=? n) && (n <? 32) then Ret (u32 (Z.shiftl x n)) else Fault Undefined.
Definition shr32 (x n : Z) : kres Z :=
  if (0 <=? n) && (n <? 32) then Ret (Z.shiftr x n) else Fault Undefined.

(** min_t(u32, a, b) *)
Definition min_t_u32 (a b : Z) : Z := Z.min (u32 a) (u32 b).

(** fls() of the kernel: position of the most significant set bit, counted
    from one; zero for zero. *)
Definition fls (x : Z) : Z := if u32 x =? 0 then 0 else Z.log2 (u32 x) + 1.

(** ** Constants of the headers

    ceph_fs.h, super.h and the kernel configuration are not part of the
    sources; their constants are parameters of the development. *)

Class headers : Type := {
  CEPH_CAP_WR : Z;
  CEPH_CAP_WRBUFFER : Z;
  CEPH_CAP_EXCL : Z;
  CEPH_LOCK_ICONTENT : Z;
  CEPH_STAT_MASK_XATTR : Z;
  CEPH_STAT_MASK_INODE_ALL : Z;
  CEPH_NOSNAP : Z;
  CEPH_SNAPDIR : Z;
  CEPH_MOUNT_RBYTES : Z;
  MAX_DIRFRAG_REP : Z;
  CEPH_FILE_MODE_NUM : Z;
  HZ : Z
}.

(** One valuation of the constants, used to run the model. *)
#[global] Instance sample_headers : headers := {|
  CEPH_CAP_WR := 8;
  CEPH_CAP_WRBUFFER := 16;
  CEPH_CAP_EXCL := 128;
  CEPH_LOCK_ICONTENT := 68;
  CEPH_STAT_MASK_XATTR := 128;
  CEPH_STAT_MASK_INODE_ALL := 254;
  CEPH_NOSNAP := 2 ^ 64 - 2;
  CEPH_SNAPDIR := 2 ^ 64 - 1;
  CEPH_MOUNT_RBYTES := 32;
  MAX_DIRFRAG_REP := 4;
  CEPH_FILE_MODE_NUM := 4;
  HZ := 250
|}.

(** errno.h and stat.h of Linux. *)
Definition ENOENT : Z := 2.
Definition EIO : Z := 5.
Definition ENOMEM : Z := 12.
Definition EINVAL : Z := 22.
Definition EROFS : Z := 30.
Definition ERANGE : Z := 34.
Definition ENODATA : Z := 61.
Definition EOPNOTSUPP : Z := 95.

Definition S_IFMT : Z := 0xF000.
Definition S_IFSOCK : Z := 0xC000.
Definition S_IFLNK : Z := 0xA000.
Definition S_IFREG : Z := 0x8000.
Definition S_IFBLK : Z := 0x6000.
Definition S_IFDIR : Z := 0x4000.
Definition S_IFCHR : Z := 0x2000.
Definition S_IFIFO : Z := 0x1000.

(** ATTR_ flags of struct iattr (linux/fs.h). *)
Definition ATTR_MODE : Z := 1.
Definition ATTR_UID : Z := 2.
Definition ATTR_GID : Z := 4.
Definition ATTR_SIZE : Z := 8.
Definition ATTR_ATIME : Z := 16.
Definition ATTR_MTIME : Z := 32.
Definition ATTR_FILE : Z := 8192.

(** time_before(a, b) of linux/jiffies.h, on a 64-bit unsigned long: the
    difference is read as a signed long, so the test survives the wrap of
    the jiffies counter. *)
Definition time_before (a b : Z) : bool := s64 (a - b) <? 0.

Record timespec : Type := { tv_sec : Z; tv_nsec : Z }.

(** timespec_compare() and timespec_equal() of linux/time.h. *)
Definition timespec_compare (lhs rhs : timespec) : Z :=
  if tv_sec lhs <? tv_sec rhs then -1
  else if tv_sec lhs >? tv_sec rhs then 1
  else tv_nsec lhs - tv_nsec rhs.

Definition timespec_equal (a b : timespec) : bool :=
  (tv_sec a =? tv_sec b) && (tv_nsec a =? tv_nsec b).

(** ** Fragments

    Modelled from the spec: frag_make, frag_bits, frag_value, frag_mask and
    frag_contains_value are inline functions of ceph_fs.h, which is not part
    of the sources.  A frag is a 32-bit word split into (bits, value): the
    number of prefix bits in its top byte, the value in the 24 bits below,
    of which the top [bits] are the meaningful ones.  A frag contains a
    value when the top [bits] bits of the value, read as a 24-bit number,
    equal the frag's value.  frag_make keeps the meaningful bits of the
    value it is given, and frag_make(0, 0) is the root.  The mask of a
    prefix of [bits] bits is [(0xffffff << (24 - bits)) & 0xffffff], whose
    count leaves the width of the word, and with it the meaning C gives to
    a shift, once [bits] exceeds 24. *)

Definition frag_bits (f : Z) : Z := Z.shiftr f 24.
Definition frag_value (f : Z) : Z := Z.land f 0xffffff.
Definition prefix_mask (b : Z) : kres Z :=
  m ← shl32 0xffffff (u32 (24 - b));
  Ret (Z.land m 0xffffff).
Definition frag_mask (f : Z) : kres Z := prefix_mask (frag_bits f).
Definition frag_make (b v : Z) : kres Z :=
  hi ← shl32 b 24;
  m ← prefix_mask b;
  Ret (Z.lor hi (Z.land v m)).
Definition frag_contains_value (f v : Z) : kres bool :=
  m ← frag_mask f;
  Ret (Z.land v m =? frag_value f).

(** struct ceph_inode_frag; the tree node that links it into i_fragtree is
    the key under which the map holds it. *)
Record ceph_inode_frag : Type := {
  frag : Z;
  split_by : Z;
  mds : Z;
  ndist : Z;
  dist : list Z
}.

(** The red-black tree i_fragtree is searched by exact key only; it is a
    finite map from frag to node. *)
Definition __ceph_find_frag (tree : gmap Z ceph_inode_frag) (f : Z)
  : option ceph_inode_frag := tree !! f.

Definition new_frag (f : Z) : ceph_inode_frag :=
  {| frag := f; split_by := 0; mds := -1; ndist := 0; dist := [] |}.

(** __get_or_create_frag: the tree with a node for [f] in it, or [None]
    for ERR_PTR(-ENOMEM). *)
Definition __get_or_create_frag (tree : gmap Z ceph_inode_frag) (f : Z)
  : kst (option (gmap Z ceph_inode_frag)) :=
  match tree !! f with
  | Some _ => mret (Some tree)
  | None =>
      ok ← kmalloc;
      if ok : bool then mret (Some (<[f := new_frag f]> tree)) else mret None
  end.

(** *** ceph_choose_frag *)

(** The candidate child number [i] of [t]. *)
Definition frag_child (t by_ i : Z) : kres Z :=
  sh ← shl32 i (frag_bits t);
  frag_make (u32 (frag_bits t + by_)) (Z.lor (frag_value t) sh).

(** The inner loop, [for (i = 0; i < nway; i++)], with [n] iterations left;
    [None] when it runs to [i == nway]. *)
Fixpoint choose_child (n : nat) (i t by_ v : Z) : kres (option Z) :=
  match n with
  | O => Ret None
  | S n' =>
      c ← frag_child t by_ i;
      hit ← frag_contains_value c v;
      if hit : bool then Ret (Some c) else choose_child n' (i + 1) t by_ v
  end.

(** What the caller gets: the frag, [*found], the copy in [*pfrag], and
    whether a WARN_ON was raised on the way. *)
Record frag_choice : Type := {
  chosen : Z;
  found : bool;
  pfrag : option ceph_inode_frag;
  warned : bool
}.

(** The [while (1)] loop, at most [fuel] iterations of it. *)
Fixpoint choose_loop (fuel : nat) (tree : gmap Z ceph_inode_frag) (v t : Z)
    (w : bool) : kres frag_choice :=
  match fuel with
  | O => Fault OutOfFuel
  | S fuel' =>
      inside ← frag_contains_value t v;
      let w := w || negb inside in
      match __ceph_find_frag tree t with
      | None => Ret {| chosen := t; found := false; pfrag := None; warned := w |}
      | Some fr =>
          if split_by fr =? 0 then
            Ret {| chosen := t; found := true; pfrag := Some fr; warned := w |}
          else
            nway ← shl32 1 (split_by fr);
            n ← choose_child (Z.to_nat nway) 0 t (split_by fr) v;
            match n with
            | None => Fault BugOn
            | Some n => choose_loop fuel' tree v n w
            end
      end
  end.

Definition ceph_choose_frag (fuel : nat) (tree : gmap Z ceph_inode_frag) (v : Z)
  : kres frag_choice :=
  t ← frag_make 0 0;
  choose_loop fuel tree v t false.


Definition set_split_by (v : Z) (x : ceph_inode_frag) : ceph_inode_frag :=
  {| frag := frag x; split_by := v; mds := mds x; ndist := ndist x; dist := dist x |}.
Definition set_mds (v : Z) (x : ceph_inode_frag) : ceph_inode_frag :=
  {| frag := frag x; split_by := split_by x; mds := v; ndist := ndist x; dist := dist x |}.
Definition set_ndist (v : Z) (x : ceph_inode_frag) : ceph_inode_frag :=
  {| frag := frag x; split_by := split_by x; mds := mds x; ndist := v; dist := dist x |}.
Definition set_dist (v : list Z) (x : ceph_inode_frag) : ceph_inode_frag :=
  {| frag := frag x; split_by := split_by x; mds := mds x; ndist := ndist x; dist := v |}.

(** ** Inodes *)

Abbreviation byte := Init.Byte.byte.

#[global] Instance byte_eq_dec : EqDecision byte := Byte.byte_eq_dec.

Record ceph_vino : Type := { ino : Z; snap : Z }.

#[global] Instance ceph_vino_eq_dec : EqDecision ceph_vino.
Proof. solve_decision. Defined.

(** The operation tables an inode can point to. *)
Inductive inode_operations : Type :=
  | no_iops
  | ceph_file_iops
  | ceph_symlink_iops
  | ceph_dir_iops.

Inductive file_operations : Type :=
  | no_fops
  | special_fops
  | ceph_file_fops
  | ceph_dir_fops.

(** The file layout of ceph_fs.h; the cache reads its stripe unit and
    passes the rest along. *)
Record ceph_file_layout : Type := {
  fl_stripe_unit : Z;
  fl_rest : list Z
}.

(** The fields of the host's struct inode that the cache reads or writes.
    [i_size] holds the 64 bits of the loff_t; where the code compares it as
    a signed number the model goes through [s64].  [vfs_i_version] is
    [inode->i_version], as opposed to [ci->i_version] below. *)
Record inode : Type := {
  i_mode : Z;
  i_uid : Z;
  i_gid : Z;
  i_nlink : Z;
  i_rdev : Z;
  i_size : Z;
  i_blocks : Z;
  i_blkbits : Z;
  i_atime : timespec;
  i_mtime : timespec;
  i_ctime : timespec;
  i_count : Z;
  i_op : inode_operations;
  i_fop : file_operations;
  vfs_i_version : Z
}.

Definition set_i_mode (v : Z) (x : inode) : inode :=
  {| i_mode := v; i_uid := i_uid x; i_gid := i_gid x; i_nlink := i_nlink x;
     i_rdev := i_rdev x; i_size := i_size x; i_blocks := i_blocks x; i_blkbits
     := i_blkbits x; i_atime := i_atime x; i_mtime := i_mtime x; i_ctime :=
     i_ctime x; i_count := i_count x; i_op := i_op x; i_fop := i_fop x;
     vfs_i_version := vfs_i_version x |}.
Definition set_i_uid (v : Z) (x : inode) : inode :=
  {| i_mode := i_mode x; i_uid := v; i_gid := i_gid x; i_nlink := i_nlink x;
     i_rdev := i_rdev x; i_size := i_size x; i_blocks := i_blocks x; i_blkbits
     := i_blkbits x; i_atime := i_atime x; i_mtime := i_mtime x; i_ctime :=
     i_ctime x; i_count := i_count x; i_op := i_op x; i_fop := i_fop x;
     vfs_i_version := vfs_i_version x |}.
Definition set_i_gid (v : Z) (x : inode) : inode :=
  {| i_mode := i_mode x; i_uid := i_uid x; i_gid := v; i_nlink := i_nlink x;
     i_rdev := i_rdev x; i_size := i_size x; i_blocks := i_blocks x; i_blkbits
     := i_blkbits x; i_atime := i_atime x; i_mtime := i_mtime x; i_ctime :=
     i_ctime x; i_count := i_count x; i_op := i_op x; i_fop := i_fop x;
     vfs_i_version := vfs_i_version x |}.
Definition set_i_nlink (v : Z) (x : inode) : inode :=
  {| i_mode := i_mode x; i_uid := i_uid x; i_gid := i_gid x; i_nlink := v;
     i_rdev := i_rdev x; i_size := i_size x; i_blocks := i_blocks x; i_blkbits
     := i_blkbits x; i_atime := i_atime x; i_mtime := i_mtime x; i_ctime :=
     i_ctime x; i_count := i_count x; i_op := i_op x; i_fop := i_fop x;
     vfs_i_version := vfs_i_version x |}.
Definition set_i_rdev (v : Z) (x : inode) : inode :=
  {| i_mode := i_mode x; i_uid := i_uid x; i_gid := i_gid x; i_nlink :=
     i_nlink x; i_rdev := v; i_size := i_size x; i_blocks := i_blocks x;
     i_blkbits := i_blkbits x; i_atime := i_atime x; i_mtime := i_mtime x;
     i_ctime := i_ctime x; i_count := i_count x; i_op := i_op x; i_fop :=
     i_fop x; vfs_i_version := vfs_i_version x |}.
Definition set_i_size (v : Z) (x : inode) : inode :=
  {| i_mode := i_mode x; i_uid := i_uid x; i_gid := i_gid x; i_nlink :=
     i_nlink x; i_rdev := i_rdev x; i_size := v; i_blocks := i_blocks x;
     i_blkbits := i_blkbits x; i_atime := i_atime x; i_mtime := i_mtime x;
     i_ctime := i_ctime x; i_count := i_count x; i_op := i_op x; i_fop :=
     i_fop x; vfs_i_version := vfs_i_version x |}.
Definition set_i_blocks (v : Z) (x : inode) : inode :=
  {| i_mode := i_mode x; i_uid := i_uid x; i_gid := i_gid x; i_nlink :=
     i_nlink x; i_rdev := i_rdev x; i_size := i_size x; i_blocks := v;
     i_blkbits := i_blkbits x; i_atime := i_atime x; i_mtime := i_mtime x;
     i_ctime := i_ctime x; i_count := i_count x; i_op := i_op x; i_fop :=
     i_fop x; vfs_i_version := vfs_i_version x |}.
Definition set_i_blkbits (v : Z) (x : inode) : inode :=
  {| i_mode := i_mode x; i_uid := i_uid x; i_gid := i_gid x; i_nlink :=
     i_nlink x; i_rdev := i_rdev x; i_size := i_size x; i_blocks := i_blocks
     x; i_blkbits := v; i_atime := i_atime x; i_mtime := i_mtime x; i_ctime :=
     i_ctime x; i_count := i_count x; i_op := i_op x; i_fop := i_fop x;
     vfs_i_version := vfs_i_version x |}.
Definition set_i_atime (v : timespec) (x : inode) : inode :=
  {| i_mode := i_mode x; i_uid := i_uid x; i_gid := i_gid x; i_nlink :=
     i_nlink x; i_rdev := i_rdev x; i_size := i_size x; i_blocks := i_blocks
     x; i_blkbits := i_blkbits x; i_atime := v; i_mtime := i_mtime x; i_ctime
     := i_ctime x; i_count := i_count x; i_op := i_op x; i_fop := i_fop x;
     vfs_i_version := vfs_i_version x |}.
Definition set_i_mtime (v : timespec) (x : inode) : inode :=
  {| i_mode := i_mode x; i_uid := i_uid x; i_gid := i_gid x; i_nlink :=
     i_nlink x; i_rdev := i_rdev x; i_size := i_size x; i_blocks := i_blocks
     x; i_blkbits := i_blkbits x; i_atime := i_atime x; i_mtime := v; i_ctime
     := i_ctime x; i_count := i_count x; i_op := i_op x; i_fop := i_fop x;
     vfs_i_version := vfs_i_version x |}.
Definition set_i_ctime (v : timespec) (x : inode) : inode :=
  {| i_mode := i_mode x; i_uid := i_uid x; i_gid := i_gid x; i_nlink :=
     i_nlink x; i_rdev := i_rdev x; i_size := i_size x; i_blocks := i_blocks
     x; i_blkbits := i_blkbits x; i_atime := i_atime x; i_mtime := i_mtime x;
     i_ctime := v; i_count := i_count x; i_op := i_op x; i_fop := i_fop x;
     vfs_i_version := vfs_i_version x |}.
Definition set_i_count (v : Z) (x : inode) : inode :=
  {| i_mode := i_mode x; i_uid := i_uid x; i_gid := i_gid x; i_nlink :=
     i_nlink x; i_rdev := i_rdev x; i_size := i_size x; i_blocks := i_blocks
     x; i_blkbits := i_blkbits x; i_atime := i_atime x; i_mtime := i_mtime x;
     i_ctime := i_ctime x; i_count := v; i_op := i_op x; i_fop := i_fop x;
     vfs_i_version := vfs_i_version x |}.
Definition set_i_op (v : inode_operations) (x : inode) : inode :=
  {| i_mode := i_mode x; i_uid := i_uid x; i_gid := i_gid x; i_nlink :=
     i_nlink x; i_rdev := i_rdev x; i_size := i_size x; i_blocks := i_blocks
     x; i_blkbits := i_blkbits x; i_atime := i_atime x; i_mtime := i_mtime x;
     i_ctime := i_ctime x; i_count := i_count x; i_op := v; i_fop := i_fop x;
     vfs_i_version := vfs_i_version x |}.
Definition set_i_fop (v : file_operations) (x : inode) : inode :=
  {| i_mode := i_mode x; i_uid := i_uid x; i_gid := i_gid x; i_nlink :=
     i_nlink x; i_rdev := i_rdev x; i_size := i_size x; i_blocks := i_blocks
     x; i_blkbits := i_blkbits x; i_atime := i_atime x; i_mtime := i_mtime x;
     i_ctime := i_ctime x; i_count := i_count x; i_op := i_op x; i_fop := v;
     vfs_i_version := vfs_i_version x |}.
Definition set_vfs_i_version (v : Z) (x : inode) : inode :=
  {| i_mode := i_mode x; i_uid := i_uid x; i_gid := i_gid x; i_nlink :=
     i_nlink x; i_rdev := i_rdev x; i_size := i_size x; i_blocks := i_blocks
     x; i_blkbits := i_blkbits x; i_atime := i_atime x; i_mtime := i_mtime x;
     i_ctime := i_ctime x; i_count := i_count x; i_op := i_op x; i_fop :=
     i_fop x; vfs_i_version := v |}.

(** struct ceph_inode_info (super.h), with the embedded struct inode.
    [i_xattr_data] is the memory [ci->i_xattr_data] points to and
    [i_xattr_len] the length of the buffer in it; [i_lease_session] holds
    the key of the session in the session table, [None] for a null
    pointer. *)
Record ceph_inode_info : Type := {
  vfs_inode : inode;
  i_vino : ceph_vino;
  i_version : Z;
  i_truncate_seq : Z;
  i_time_warp_seq : Z;
  i_reported_size : Z;
  i_max_size : Z;
  i_layout : ceph_file_layout;
  i_xattr_len : Z;
  i_xattr_data : list byte;
  i_old_atime : timespec;
  i_symlink : option (list byte);
  i_fragtree : gmap Z ceph_inode_frag;
  i_files : Z;
  i_subdirs : Z;
  i_rbytes : Z;
  i_rfiles : Z;
  i_rsubdirs : Z;
  i_rctime : timespec;
  i_lease_session : option Z;
  i_lease_gen : Z;
  i_lease_ttl : Z;
  i_lease_mask : Z;
  i_nr_by_mode : list Z;
  i_snap_caps : Z;
  i_vmtruncate_to : Z;
  i_wrbuffer_ref : Z
}.

Definition set_vfs_inode (v : inode) (x : ceph_inode_info) : ceph_inode_info :=
  {| vfs_inode := v; i_vino := i_vino x; i_version := i_version x;
     i_truncate_seq := i_truncate_seq x; i_time_warp_seq := i_time_warp_seq x;
     i_reported_size := i_reported_size x; i_max_size := i_max_size x;
     i_layout := i_layout x; i_xattr_len := i_xattr_len x; i_xattr_data :=
     i_xattr_data x; i_old_atime := i_old_atime x; i_symlink := i_symlink x;
     i_fragtree := i_fragtree x; i_files := i_files x; i_subdirs := i_subdirs
     x; i_rbytes := i_rbytes x; i_rfiles := i_rfiles x; i_rsubdirs :=
     i_rsubdirs x; i_rctime := i_rctime x; i_lease_session := i_lease_session
     x; i_lease_gen := i_lease_gen x; i_lease_ttl := i_lease_ttl x;
     i_lease_mask := i_lease_mask x; i_nr_by_mode := i_nr_by_mode x;
     i_snap_caps := i_snap_caps x; i_vmtruncate_to := i_vmtruncate_to x;
     i_wrbuffer_ref := i_wrbuffer_ref x |}.
Definition set_i_vino (v : ceph_vino) (x : ceph_inode_info) : ceph_inode_info :=
  {| vfs_inode := vfs_inode x; i_vino := v; i_version := i_version x;
     i_truncate_seq := i_truncate_seq x; i_time_warp_seq := i_time_warp_seq x;
     i_reported_size := i_reported_size x; i_max_size := i_max_size x;
     i_layout := i_layout x; i_xattr_len := i_xattr_len x; i_xattr_data :=
     i_xattr_data x; i_old_atime := i_old_atime x; i_symlink := i_symlink x;
     i_fragtree := i_fragtree x; i_files := i_files x; i_subdirs := i_subdirs
     x; i_rbytes := i_rbytes x; i_rfiles := i_rfiles x; i_rsubdirs :=
     i_rsubdirs x; i_rctime := i_rctime x; i_lease_session := i_lease_session
     x; i_lease_gen := i_lease_gen x; i_lease_ttl := i_lease_ttl x;
     i_lease_mask := i_lease_mask x; i_nr_by_mode := i_nr_by_mode x;
     i_snap_caps := i_snap_caps x; i_vmtruncate_to := i_vmtruncate_to x;
     i_wrbuffer_ref := i_wrbuffer_ref x |}.
Definition set_i_version (v : Z) (x : ceph_inode_info) : ceph_inode_info :=
  {| vfs_inode := vfs_inode x; i_vino := i_vino x; i_version := v;
     i_truncate_seq := i_truncate_seq x; i_time_warp_seq := i_time_warp_seq x;
     i_reported_size := i_reported_size x; i_max_size := i_max_size x;
     i_layout := i_layout x; i_xattr_len := i_xattr_len x; i_xattr_data :=
     i_xattr_data x; i_old_atime := i_old_atime x; i_symlink := i_symlink x;
     i_fragtree := i_fragtree x; i_files := i_files x; i_subdirs := i_subdirs
     x; i_rbytes := i_rbytes x; i_rfiles := i_rfiles x; i_rsubdirs :=
     i_rsubdirs x; i_rctime := i_rctime x; i_lease_session := i_lease_session
     x; i_lease_gen := i_lease_gen x; i_lease_ttl := i_lease_ttl x;
     i_lease_mask := i_lease_mask x; i_nr_by_mode := i_nr_by_mode x;
     i_snap_caps := i_snap_caps x; i_vmtruncate_to := i_vmtruncate_to x;
     i_wrbuffer_ref := i_wrbuffer_ref x |}.
Definition set_i_truncate_seq (v : Z) (x : ceph_inode_info) : ceph_inode_info :=
  {| vfs_inode := vfs_inode x; i_vino := i_vino x; i_version := i_version x;
     i_truncate_seq := v; i_time_warp_seq := i_time_warp_seq x;
     i_reported_size := i_reported_size x; i_max_size := i_max_size x;
     i_layout := i_layout x; i_xattr_len := i_xattr_len x; i_xattr_data :=
     i_xattr_data x; i_old_atime := i_old_atime x; i_symlink := i_symlink x;
     i_fragtree := i_fragtree x; i_files := i_files x; i_subdirs := i_subdirs
     x; i_rbytes := i_rbytes x; i_rfiles := i_rfiles x; i_rsubdirs :=
     i_rsubdirs x; i_rctime := i_rctime x; i_lease_session := i_lease_session
     x; i_lease_gen := i_lease_gen x; i_lease_ttl := i_lease_ttl x;
     i_lease_mask := i_lease_mask x; i_nr_by_mode := i_nr_by_mode x;
     i_snap_caps := i_snap_caps x; i_vmtruncate_to := i_vmtruncate_to x;
     i_wrbuffer_ref := i_wrbuffer_ref x |}.
Definition set_i_time_warp_seq (v : Z) (x : ceph_inode_info) : ceph_inode_info :=
  {| vfs_inode := vfs_inode x; i_vino := i_vino x; i_version := i_version x;
     i_truncate_seq := i_truncate_seq x; i_time_warp_seq := v; i_reported_size
     := i_reported_size x; i_max_size := i_max_size x; i_layout := i_layout x;
     i_xattr_len := i_xattr_len x; i_xattr_data := i_xattr_data x; i_old_atime
     := i_old_atime x; i_symlink := i_symlink x; i_fragtree := i_fragtree x;
     i_files := i_files x; i_subdirs := i_subdirs x; i_rbytes := i_rbytes x;
     i_rfiles := i_rfiles x; i_rsubdirs := i_rsubdirs x; i_rctime := i_rctime
     x; i_lease_session := i_lease_session x; i_lease_gen := i_lease_gen x;
     i_lease_ttl := i_lease_ttl x; i_lease_mask := i_lease_mask x;
     i_nr_by_mode := i_nr_by_mode x; i_snap_caps := i_snap_caps x;
     i_vmtruncate_to := i_vmtruncate_to x; i_wrbuffer_ref := i_wrbuffer_ref x
     |}.
Definition set_i_reported_size (v : Z) (x : ceph_inode_info) : ceph_inode_info :=
  {| vfs_inode := vfs_inode x; i_vino := i_vino x; i_version := i_version x;
     i_truncate_seq := i_truncate_seq x; i_time_warp_seq := i_time_warp_seq x;
     i_reported_size := v; i_max_size := i_max_size x; i_layout := i_layout x;
     i_xattr_len := i_xattr_len x; i_xattr_data := i_xattr_data x; i_old_atime
     := i_old_atime x; i_symlink := i_symlink x; i_fragtree := i_fragtree x;
     i_files := i_files x; i_subdirs := i_subdirs x; i_rbytes := i_rbytes x;
     i_rfiles := i_rfiles x; i_rsubdirs := i_rsubdirs x; i_rctime := i_rctime
     x; i_lease_session := i_lease_session x; i_lease_gen := i_lease_gen x;
     i_lease_ttl := i_lease_ttl x; i_lease_mask := i_lease_mask x;
     i_nr_by_mode := i_nr_by_mode x; i_snap_caps := i_snap_caps x;
     i_vmtruncate_to := i_vmtruncate_to x; i_wrbuffer_ref := i_wrbuffer_ref x
     |}.
Definition set_i_max_size (v : Z) (x : ceph_inode_info) : ceph_inode_info :=
  {| vfs_inode := vfs_inode x; i_vino := i_vino x; i_version := i_version x;
     i_truncate_seq := i_truncate_seq x; i_time_warp_seq := i_time_warp_seq x;
     i_reported_size := i_reported_size x; i_max_size := v; i_layout :=
     i_layout x; i_xattr_len := i_xattr_len x; i_xattr_data := i_xattr_data x;
     i_old_atime := i_old_atime x; i_symlink := i_symlink x; i_fragtree :=
     i_fragtree x; i_files := i_files x; i_subdirs := i_subdirs x; i_rbytes :=
     i_rbytes x; i_rfiles := i_rfiles x; i_rsubdirs := i_rsubdirs x; i_rctime
     := i_rctime x; i_lease_session := i_lease_session x; i_lease_gen :=
     i_lease_gen x; i_lease_ttl := i_lease_ttl x; i_lease_mask := i_lease_mask
     x; i_nr_by_mode := i_nr_by_mode x; i_snap_caps := i_snap_caps x;
     i_vmtruncate_to := i_vmtruncate_to x; i_wrbuffer_ref := i_wrbuffer_ref x
     |}.
Definition set_i_layout (v : ceph_file_layout) (x : ceph_inode_info) : ceph_inode_info :=
  {| vfs_inode := vfs_inode x; i_vino := i_vino x; i_version := i_version x;
     i_truncate_seq := i_truncate_seq x; i_time_warp_seq := i_time_warp_seq x;
     i_reported_size := i_reported_size x; i_max_size := i_max_size x;
     i_layout := v; i_xattr_len := i_xattr_len x; i_xattr_data := i_xattr_data
     x; i_old_atime := i_old_atime x; i_symlink := i_symlink x; i_fragtree :=
     i_fragtree x; i_files := i_files x; i_subdirs := i_subdirs x; i_rbytes :=
     i_rbytes x; i_rfiles := i_rfiles x; i_rsubdirs := i_rsubdirs x; i_rctime
     := i_rctime x; i_lease_session := i_lease_session x; i_lease_gen :=
     i_lease_gen x; i_lease_ttl := i_lease_ttl x; i_lease_mask := i_lease_mask
     x; i_nr_by_mode := i_nr_by_mode x; i_snap_caps := i_snap_caps x;
     i_vmtruncate_to := i_vmtruncate_to x; i_wrbuffer_ref := i_wrbuffer_ref x
     |}.
Definition set_i_xattr_len (v : Z) (x : ceph_inode_info) : ceph_inode_info :=
  {| vfs_inode := vfs_inode x; i_vino := i_vino x; i_version := i_version x;
     i_truncate_seq := i_truncate_seq x; i_time_warp_seq := i_time_warp_seq x;
     i_reported_size := i_reported_size x; i_max_size := i_max_size x;
     i_layout := i_layout x; i_xattr_len := v; i_xattr_data := i_xattr_data x;
     i_old_atime := i_old_atime x; i_symlink := i_symlink x; i_fragtree :=
     i_fragtree x; i_files := i_files x; i_subdirs := i_subdirs x; i_rbytes :=
     i_rbytes x; i_rfiles := i_rfiles x; i_rsubdirs := i_rsubdirs x; i_rctime
     := i_rctime x; i_lease_session := i_lease_session x; i_lease_gen :=
     i_lease_gen x; i_lease_ttl := i_lease_ttl x; i_lease_mask := i_lease_mask
     x; i_nr_by_mode := i_nr_by_mode x; i_snap_caps := i_snap_caps x;
     i_vmtruncate_to := i_vmtruncate_to x; i_wrbuffer_ref := i_wrbuffer_ref x
     |}.
Definition set_i_xattr_data (v : list byte) (x : ceph_inode_info) : ceph_inode_info :=
  {| vfs_inode := vfs_inode x; i_vino := i_vino x; i_version := i_version x;
     i_truncate_seq := i_truncate_seq x; i_time_warp_seq := i_time_warp_seq x;
     i_reported_size := i_reported_size x; i_max_size := i_max_size x;
     i_layout := i_layout x; i_xattr_len := i_xattr_len x; i_xattr_data := v;
     i_old_atime := i_old_atime x; i_symlink := i_symlink x; i_fragtree :=
     i_fragtree x; i_files := i_files x; i_subdirs := i_subdirs x; i_rbytes :=
     i_rbytes x; i_rfiles := i_rfiles x; i_rsubdirs := i_rsubdirs x; i_rctime
     := i_rctime x; i_lease_session := i_lease_session x; i_lease_gen :=
     i_lease_gen x; i_lease_ttl := i_lease_ttl x; i_lease_mask := i_lease_mask
     x; i_nr_by_mode := i_nr_by_mode x; i_snap_caps := i_snap_caps x;
     i_vmtruncate_to := i_vmtruncate_to x; i_wrbuffer_ref := i_wrbuffer_ref x
     |}.
Definition set_i_old_atime (v : timespec) (x : ceph_inode_info) : ceph_inode_info :=
  {| vfs_inode := vfs_inode x; i_vino := i_vino x; i_version := i_version x;
     i_truncate_seq := i_truncate_seq x; i_time_warp_seq := i_time_warp_seq x;
     i_reported_size := i_reported_size x; i_max_size := i_max_size x;
     i_layout := i_layout x; i_xattr_len := i_xattr_len x; i_xattr_data :=
     i_xattr_data x; i_old_atime := v; i_symlink := i_symlink x; i_fragtree :=
     i_fragtree x; i_files := i_files x; i_subdirs := i_subdirs x; i_rbytes :=
     i_rbytes x; i_rfiles := i_rfiles x; i_rsubdirs := i_rsubdirs x; i_rctime
     := i_rctime x; i_lease_session := i_lease_session x; i_lease_gen :=
     i_lease_gen x; i_lease_ttl := i_lease_ttl x; i_lease_mask := i_lease_mask
     x; i_nr_by_mode := i_nr_by_mode x; i_snap_caps := i_snap_caps x;
     i_vmtruncate_to := i_vmtruncate_to x; i_wrbuffer_ref := i_wrbuffer_ref x
     |}.
Definition set_i_symlink (v : option (list byte)) (x : ceph_inode_info) : ceph_inode_info :=
  {| vfs_inode := vfs_inode x; i_vino := i_vino x; i_version := i_version x;
     i_truncate_seq := i_truncate_seq x; i_time_warp_seq := i_time_warp_seq x;
     i_reported_size := i_reported_size x; i_max_size := i_max_size x;
     i_layout := i_layout x; i_xattr_len := i_xattr_len x; i_xattr_data :=
     i_xattr_data x; i_old_atime := i_old_atime x; i_symlink := v; i_fragtree
     := i_fragtree x; i_files := i_files x; i_subdirs := i_subdirs x; i_rbytes
     := i_rbytes x; i_rfiles := i_rfiles x; i_rsubdirs := i_rsubdirs x;
     i_rctime := i_rctime x; i_lease_session := i_lease_session x; i_lease_gen
     := i_lease_gen x; i_lease_ttl := i_lease_ttl x; i_lease_mask :=
     i_lease_mask x; i_nr_by_mode := i_nr_by_mode x; i_snap_caps :=
     i_snap_caps x; i_vmtruncate_to := i_vmtruncate_to x; i_wrbuffer_ref :=
     i_wrbuffer_ref x |}.
Definition set_i_fragtree (v : gmap Z ceph_inode_frag) (x : ceph_inode_info) : ceph_inode_info :=
  {| vfs_inode := vfs_inode x; i_vino := i_vino x; i_version := i_version x;
     i_truncate_seq := i_truncate_seq x; i_time_warp_seq := i_time_warp_seq x;
     i_reported_size := i_reported_size x; i_max_size := i_max_size x;
     i_layout := i_layout x; i_xattr_len := i_xattr_len x; i_xattr_data :=
     i_xattr_data x; i_old_atime := i_old_atime x; i_symlink := i_symlink x;
     i_fragtree := v; i_files := i_files x; i_subdirs := i_subdirs x; i_rbytes
     := i_rbytes x; i_rfiles := i_rfiles x; i_rsubdirs := i_rsubdirs x;
     i_rctime := i_rctime x; i_lease_session := i_lease_session x; i_lease_gen
     := i_lease_gen x; i_lease_ttl := i_lease_ttl x; i_lease_mask :=
     i_lease_mask x; i_nr_by_mode := i_nr_by_mode x; i_snap_caps :=
     i_snap_caps x; i_vmtruncate_to := i_vmtruncate_to x; i_wrbuffer_ref :=
     i_wrbuffer_ref x |}.
Definition set_i_files (v : Z) (x : ceph_inode_info) : ceph_inode_info :=
  {| vfs_inode := vfs_inode x; i_vino := i_vino x; i_version := i_version x;
     i_truncate_seq := i_truncate_seq x; i_time_warp_seq := i_time_warp_seq x;
     i_reported_size := i_reported_size x; i_max_size := i_max_size x;
     i_layout := i_layout x; i_xattr_len := i_xattr_len x; i_xattr_data :=
     i_xattr_data x; i_old_atime := i_old_atime x; i_symlink := i_symlink x;
     i_fragtree := i_fragtree x; i_files := v; i_subdirs := i_subdirs x;
     i_rbytes := i_rbytes x; i_rfiles := i_rfiles x; i_rsubdirs := i_rsubdirs
     x; i_rctime := i_rctime x; i_lease_session := i_lease_session x;
     i_lease_gen := i_lease_gen x; i_lease_ttl := i_lease_ttl x; i_lease_mask
     := i_lease_mask x; i_nr_by_mode := i_nr_by_mode x; i_snap_caps :=
     i_snap_caps x; i_vmtruncate_to := i_vmtruncate_to x; i_wrbuffer_ref :=
     i_wrbuffer_ref x |}.
Definition set_i_subdirs (v : Z) (x : ceph_inode_info) : ceph_inode_info :=
  {| vfs_inode := vfs_inode x; i_vino := i_vino x; i_version := i_version x;
     i_truncate_seq := i_truncate_seq x; i_time_warp_seq := i_time_warp_seq x;
     i_reported_size := i_reported_size x; i_max_size := i_max_size x;
     i_layout := i_layout x; i_xattr_len := i_xattr_len x; i_xattr_data :=
     i_xattr_data x; i_old_atime := i_old_atime x; i_symlink := i_symlink x;
     i_fragtree := i_fragtree x; i_files := i_files x; i_subdirs := v;
     i_rbytes := i_rbytes x; i_rfiles := i_rfiles x; i_rsubdirs := i_rsubdirs
     x; i_rctime := i_rctime x; i_lease_session := i_lease_session x;
     i_lease_gen := i_lease_gen x; i_lease_ttl := i_lease_ttl x; i_lease_mask
     := i_lease_mask x; i_nr_by_mode := i_nr_by_mode x; i_snap_caps :=
     i_snap_caps x; i_vmtruncate_to := i_vmtruncate_to x; i_wrbuffer_ref :=
     i_wrbuffer_ref x |}.
Definition set_i_rbytes (v : Z) (x : ceph_inode_info) : ceph_inode_info :=
  {| vfs_inode := vfs_inode x; i_vino := i_vino x; i_version := i_version x;
     i_truncate_seq := i_truncate_seq x; i_time_warp_seq := i_time_warp_seq x;
     i_reported_size := i_reported_size x; i_max_size := i_max_size x;
     i_layout := i_layout x; i_xattr_len := i_xattr_len x; i_xattr_data :=
     i_xattr_data x; i_old_atime := i_old_atime x; i_symlink := i_symlink x;
     i_fragtree := i_fragtree x; i_files := i_files x; i_subdirs := i_subdirs
     x; i_rbytes := v; i_rfiles := i_rfiles x; i_rsubdirs := i_rsubdirs x;
     i_rctime := i_rctime x; i_lease_session := i_lease_session x; i_lease_gen
     := i_lease_gen x; i_lease_ttl := i_lease_ttl x; i_lease_mask :=
     i_lease_mask x; i_nr_by_mode := i_nr_by_mode x; i_snap_caps :=
     i_snap_caps x; i_vmtruncate_to := i_vmtruncate_to x; i_wrbuffer_ref :=
     i_wrbuffer_ref x |}.
Definition set_i_rfiles (v : Z) (x : ceph_inode_info) : ceph_inode_info :=
  {| vfs_inode := vfs_inode x; i_vino := i_vino x; i_version := i_version x;
     i_truncate_seq := i_truncate_seq x; i_time_warp_seq := i_time_warp_seq x;
     i_reported_size := i_reported_size x; i_max_size := i_max_size x;
     i_layout := i_layout x; i_xattr_len := i_xattr_len x; i_xattr_data :=
     i_xattr_data x; i_old_atime := i_old_atime x; i_symlink := i_symlink x;
     i_fragtree := i_fragtree x; i_files := i_files x; i_subdirs := i_subdirs
     x; i_rbytes := i_rbytes x; i_rfiles := v; i_rsubdirs := i_rsubdirs x;
     i_rctime := i_rctime x; i_lease_session := i_lease_session x; i_lease_gen
     := i_lease_gen x; i_lease_ttl := i_lease_ttl x; i_lease_mask :=
     i_lease_mask x; i_nr_by_mode := i_nr_by_mode x; i_snap_caps :=
     i_snap_caps x; i_vmtruncate_to := i_vmtruncate_to x; i_wrbuffer_ref :=
     i_wrbuffer_ref x |}.
Definition set_i_rsubdirs (v : Z) (x : ceph_inode_info) : ceph_inode_info :=
  {| vfs_inode := vfs_inode x; i_vino := i_vino x; i_version := i_version x;
     i_truncate_seq := i_truncate_seq x; i_time_warp_seq := i_time_warp_seq x;
     i_reported_size := i_reported_size x; i_max_size := i_max_size x;
     i_layout := i_layout x; i_xattr_len := i_xattr_len x; i_xattr_data :=
     i_xattr_data x; i_old_atime := i_old_atime x; i_symlink := i_symlink x;
     i_fragtree := i_fragtree x; i_files := i_files x; i_subdirs := i_subdirs
     x; i_rbytes := i_rbytes x; i_rfiles := i_rfiles x; i_rsubdirs := v;
     i_rctime := i_rctime x; i_lease_session := i_lease_session x; i_lease_gen
     := i_lease_gen x; i_lease_ttl := i_lease_ttl x; i_lease_mask :=
     i_lease_mask x; i_nr_by_mode := i_nr_by_mode x; i_snap_caps :=
     i_snap_caps x; i_vmtruncate_to := i_vmtruncate_to x; i_wrbuffer_ref :=
     i_wrbuffer_ref x |}.
Definition set_i_rctime (v : timespec) (x : ceph_inode_info) : ceph_inode_info :=
  {| vfs_inode := vfs_inode x; i_vino := i_vino x; i_version := i_version x;
     i_truncate_seq := i_truncate_seq x; i_time_warp_seq := i_time_warp_seq x;
     i_reported_size := i_reported_size x; i_max_size := i_max_size x;
     i_layout := i_layout x; i_xattr_len := i_xattr_len x; i_xattr_data :=
     i_xattr_data x; i_old_atime := i_old_atime x; i_symlink := i_symlink x;
     i_fragtree := i_fragtree x; i_files := i_files x; i_subdirs := i_subdirs
     x; i_rbytes := i_rbytes x; i_rfiles := i_rfiles x; i_rsubdirs :=
     i_rsubdirs x; i_rctime := v; i_lease_session := i_lease_session x;
     i_lease_gen := i_lease_gen x; i_lease_ttl := i_lease_ttl x; i_lease_mask
     := i_lease_mask x; i_nr_by_mode := i_nr_by_mode x; i_snap_caps :=
     i_snap_caps x; i_vmtruncate_to := i_vmtruncate_to x; i_wrbuffer_ref :=
     i_wrbuffer_ref x |}.
Definition set_i_lease_session (v : option Z) (x : ceph_inode_info) : ceph_inode_info :=
  {| vfs_inode := vfs_inode x; i_vino := i_vino x; i_version := i_version x;
     i_truncate_seq := i_truncate_seq x; i_time_warp_seq := i_time_warp_seq x;
     i_reported_size := i_reported_size x; i_max_size := i_max_size x;
     i_layout := i_layout x; i_xattr_len := i_xattr_len x; i_xattr_data :=
     i_xattr_data x; i_old_atime := i_old_atime x; i_symlink := i_symlink x;
     i_fragtree := i_fragtree x; i_files := i_files x; i_subdirs := i_subdirs
     x; i_rbytes := i_rbytes x; i_rfiles := i_rfiles x; i_rsubdirs :=
     i_rsubdirs x; i_rctime := i_rctime x; i_lease_session := v; i_lease_gen
     := i_lease_gen x; i_lease_ttl := i_lease_ttl x; i_lease_mask :=
     i_lease_mask x; i_nr_by_mode := i_nr_by_mode x; i_snap_caps :=
     i_snap_caps x; i_vmtruncate_to := i_vmtruncate_to x; i_wrbuffer_ref :=
     i_wrbuffer_ref x |}.
Definition set_i_lease_gen (v : Z) (x : ceph_inode_info) : ceph_inode_info :=
  {| vfs_inode := vfs_inode x; i_vino := i_vino x; i_version := i_version x;
     i_truncate_seq := i_truncate_seq x; i_time_warp_seq := i_time_warp_seq x;
     i_reported_size := i_reported_size x; i_max_size := i_max_size x;
     i_layout := i_layout x; i_xattr_len := i_xattr_len x; i_xattr_data :=
     i_xattr_data x; i_old_atime := i_old_atime x; i_symlink := i_symlink x;
     i_fragtree := i_fragtree x; i_files := i_files x; i_subdirs := i_subdirs
     x; i_rbytes := i_rbytes x; i_rfiles := i_rfiles x; i_rsubdirs :=
     i_rsubdirs x; i_rctime := i_rctime x; i_lease_session := i_lease_session
     x; i_lease_gen := v; i_lease_ttl := i_lease_ttl x; i_lease_mask :=
     i_lease_mask x; i_nr_by_mode := i_nr_by_mode x; i_snap_caps :=
     i_snap_caps x; i_vmtruncate_to := i_vmtruncate_to x; i_wrbuffer_ref :=
     i_wrbuffer_ref x |}.
Definition set_i_lease_ttl (v : Z) (x : ceph_inode_info) : ceph_inode_info :=
  {| vfs_inode := vfs_inode x; i_vino := i_vino x; i_version := i_version x;
     i_truncate_seq := i_truncate_seq x; i_time_warp_seq := i_time_warp_seq x;
     i_reported_size := i_reported_size x; i_max_size := i_max_size x;
     i_layout := i_layout x; i_xattr_len := i_xattr_len x; i_xattr_data :=
     i_xattr_data x; i_old_atime := i_old_atime x; i_symlink := i_symlink x;
     i_fragtree := i_fragtree x; i_files := i_files x; i_subdirs := i_subdirs
     x; i_rbytes := i_rbytes x; i_rfiles := i_rfiles x; i_rsubdirs :=
     i_rsubdirs x; i_rctime := i_rctime x; i_lease_session := i_lease_session
     x; i_lease_gen := i_lease_gen x; i_lease_ttl := v; i_lease_mask :=
     i_lease_mask x; i_nr_by_mode := i_nr_by_mode x; i_snap_caps :=
     i_snap_caps x; i_vmtruncate_to := i_vmtruncate_to x; i_wrbuffer_ref :=
     i_wrbuffer_ref x |}.
Definition set_i_lease_mask (v : Z) (x : ceph_inode_info) : ceph_inode_info :=
  {| vfs_inode := vfs_inode x; i_vino := i_vino x; i_version := i_version x;
     i_truncate_seq := i_truncate_seq x; i_time_warp_seq := i_time_warp_seq x;
     i_reported_size := i_reported_size x; i_max_size := i_max_size x;
     i_layout := i_layout x; i_xattr_len := i_xattr_len x; i_xattr_data :=
     i_xattr_data x; i_old_atime := i_old_atime x; i_symlink := i_symlink x;
     i_fragtree := i_fragtree x; i_files := i_files x; i_subdirs := i_subdirs
     x; i_rbytes := i_rbytes x; i_rfiles := i_rfiles x; i_rsubdirs :=
     i_rsubdirs x; i_rctime := i_rctime x; i_lease_session := i_lease_session
     x; i_lease_gen := i_lease_gen x; i_lease_ttl := i_lease_ttl x;
     i_lease_mask := v; i_nr_by_mode := i_nr_by_mode x; i_snap_caps :=
     i_snap_caps x; i_vmtruncate_to := i_vmtruncate_to x; i_wrbuffer_ref :=
     i_wrbuffer_ref x |}.
Definition set_i_nr_by_mode (v : list Z) (x : ceph_inode_info) : ceph_inode_info :=
  {| vfs_inode := vfs_inode x; i_vino := i_vino x; i_version := i_version x;
     i_truncate_seq := i_truncate_seq x; i_time_warp_seq := i_time_warp_seq x;
     i_reported_size := i_reported_size x; i_max_size := i_max_size x;
     i_layout := i_layout x; i_xattr_len := i_xattr_len x; i_xattr_data :=
     i_xattr_data x; i_old_atime := i_old_atime x; i_symlink := i_symlink x;
     i_fragtree := i_fragtree x; i_files := i_files x; i_subdirs := i_subdirs
     x; i_rbytes := i_rbytes x; i_rfiles := i_rfiles x; i_rsubdirs :=
     i_rsubdirs x; i_rctime := i_rctime x; i_lease_session := i_lease_session
     x; i_lease_gen := i_lease_gen x; i_lease_ttl := i_lease_ttl x;
     i_lease_mask := i_lease_mask x; i_nr_by_mode := v; i_snap_caps :=
     i_snap_caps x; i_vmtruncate_to := i_vmtruncate_to x; i_wrbuffer_ref :=
     i_wrbuffer_ref x |}.
Definition set_i_snap_caps (v : Z) (x : ceph_inode_info) : ceph_inode_info :=
  {| vfs_inode := vfs_inode x; i_vino := i_vino x; i_version := i_version x;
     i_truncate_seq := i_truncate_seq x; i_time_warp_seq := i_time_warp_seq x;
     i_reported_size := i_reported_size x; i_max_size := i_max_size x;
     i_layout := i_layout x; i_xattr_len := i_xattr_len x; i_xattr_data :=
     i_xattr_data x; i_old_atime := i_old_atime x; i_symlink := i_symlink x;
     i_fragtree := i_fragtree x; i_files := i_files x; i_subdirs := i_subdirs
     x; i_rbytes := i_rbytes x; i_rfiles := i_rfiles x; i_rsubdirs :=
     i_rsubdirs x; i_rctime := i_rctime x; i_lease_session := i_lease_session
     x; i_lease_gen := i_lease_gen x; i_lease_ttl := i_lease_ttl x;
     i_lease_mask := i_lease_mask x; i_nr_by_mode := i_nr_by_mode x;
     i_snap_caps := v; i_vmtruncate_to := i_vmtruncate_to x; i_wrbuffer_ref :=
     i_wrbuffer_ref x |}.
Definition set_i_vmtruncate_to (v : Z) (x : ceph_inode_info) : ceph_inode_info :=
  {| vfs_inode := vfs_inode x; i_vino := i_vino x; i_version := i_version x;
     i_truncate_seq := i_truncate_seq x; i_time_warp_seq := i_time_warp_seq x;
     i_reported_size := i_reported_size x; i_max_size := i_max_size x;
     i_layout := i_layout x; i_xattr_len := i_xattr_len x; i_xattr_data :=
     i_xattr_data x; i_old_atime := i_old_atime x; i_symlink := i_symlink x;
     i_fragtree := i_fragtree x; i_files := i_files x; i_subdirs := i_subdirs
     x; i_rbytes := i_rbytes x; i_rfiles := i_rfiles x; i_rsubdirs :=
     i_rsubdirs x; i_rctime := i_rctime x; i_lease_session := i_lease_session
     x; i_lease_gen := i_lease_gen x; i_lease_ttl := i_lease_ttl x;
     i_lease_mask := i_lease_mask x; i_nr_by_mode := i_nr_by_mode x;
     i_snap_caps := i_snap_caps x; i_vmtruncate_to := v; i_wrbuffer_ref :=
     i_wrbuffer_ref x |}.
Definition set_i_wrbuffer_ref (v : Z) (x : ceph_inode_info) : ceph_inode_info :=
  {| vfs_inode := vfs_inode x; i_vino := i_vino x; i_version := i_version x;
     i_truncate_seq := i_truncate_seq x; i_time_warp_seq := i_time_warp_seq x;
     i_reported_size := i_reported_size x; i_max_size := i_max_size x;
     i_layout := i_layout x; i_xattr_len := i_xattr_len x; i_xattr_data :=
     i_xattr_data x; i_old_atime := i_old_atime x; i_symlink := i_symlink x;
     i_fragtree := i_fragtree x; i_files := i_files x; i_subdirs := i_subdirs
     x; i_rbytes := i_rbytes x; i_rfiles := i_rfiles x; i_rsubdirs :=
     i_rsubdirs x; i_rctime := i_rctime x; i_lease_session := i_lease_session
     x; i_lease_gen := i_lease_gen x; i_lease_ttl := i_lease_ttl x;
     i_lease_mask := i_lease_mask x; i_nr_by_mode := i_nr_by_mode x;
     i_snap_caps := i_snap_caps x; i_vmtruncate_to := i_vmtruncate_to x;
     i_wrbuffer_ref := v |}.

Definition upd_inode (f : inode → inode) (ci : ceph_inode_info) : ceph_inode_info :=
  set_vfs_inode (f (vfs_inode ci)) ci.

(** ** Decoded replies of the MDS

    The fields hold the integers that le32_to_cpu and le64_to_cpu return;
    timestamps are as ceph_decode_timespec leaves them. *)

Record ceph_frag_tree_split : Type := { fts_frag : Z; fts_by : Z }.

Record ceph_mds_reply_inode : Type := {
  in_ino : Z;
  in_snapid : Z;
  in_version : Z;
  in_mode : Z;
  in_uid : Z;
  in_gid : Z;
  in_nlink : Z;
  in_rdev : Z;
  in_layout : ceph_file_layout;
  in_truncate_seq : Z;
  in_time_warp_seq : Z;
  in_size : Z;
  in_max_size : Z;
  in_mtime : timespec;
  in_atime : timespec;
  in_ctime : timespec;
  in_rctime : timespec;
  in_files : Z;
  in_subdirs : Z;
  in_rfiles : Z;
  in_rsubdirs : Z;
  in_rbytes : Z;
  in_splits : list ceph_frag_tree_split   (* fragtree.splits[0..nsplits) *)
}.

Record ceph_mds_reply_info_in : Type := {
  info_in : ceph_mds_reply_inode;
  symlink_len : Z;
  symlink : list byte;
  xattr_len : Z;
  xattr_data : list byte
}.

Record ceph_mds_reply_dirfrag : Type := {
  df_frag : Z;
  df_auth : Z;
  df_ndist : Z;
  df_dist : list Z
}.

Record ceph_mds_reply_lease : Type := {
  lease_mask : Z;
  duration_ms : Z
}.

(** A C integer used as a condition. *)
Definition nonzero (x : Z) : bool := negb (x =? 0).

(** ** The attribute reconciler *)

(** [(size + (1<<9) - 1) >> 9], computed in u64. *)
Definition size_to_blocks (size : Z) : Z :=
  Z.shiftr (u64 (size + Z.shiftl 1 9 - 1)) 9.

Section reconciler.
Context `{headers}.

Definition ceph_fill_file_bits (issued truncate_seq size time_warp_seq : Z)
    (ctime mtime atime : timespec) (ci : ceph_inode_info) : ceph_inode_info :=
  let ci :=
    if (truncate_seq >? i_truncate_seq ci) ||
       ((truncate_seq =? i_truncate_seq ci) && (size >? i_size (vfs_inode ci)))
    then
      set_i_truncate_seq truncate_seq
        (set_i_reported_size size
           (upd_inode (λ i, set_i_blocks (size_to_blocks size) (set_i_size size i)) ci))
    else ci in
  if nonzero (Z.land issued CEPH_CAP_EXCL) then
    if timespec_compare ctime (i_ctime (vfs_inode ci)) >? 0
    then upd_inode (set_i_ctime ctime) ci
    else ci
  else if nonzero (Z.land issued (Z.lor CEPH_CAP_WR CEPH_CAP_WRBUFFER)) then
    if time_warp_seq >? i_time_warp_seq ci then
      set_i_time_warp_seq time_warp_seq
        (upd_inode (λ i, set_i_atime atime (set_i_mtime mtime (set_i_ctime ctime i))) ci)
    else if time_warp_seq =? i_time_warp_seq ci then
      let ci :=
        if timespec_compare ctime (i_ctime (vfs_inode ci)) >? 0
        then upd_inode (set_i_ctime ctime) ci else ci in
      let ci :=
        if timespec_compare mtime (i_mtime (vfs_inode ci)) >? 0
        then upd_inode (set_i_mtime mtime) ci else ci in
      if timespec_compare atime (i_atime (vfs_inode ci)) >? 0
      then upd_inode (set_i_atime atime) ci else ci
    else ci
  else
    if time_warp_seq >=? i_time_warp_seq ci then
      set_i_time_warp_seq time_warp_seq
        (upd_inode (λ i, set_i_atime atime (set_i_mtime mtime (set_i_ctime ctime i))) ci)
    else ci.

(** ** Delegation info and splits of the fragment tree *)

(** ceph_fill_dirfrag on the tree of the inode: the error code and the
    tree it leaves. *)
Definition ceph_fill_dirfrag (tree : gmap Z ceph_inode_frag)
    (dirinfo : ceph_mds_reply_dirfrag) : kst (Z * gmap Z ceph_inode_frag) :=
  let id := df_frag dirinfo in
  let mds_ := s32 (df_auth dirinfo) in
  let ndist_ := s32 (df_ndist dirinfo) in
  if (mds_ <? 0) && (ndist_ =? 0) then
    match __ceph_find_frag tree id with
    | None => mret (0, tree)
    | Some fr =>
        if split_by fr =? 0 then mret (0, delete id tree)
        else mret (0, <[id := set_ndist 0 (set_mds (-1) fr)]> tree)
    end
  else
    got ← __get_or_create_frag tree id;
    match got with
    | None => mret (- ENOMEM, tree)
    | Some tree' =>
        let n := s32 (min_t_u32 ndist_ MAX_DIRFRAG_REP) in
        mret (0, alter (λ fr, set_dist (take (Z.to_nat n) (df_dist dirinfo) ++
                                        drop (Z.to_nat n) (dist fr))
                                (set_ndist n (set_mds mds_ fr))) id tree')
    end.

(** The loop of ceph_fill_inode over [info->fragtree.splits]. *)
Fixpoint fill_fragtree_splits (splits : list ceph_frag_tree_split)
    (tree : gmap Z ceph_inode_frag) : kst (gmap Z ceph_inode_frag) :=
  match splits with
  | [] => mret tree
  | sp :: rest =>
      got ← __get_or_create_frag tree (fts_frag sp);
      match got with
      | None => fill_fragtree_splits rest tree
      | Some tree' =>
          fill_fragtree_splits rest
            (alter (set_split_by (s32 (fts_by sp))) (fts_frag sp) tree')
      end
  end.

End reconciler.

(** ** ceph_fill_inode *)

Section fill_inode.
Context `{headers}.

(** The attribute update, between the version test and [no_change]:
    [have_buf] says whether the xattr buffer allocated ahead is there. *)
Definition fill_inode_update (issued : Z) (have_buf : bool)
    (iinfo : ceph_mds_reply_info_in) (ci : ceph_inode_info) : kres ceph_inode_info :=
  let info := info_in iinfo in
  let ci := set_i_version (in_version info) ci in
  let ci := upd_inode (λ i,
      set_i_rdev (u32 (in_rdev info))
        (set_i_nlink (u32 (in_nlink info))
           (set_i_gid (u32 (in_gid info))
              (set_i_uid (u32 (in_uid info))
                 (set_i_mode (u16 (in_mode info))
                    (set_vfs_i_version (u64 (vfs_i_version i + 1)) i)))))) ci in
  let ci := ceph_fill_file_bits issued (in_truncate_seq info) (in_size info)
              (in_time_warp_seq info) (in_ctime info) (in_mtime info)
              (in_atime info) ci in
  let ci := set_i_layout (in_layout info) (set_i_max_size (in_max_size info) ci) in
  let ci := upd_inode
      (set_i_blkbits (u32 (fls (fl_stripe_unit (in_layout info)) - 1))) ci in
  ci ← (if nonzero (xattr_len iinfo) then
          let n := Z.to_nat (xattr_len iinfo) in
          if negb (i_xattr_len ci =? xattr_len iinfo) then
            (* the old buffer is freed and replaced by the one allocated
               ahead; memcpy then writes through it *)
            if have_buf then
              Ret (set_i_xattr_data (take n (xattr_data iinfo))
                     (set_i_xattr_len (xattr_len iinfo) ci))
            else Fault NullDeref
          else
            Ret (set_i_xattr_data
                   (take n (xattr_data iinfo) ++ drop n (i_xattr_data ci)) ci)
        else Ret ci);
  Ret (set_i_old_atime (i_atime (vfs_inode ci)) ci).

(** The switch on the file type that ends ceph_fill_inode. *)
Definition fill_inode_type (mount_flags : Z) (iinfo : ceph_mds_reply_info_in)
    (ci : ceph_inode_info) : kst (Z * ceph_inode_info) :=
  let info := info_in iinfo in
  let fmt := Z.land (i_mode (vfs_inode ci)) S_IFMT in
  if (fmt =? S_IFIFO) || (fmt =? S_IFBLK) || (fmt =? S_IFCHR) || (fmt =? S_IFSOCK) then
    (* init_special_inode(inode, inode->i_mode, inode->i_rdev) *)
    mret (0, upd_inode (λ i, set_i_op ceph_file_iops (set_i_fop special_fops i)) ci)
  else if fmt =? S_IFREG then
    mret (0, upd_inode (λ i, set_i_fop ceph_file_fops (set_i_op ceph_file_iops i)) ci)
  else if fmt =? S_IFLNK then
    let ci := upd_inode (set_i_op ceph_symlink_iops) ci in
    match i_symlink ci with
    | Some _ => mret (0, ci)
    | None =>
        let symlen := s32 (symlink_len iinfo) in
        if negb (symlen =? s64 (i_size (vfs_inode ci))) then kfault BugOn
        else
          ok ← kmalloc;
          if ok : bool then
            mret (0, set_i_symlink (Some (take (Z.to_nat symlen) (symlink iinfo))) ci)
          else mret (- ENOMEM, ci)
    end
  else if fmt =? S_IFDIR then
    let ci := upd_inode (λ i, set_i_fop ceph_dir_fops (set_i_op ceph_dir_iops i)) ci in
    let ci := set_i_rctime (in_rctime info)
                (set_i_rsubdirs (in_rsubdirs info)
                   (set_i_rfiles (in_rfiles info)
                      (set_i_rbytes (in_rbytes info)
                         (set_i_subdirs (in_subdirs info)
                            (set_i_files (in_files info) ci))))) in
    if nonzero (Z.land mount_flags CEPH_MOUNT_RBYTES)
    then mret (0, upd_inode (set_i_size (i_rbytes ci)) ci)
    else mret (0, ci)
  else mret (- EINVAL, ci).

(** [issued] is what __ceph_caps_issued(ci, NULL) returns (caps.c),
    [mount_flags] the mount_args.flags of the client, [dirinfo] is [None]
    for a null pointer. *)
Definition ceph_fill_inode (mount_flags issued : Z) (ci : ceph_inode_info)
    (iinfo : ceph_mds_reply_info_in) (dirinfo : option ceph_mds_reply_dirfrag)
  : kst (Z * ceph_inode_info) :=
  let info := info_in iinfo in
  have_buf ← (if nonzero (xattr_len iinfo) &&
                 negb (xattr_len iinfo =? i_xattr_len ci)
              then kmalloc else mret false);
  ci ← (if (in_version info >? 0) && (i_version ci =? in_version info)
        then mret ci
        else λ o, match fill_inode_update issued have_buf iinfo ci with
                  | Ret ci' => Ret (ci', o)
                  | Fault f => Fault f
                  end);
  tree ← fill_fragtree_splits (in_splits info) (i_fragtree ci);
  let ci := set_i_fragtree tree ci in
  ci ← match dirinfo with
       | None => mret ci
       | Some d =>
           r ← ceph_fill_dirfrag (i_fragtree ci) d;
           mret (set_i_fragtree r.2 ci)
       end;
  fill_inode_type mount_flags iinfo ci.

End fill_inode.

(** ** Sessions and leases *)

(** The part of struct ceph_mds_session the cache uses.  The two lists are
    the session's lease lists, head first; an inode is on the list under its
    vino, a dentry under its key. *)
Record ceph_mds_session : Type := {
  s_cap_gen : Z;
  s_cap_ttl : Z;
  s_inode_leases : list ceph_vino;
  s_dentry_leases : list Z
}.

Definition set_s_inode_leases (v : list ceph_vino) (x : ceph_mds_session)
  : ceph_mds_session :=
  {| s_cap_gen := s_cap_gen x; s_cap_ttl := s_cap_ttl x;
     s_inode_leases := v; s_dentry_leases := s_dentry_leases x |}.
Definition set_s_dentry_leases (v : list Z) (x : ceph_mds_session)
  : ceph_mds_session :=
  {| s_cap_gen := s_cap_gen x; s_cap_ttl := s_cap_ttl x;
     s_inode_leases := s_inode_leases x; s_dentry_leases := v |}.

(** Sessions are shared between the inodes and dentries that point to
    them: they live in a table, and a pointer is a key of the table. *)
Definition session_at (sessions : gmap Z ceph_mds_session) (p : Z)
  : kres ceph_mds_session :=
  match sessions !! p with
  | Some s => Ret s
  | None => Fault NullDeref
  end.

(** list_move_tail and list_add of linux/list.h, on a list that holds each
    item at most once. *)
Definition list_move_tail {A : Type} `{EqDecision A} (x : A) (l : list A) : list A :=
  filter (λ y, y ≠ x) l ++ [x].
Definition list_add {A : Type} (x : A) (l : list A) : list A := x :: l.

Section leases.
Context `{headers}.

(** [from_time + (duration * HZ) / 1000] in unsigned long. *)
Definition lease_ttl (lease : ceph_mds_reply_lease) (from_time : Z) : Z :=
  u64 (from_time + u64 (duration_ms lease * HZ) / 1000).

(** update_inode_lease: the mask it returns, the inode and the session
    table.  [session] is the key of the session the reply came from. *)
Definition update_inode_lease (ci : ceph_inode_info)
    (sessions : gmap Z ceph_mds_session) (lease : ceph_mds_reply_lease)
    (session from_time : Z)
  : kres (Z * ceph_inode_info * gmap Z ceph_mds_session) :=
  let mask := lease_mask lease in
  let ttl := lease_ttl lease from_time in
  if mask =? 0 then Ret (0, ci, sessions)
  else
    newer ← (if (i_lease_ttl ci =? 0) || negb (time_before ttl (i_lease_ttl ci))
             then Ret true
             else s ← session_at sessions session;
                  Ret (negb (i_lease_gen ci =? s_cap_gen s)));
    let ours := match i_lease_session ci with
                | None => true
                | Some p => p =? session
                end in
    if (newer : bool) && ours then
      s ← session_at sessions session;
      let is_new := bool_decide (i_lease_session ci = None) in
      let ci := set_i_lease_mask mask
                  (set_i_lease_gen (s_cap_gen s) (set_i_lease_ttl ttl ci)) in
      let ci := if is_new then set_i_lease_session (Some session) ci else ci in
      let sessions :=
        <[session := set_s_inode_leases
                       (list_move_tail (i_vino ci) (s_inode_leases s)) s]> sessions in
      (* igrab(inode) *)
      let ci := if is_new
                then upd_inode (λ i, set_i_count (i_count i + 1) i) ci else ci in
      Ret (mask, ci, sessions)
    else Ret (0, ci, sessions).

(** ceph_inode_lease_valid at time [jiffies]; [issued] is what
    __ceph_caps_issued(ci, NULL) returns. *)
Definition lease_havemask (issued : Z) (ci : ceph_inode_info) (mask : Z) : Z :=
  let havemask := i_lease_mask ci in
  let havemask :=
    if nonzero (Z.land mask CEPH_LOCK_ICONTENT) &&
       nonzero (Z.land issued CEPH_CAP_EXCL)
    then Z.lor havemask CEPH_LOCK_ICONTENT else havemask in
  if nonzero (Z.land havemask CEPH_LOCK_ICONTENT)
  then Z.lor havemask CEPH_LOCK_ICONTENT else havemask.

Definition ceph_inode_lease_valid (sessions : gmap Z ceph_mds_session)
    (jiffies issued : Z) (ci : ceph_inode_info) (mask : Z) : kres bool :=
  let havemask := lease_havemask issued ci mask in
  valid ← match i_lease_session ci with
          | None => Ret false
          | Some p =>
              s ← session_at sessions p;
              Ret ((s_cap_gen s =? i_lease_gen ci) &&
                   time_before jiffies (s_cap_ttl s) &&
                   time_before jiffies (i_lease_ttl ci))
          end;
  Ret ((valid : bool) && (Z.land havemask mask =? mask)).

(** *** Dentry leases *)

(** struct ceph_dentry_info, hung off d_fsdata. *)
Record ceph_dentry_info : Type := {
  lease_session : Z;
  lease_gen : Z
}.

(** The fields of the host's struct dentry that the lease code uses;
    [d_key] names the dentry on a session's list. *)
Record dentry : Type := {
  d_key : Z;
  d_time : Z;
  d_fsdata : option ceph_dentry_info;
  d_count : Z
}.

Definition set_d_time (v : Z) (x : dentry) : dentry :=
  {| d_key := d_key x; d_time := v; d_fsdata := d_fsdata x; d_count := d_count x |}.
Definition set_d_fsdata (v : option ceph_dentry_info) (x : dentry) : dentry :=
  {| d_key := d_key x; d_time := d_time x; d_fsdata := v; d_count := d_count x |}.
Definition set_d_count (v : Z) (x : dentry) : dentry :=
  {| d_key := d_key x; d_time := d_time x; d_fsdata := d_fsdata x; d_count := v |}.

(** update_dentry_lease; [dir_version] is the i_version of the inode of
    the parent directory. *)
Definition update_dentry_lease (dn : dentry) (dir_version : Z)
    (sessions : gmap Z ceph_mds_session) (lease : ceph_mds_reply_lease)
    (session from_time : Z)
  : list bool → kres (dentry * gmap Z ceph_mds_session * list bool) :=
  λ o,
  let ttl := lease_ttl lease from_time in
  if lease_mask lease =? 0 then Ret (set_d_time (u64 dir_version) dn, sessions, o)
  else
    newer ← match d_fsdata dn with
            | Some di =>
                if negb (d_time dn =? 0) then
                  s ← session_at sessions session;
                  Ret ((lease_gen di =? s_cap_gen s) && time_before ttl (d_time dn))
                else Ret false
            | None => Ret false
            end;
    if newer : bool then Ret (dn, sessions, o)
    else
      match d_fsdata dn with
      | None =>
          match kmalloc o with
          | Ret (true, o') =>
              s ← session_at sessions session;
              let di := {| lease_session := session; lease_gen := s_cap_gen s |} in
              let sessions :=
                <[session := set_s_dentry_leases
                               (list_add (d_key dn) (s_dentry_leases s)) s]> sessions in
              (* dget(dentry) *)
              Ret (set_d_count (d_count dn + 1)
                     (set_d_time ttl (set_d_fsdata (Some di) dn)), sessions, o')
          | Ret (false, o') => Ret (dn, sessions, o')
          | Fault f => Fault f
          end
      | Some di =>
          if negb (lease_session di =? session) then Ret (dn, sessions, o)
          else
            s ← session_at sessions session;
            let sessions :=
              <[session := set_s_dentry_leases
                             (list_move_tail (d_key dn) (s_dentry_leases s)) s]> sessions in
            Ret (set_d_time ttl dn, sessions, o)
      end.

Definition ceph_dentry_lease_valid (sessions : gmap Z ceph_mds_session)
    (jiffies : Z) (dn : dentry) : kres bool :=
  match d_fsdata dn with
  | None => Ret false
  | Some di =>
      s ← session_at sessions (lease_session di);
      Ret ((lease_gen di =? s_cap_gen s) &&
           time_before jiffies (d_time dn) &&
           time_before jiffies (s_cap_ttl s))
  end.

End leases.

(** ** Collaborators

    The host VFS and the MDS client are outside the cache.  What the cache
    asks of them is recorded as a list of calls; what they answer, and what
    they do to the inode meanwhile, comes from the [host]. *)

Inductive mds_op : Type :=
  | CEPH_MDS_OP_CHOWN
  | CEPH_MDS_OP_LCHMOD
  | CEPH_MDS_OP_LUTIME
  | CEPH_MDS_OP_LTRUNCATE
  | CEPH_MDS_OP_LSETXATTR
  | CEPH_MDS_OP_LRMXATTR.

(** A request as handed to ceph_mdsc_do_request: the operation and the
    arguments written into its head. *)
Inductive mds_request : Type :=
  | ReqChown (uid gid mask : Z)
  | ReqLchmod (mode : Z)
  | ReqLutime (mtime atime : timespec) (mask : Z)
  | ReqLtruncate (length : Z)
  | ReqLsetxattr (name : string) (flags : Z) (nr_pages data_len : Z)
  | ReqLrmxattr (name : string).

Inductive call : Type :=
  | CheckCaps                                  (* ceph_check_caps(ci, 0) *)
  | TruncatePages (to : Z)                     (* truncate_inode_pages *)
  | LeaseRelease (mask : Z)                    (* ceph_mdsc_lease_release *)
  | DoRequest (req : mds_request)              (* ceph_mdsc_do_request *)
  | DoLookup (mask : Z) (on_inode : bool).     (* ceph_do_lookup *)

Record lookup_result : Type := {
  lk_err : Z;                 (* nonzero: the error in the ERR_PTR *)
  lk_negative : bool;         (* the dentry it leaves has no inode *)
  lk_inode : ceph_inode_info  (* the inode after the reply was taken in *)
}.

Class host : Type := {
  (* vmtruncate(inode, size): its result and the inode it leaves *)
  vmtruncate : inode → Z → Z * inode;
  (* inode_change_ok(inode, attr) *)
  inode_change_ok : Z;
  (* ceph_build_path: 0, or the error in the ERR_PTR *)
  build_path : Z;
  (* ceph_mdsc_create_request: 0, or the error in the ERR_PTR *)
  create_request : mds_op → Z;
  (* ceph_mdsc_do_request: its result and the inode once the reply is in *)
  do_request : mds_request → ceph_inode_info → Z * ceph_inode_info;
  (* ceph_do_lookup(sb, dentry, mask, on_inode, 0) *)
  do_lookup : Z → bool → ceph_inode_info → lookup_result;
  (* d_unhashed(dentry) and ceph_get_cap_mds(inode) *)
  d_unhashed : bool;
  get_cap_mds : Z;
  (* CURRENT_TIME *)
  current_time : timespec;
  (* PAGE_CACHE_SIZE *)
  PAGE_CACHE_SIZE : Z
}.

(** struct iattr *)
Record iattr : Type := {
  ia_valid : Z;
  ia_mode : Z;
  ia_uid : Z;
  ia_gid : Z;
  ia_size : Z;
  ia_atime : timespec;
  ia_mtime : timespec;
  ia_ctime : timespec
}.

(** More constants of ceph_fs.h, used when requests are built. *)
Class request_constants : Type := {
  CEPH_LOCK_IAUTH : Z;
  CEPH_LOCK_IXATTR : Z;
  CEPH_CHOWN_UID : Z;
  CEPH_CHOWN_GID : Z;
  CEPH_UTIME_ATIME : Z;
  CEPH_UTIME_MTIME : Z
}.

#[global] Instance sample_request_constants : request_constants := {|
  CEPH_LOCK_IAUTH := 8;
  CEPH_LOCK_IXATTR := 128;
  CEPH_CHOWN_UID := 1;
  CEPH_CHOWN_GID := 2;
  CEPH_UTIME_ATIME := 2;
  CEPH_UTIME_MTIME := 1
|}.

(** ** Size, open modes and pending truncation *)

Section size.
Context `{headers}.

(** [(size + (1 << 9) - 1) >> 9] on a loff_t: signed, wrapping at 64 bits
    as the kernel is compiled, stored in the unsigned i_blocks. *)
Definition loff_to_blocks (size : Z) : Z :=
  u64 (Z.shiftr (s64 (s64 size + Z.shiftl 1 9 - 1)) 9).

Definition ceph_inode_set_size (ci : ceph_inode_info) (size : Z)
  : ceph_inode_info * list call :=
  let ci := upd_inode (λ i, set_i_blocks (loff_to_blocks size)
                              (set_i_size (u64 size) i)) ci in
  if (u64 (Z.shiftl size 1) >=? i_max_size ci) &&
     (u64 (Z.shiftl (i_reported_size ci) 1) <? i_max_size ci)
  then (ci, [CheckCaps])
  else (ci, []).

(** ceph_put_fmode; an [fmode] outside the counter array has no meaning. *)
Definition ceph_put_fmode (ci : ceph_inode_info) (fmode : Z)
  : kres (ceph_inode_info * list call) :=
  match (if fmode <? 0 then None else i_nr_by_mode ci !! Z.to_nat fmode) with
  | None => Fault Undefined
  | Some n =>
      let n' := s32 (n - 1) in
      let ci := set_i_nr_by_mode (<[Z.to_nat fmode := n']> (i_nr_by_mode ci)) ci in
      if (n' =? 0) && (snap (i_vino ci) =? CEPH_NOSNAP)
      then Ret (ci, [CheckCaps])
      else Ret (ci, [])
  end.

Definition __ceph_do_pending_vmtruncate (ci : ceph_inode_info)
  : ceph_inode_info * list call :=
  let to := i_vmtruncate_to ci in
  let wrbuffer_refs := i_wrbuffer_ref ci in
  let ci := set_i_vmtruncate_to (-1) ci in
  if to >=? 0 then
    (ci, TruncatePages to :: (if wrbuffer_refs =? 0 then [CheckCaps] else []))
  else (ci, []).

End size.

(** ** setattr and getattr *)

Section setattr.
Context `{headers} `{request_constants} `{host}.

(** prepare_setattr: 0 for a request, otherwise the error in the ERR_PTR. *)
Definition prepare_setattr (ia_valid_ : Z) (op : mds_op) : Z :=
  if nonzero (Z.land ia_valid_ ATTR_FILE) then create_request op
  else if nonzero build_path then build_path
  else create_request op.

Definition ceph_setattr_chown (ci : ceph_inode_info) (attr : iattr)
  : Z * ceph_inode_info * list call :=
  let err := prepare_setattr (ia_valid attr) CEPH_MDS_OP_CHOWN in
  if nonzero err then (err, ci, [])
  else
    let mask := if nonzero (Z.land (ia_valid attr) ATTR_UID) then CEPH_CHOWN_UID else 0 in
    let mask := if nonzero (Z.land (ia_valid attr) ATTR_GID)
                then Z.lor mask CEPH_CHOWN_GID else mask in
    let req := ReqChown (if nonzero (Z.land (ia_valid attr) ATTR_UID) then ia_uid attr else 0)
                        (if nonzero (Z.land (ia_valid attr) ATTR_GID) then ia_gid attr else 0)
                        mask in
    let r := do_request req ci in
    (r.1, r.2, [LeaseRelease CEPH_LOCK_IAUTH; DoRequest req]).

Definition ceph_setattr_chmod (ci : ceph_inode_info) (attr : iattr)
  : Z * ceph_inode_info * list call :=
  let err := prepare_setattr (ia_valid attr) CEPH_MDS_OP_LCHMOD in
  if nonzero err then (err, ci, [])
  else
    let req := ReqLchmod (ia_mode attr) in
    let r := do_request req ci in
    (r.1, r.2, [LeaseRelease CEPH_LOCK_IAUTH; DoRequest req]).

Definition set_times (attr : iattr) (i : inode) : inode :=
  let i := if nonzero (Z.land (ia_valid attr) ATTR_ATIME)
           then set_i_atime (ia_atime attr) i else i in
  let i := if nonzero (Z.land (ia_valid attr) ATTR_MTIME)
           then set_i_mtime (ia_mtime attr) i else i in
  set_i_ctime current_time i.

(** [issued] is what ceph_caps_issued(ci) returns. *)
Definition ceph_setattr_time (sessions : gmap Z ceph_mds_session)
    (jiffies issued : Z) (ci : ceph_inode_info) (attr : iattr)
  : kres (Z * ceph_inode_info * list call) :=
  let valid := ia_valid attr in
  let vi := vfs_inode ci in
  if nonzero (Z.land issued CEPH_CAP_EXCL) then
    Ret (0, upd_inode (set_times attr)
              (set_i_time_warp_seq (u64 (i_time_warp_seq ci + 1)) ci), [])
  else if nonzero (Z.land issued CEPH_CAP_WR) &&
          ((Z.land valid ATTR_MTIME =? 0) ||
           (timespec_compare (i_mtime vi) (ia_mtime attr) <? 0)) &&
          ((Z.land valid ATTR_ATIME =? 0) ||
           (timespec_compare (i_atime vi) (ia_atime attr) <? 0)) then
    Ret (0, upd_inode (set_times attr) ci, [])
  else
    leased ← ceph_inode_lease_valid sessions jiffies issued ci CEPH_LOCK_ICONTENT;
    if (leased : bool) &&
       negb ((nonzero (Z.land valid ATTR_ATIME) &&
              negb (timespec_equal (i_atime vi) (ia_atime attr))) ||
             (nonzero (Z.land valid ATTR_MTIME) &&
              negb (timespec_equal (i_mtime vi) (ia_mtime attr))))
    then Ret (0, ci, [])
    else
      let err := prepare_setattr valid CEPH_MDS_OP_LUTIME in
      if nonzero err then Ret (err, ci, [])
      else
        let mask := if nonzero (Z.land valid ATTR_ATIME) then CEPH_UTIME_ATIME else 0 in
        let mask := if nonzero (Z.land valid ATTR_MTIME)
                    then Z.lor mask CEPH_UTIME_MTIME else mask in
        let req := ReqLutime (ia_mtime attr) (ia_atime attr) mask in
        let r := do_request req ci in
        Ret (r.1, r.2, [LeaseRelease CEPH_LOCK_ICONTENT; DoRequest req]).

Definition ceph_setattr_size (sessions : gmap Z ceph_mds_session)
    (jiffies issued : Z) (ci : ceph_inode_info) (attr : iattr)
  : kres (Z * ceph_inode_info * list call) :=
  if nonzero (Z.land issued CEPH_CAP_EXCL) &&
     (s64 (ia_size attr) >? s64 (i_size (vfs_inode ci))) then
    let r := vmtruncate (vfs_inode ci) (ia_size attr) in
    if nonzero r.1 then Ret (r.1, set_vfs_inode r.2 ci, [])
    else
      let ci := set_vfs_inode r.2 ci in
      Ret (0, set_i_reported_size (ia_size attr)
                (upd_inode (λ i, set_i_ctime (ia_ctime attr)
                                   (set_i_size (ia_size attr) i)) ci), [])
  else
    leased ← ceph_inode_lease_valid sessions jiffies issued ci CEPH_LOCK_ICONTENT;
    if (leased : bool) && (ia_size attr =? i_size (vfs_inode ci))
    then Ret (0, ci, [])
    else
      let err := prepare_setattr (ia_valid attr) CEPH_MDS_OP_LTRUNCATE in
      if nonzero err then Ret (err, ci, [])
      else
        let req := ReqLtruncate (ia_size attr) in
        let r := do_request req ci in
        let t := __ceph_do_pending_vmtruncate r.2 in
        Ret (r.1, t.1, [LeaseRelease CEPH_LOCK_ICONTENT; DoRequest req] ++ t.2).

(** ceph_setattr: each kind of attribute is handled in turn and the result
    of the last one handled is the one returned. *)
Definition ceph_setattr (sessions : gmap Z ceph_mds_session)
    (jiffies issued : Z) (ci : ceph_inode_info) (attr : iattr)
  : kres (Z * ceph_inode_info * list call) :=
  if negb (snap (i_vino ci) =? CEPH_NOSNAP) then Ret (- EROFS, ci, [])
  else
    let t := __ceph_do_pending_vmtruncate ci in
    let ci := t.1 in
    let calls := t.2 in
    if nonzero inode_change_ok then Ret (inode_change_ok, ci, calls)
    else
      let valid := ia_valid attr in
      let '(err, ci, calls) :=
        if nonzero (Z.land valid (Z.lor ATTR_UID ATTR_GID)) then
          let r := ceph_setattr_chown ci attr in (r.1.1, r.1.2, calls ++ r.2)
        else (0, ci, calls) in
      let '(err, ci, calls) :=
        if nonzero (Z.land valid ATTR_MODE) then
          let r := ceph_setattr_chmod ci attr in (r.1.1, r.1.2, calls ++ r.2)
        else (err, ci, calls) in
      r ← (if nonzero (Z.land valid (Z.lor ATTR_ATIME ATTR_MTIME)) then
             r ← ceph_setattr_time sessions jiffies issued ci attr;
             Ret (r.1.1, r.1.2, calls ++ r.2)
           else Ret (err, ci, calls));
      let '(err, ci, calls) := r in
      if nonzero (Z.land valid ATTR_SIZE) then
        r ← ceph_setattr_size sessions jiffies issued ci attr;
        Ret (r.1.1, r.1.2, calls ++ r.2)
      else Ret (err, ci, calls).

(** ceph_do_getattr: its result, the inode afterwards and the calls made. *)
Definition ceph_do_getattr (sessions : gmap Z ceph_mds_session)
    (jiffies issued : Z) (ci : ceph_inode_info) (mask : Z)
  : kres (Z * ceph_inode_info * list call) :=
  if snap (i_vino ci) =? CEPH_SNAPDIR then Ret (0, ci, [])
  else
    leased ← ceph_inode_lease_valid sessions jiffies issued ci mask;
    if leased : bool then Ret (0, ci, [])
    else
      let on_inode := d_unhashed && (get_cap_mds >=? 0) in
      let r := do_lookup mask on_inode ci in
      let calls := [DoLookup mask on_inode] in
      if nonzero (lk_err r) then Ret (lk_err r, lk_inode r, calls)
      else if lk_negative r then Ret (- ENOENT, lk_inode r, calls)
      else Ret (0, lk_inode r, calls).

(** struct kstat, as generic_fillattr and ceph_getattr fill it. *)
Record kstat : Type := {
  st_dev : Z;
  st_ino : Z;
  st_mode : Z;
  st_nlink : Z;
  st_uid : Z;
  st_gid : Z;
  st_rdev : Z;
  st_size : Z;
  st_atime : timespec;
  st_mtime : timespec;
  st_ctime : timespec;
  st_blocks : Z
}.

Definition ceph_getattr (sessions : gmap Z ceph_mds_session)
    (jiffies issued : Z) (ci : ceph_inode_info)
  : kres (Z * option kstat * ceph_inode_info * list call) :=
  r ← ceph_do_getattr sessions jiffies issued ci CEPH_STAT_MASK_INODE_ALL;
  let '(err, ci, calls) := r in
  if nonzero err then Ret (err, None, ci, calls)
  else
    let i := vfs_inode ci in
    Ret (0, Some {| st_dev := if negb (snap (i_vino ci) =? CEPH_NOSNAP)
                              then snap (i_vino ci) else 0;
                    st_ino := ino (i_vino ci);
                    st_mode := i_mode i; st_nlink := i_nlink i;
                    st_uid := i_uid i; st_gid := i_gid i; st_rdev := i_rdev i;
                    st_size := i_size i;
                    st_atime := i_atime i; st_mtime := i_mtime i;
                    st_ctime := i_ctime i; st_blocks := i_blocks i |},
         ci, calls).

End setattr.

(** ** Extended attributes *)

(** snprintf(val, size, fmt, ...) once the text is formatted: the length
    the whole text would need, and what lands in the buffer, which is
    nothing for a size of zero and otherwise at most [size - 1] characters
    and a NUL. *)
Definition snprintf (size : Z) (text : string) : Z * option (list byte) :=
  (Z.of_nat (String.length text),
   if size =? 0 then None
   else Some (take (Z.to_nat (size - 1)) (list_byte_of_string text) ++ [Byte.x00])).

(** "%lld" and "%ld" of a 64-bit value. *)
Definition fmt_lld (x : Z) : string := pretty (s64 x).

Definition _ceph_vir_xattrcb_entries (ci : ceph_inode_info) (size : Z) :=
  snprintf size (fmt_lld (i_files ci + i_subdirs ci)).
Definition _ceph_vir_xattrcb_files (ci : ceph_inode_info) (size : Z) :=
  snprintf size (fmt_lld (i_files ci)).
Definition _ceph_vir_xattrcb_subdirs (ci : ceph_inode_info) (size : Z) :=
  snprintf size (fmt_lld (i_subdirs ci)).
Definition _ceph_vir_xattrcb_rentries (ci : ceph_inode_info) (size : Z) :=
  snprintf size (fmt_lld (i_rfiles ci + i_rsubdirs ci)).
Definition _ceph_vir_xattrcb_rfiles (ci : ceph_inode_info) (size : Z) :=
  snprintf size (fmt_lld (i_rfiles ci)).
Definition _ceph_vir_xattrcb_rsubdirs (ci : ceph_inode_info) (size : Z) :=
  snprintf size (fmt_lld (i_subdirs ci)).
Definition _ceph_vir_xattrcb_rbytes (ci : ceph_inode_info) (size : Z) :=
  snprintf size (fmt_lld (i_rbytes ci)).
Definition _ceph_vir_xattrcb_rctime (ci : ceph_inode_info) (size : Z) :=
  snprintf size (fmt_lld (tv_sec (i_rctime ci)) +:+ "." +:+
                 fmt_lld (tv_nsec (i_rctime ci))).

Record _ceph_vir_xattr_cb : Type := {
  vx_name : string;
  getxattr_cb : ceph_inode_info → Z → Z * option (list byte)
}.

Definition _ceph_vir_xattr_recs : list _ceph_vir_xattr_cb := [
  {| vx_name := "user.ceph.dir.entries"; getxattr_cb := _ceph_vir_xattrcb_entries |};
  {| vx_name := "user.ceph.dir.files"; getxattr_cb := _ceph_vir_xattrcb_files |};
  {| vx_name := "user.ceph.dir.subdirs"; getxattr_cb := _ceph_vir_xattrcb_subdirs |};
  {| vx_name := "user.ceph.dir.rentries"; getxattr_cb := _ceph_vir_xattrcb_rentries |};
  {| vx_name := "user.ceph.dir.rfiles"; getxattr_cb := _ceph_vir_xattrcb_rfiles |};
  {| vx_name := "user.ceph.dir.rsubdirs"; getxattr_cb := _ceph_vir_xattrcb_rsubdirs |};
  {| vx_name := "user.ceph.dir.rbytes"; getxattr_cb := _ceph_vir_xattrcb_rbytes |};
  {| vx_name := "user.ceph.dir.rctime"; getxattr_cb := _ceph_vir_xattrcb_rctime |}
].

Fixpoint match_vir_xattr (recs : list _ceph_vir_xattr_cb) (name : string)
  : option _ceph_vir_xattr_cb :=
  match recs with
  | [] => None
  | r :: recs' =>
      if String.eqb (vx_name r) name then Some r else match_vir_xattr recs' name
  end.

Definition _ceph_match_vir_xattr (name : string) : option _ceph_vir_xattr_cb :=
  match_vir_xattr _ceph_vir_xattr_recs name.

(** Modelled from the spec: ceph_decode_32_safe and ceph_decode_32 are
    macros of decode.h, which is not part of the sources.  The safe form
    fails when fewer than four bytes are left before [end_]; both read a
    little-endian 32-bit integer at [p] and step over it. *)
Definition bytes_at (mem : list byte) (p n : Z) : list byte :=
  take (Z.to_nat n) (drop (Z.to_nat p) mem).

Definition ceph_decode_32 (mem : list byte) (p : Z) : Z * Z :=
  (le_combine (bytes_at mem p 4), p + 4).

Definition ceph_decode_32_safe (mem : list byte) (p end_ : Z) : option (Z * Z) :=
  if p + 4 >? end_ then None else Some (ceph_decode_32 mem p).

(** memcpy(value, p, len) out of the blob: [len] bytes are read from [p]
    on, whether or not they lie before [end_]; a read that leaves the blob
    or the bytes the inode holds has no meaning. *)
Definition copy_from_blob (mem : list byte) (p len end_ : Z) : kres (list byte) :=
  if (p + len <=? end_) && (p + len <=? Z.of_nat (length mem))
  then Ret (bytes_at mem p len)
  else Fault Undefined.

(** The loop of ceph_getxattr over the attributes of the blob, [numattr]
    of them still announced: the result, and the bytes copied to the
    caller if any. *)
Fixpoint getxattr_scan (numattr : nat) (mem : list byte) (p end_ : Z)
    (name : string) (size : Z) : kres (Z * option (list byte)) :=
  match numattr with
  | O => Ret (- ENODATA, None)
  | S numattr' =>
      match ceph_decode_32_safe mem p end_ with
      | None => Ret (- EIO, None)
      | Some (len, p) =>
          let hit := (len =? u32 (Z.of_nat (String.length name))) &&
                     bool_decide (bytes_at mem p len = list_byte_of_string name) in
          let p := p + len in
          match ceph_decode_32_safe mem p end_ with
          | None => Ret (- EIO, None)
          | Some (len, p) =>
              if hit then
                if nonzero size && (size <? len) then Ret (- ERANGE, None)
                else if size =? 0 then Ret (s32 len, None)
                else
                  v ← copy_from_blob mem p len end_;
                  Ret (s32 len, Some v)
              else getxattr_scan numattr' mem (p + len) end_ name size
          end
      end
  end.

(** The two passes of ceph_listxattr over the blob: the first adds up the
    lengths of the names, the second copies them out. *)
Fixpoint listxattr_measure (numattr : nat) (mem : list byte) (p end_ : Z)
    (namelen : Z) : option Z :=
  match numattr with
  | O => Some namelen
  | S numattr' =>
      match ceph_decode_32_safe mem p end_ with
      | None => None
      | Some (len, p) =>
          let namelen := s32 (namelen + len + 1) in
          match ceph_decode_32_safe mem (p + len) end_ with
          | None => None
          | Some (len, p) => listxattr_measure numattr' mem (p + len) end_ namelen
          end
      end
  end.

Fixpoint listxattr_copy (numattr : nat) (mem : list byte) (p : Z) : list byte :=
  match numattr with
  | O => []
  | S numattr' =>
      let '(len, p) := ceph_decode_32 mem p in
      let name := bytes_at mem p len in
      let '(vlen, p) := ceph_decode_32 mem (p + len) in
      name ++ [Byte.x00] ++ listxattr_copy numattr' mem (p + vlen)
  end.

(** The names of the virtual attributes as ceph_listxattr writes them. *)
Definition vir_xattr_names : list byte :=
  concat (map (λ r, list_byte_of_string (vx_name r) ++ [Byte.x00])
              _ceph_vir_xattr_recs).

Definition vir_xattr_names_len : Z :=
  fold_right (λ r n, Z.of_nat (String.length (vx_name r)) + 1 + n) 0
             _ceph_vir_xattr_recs.

(** calc_pages_for(0, size): the pages a value of [size] bytes takes. *)
Definition calc_pages_for `{host} (size : Z) : Z :=
  (size + PAGE_CACHE_SIZE - 1) / PAGE_CACHE_SIZE.

(** The loop of ceph_setxattr that allocates the pages: how many it got
    before an allocation failed, if one did. *)
Fixpoint alloc_pages (n : nat) : kst bool :=
  match n with
  | O => mret true
  | S n' =>
      ok ← kmalloc;
      if ok : bool then alloc_pages n' else mret false
  end.

Section xattr.
Context `{headers} `{request_constants} `{host}.

(** The result, the bytes that went to the caller's buffer, the inode and
    the calls to the collaborators. *)
Definition ceph_getxattr (sessions : gmap Z ceph_mds_session)
    (jiffies issued : Z) (ci : ceph_inode_info) (name : string) (size : Z)
  : kres (Z * option (list byte) * ceph_inode_info * list call) :=
  match _ceph_match_vir_xattr name with
  | Some vir_xattr =>
      let r := getxattr_cb vir_xattr ci size in
      Ret (r.1, r.2, ci, [])
  | None =>
      r ← ceph_do_getattr sessions jiffies issued ci CEPH_STAT_MASK_XATTR;
      let '(err, ci, calls) := r in
      if nonzero err then Ret (err, None, ci, calls)
      else if i_xattr_len ci =? 0 then Ret (- ENODATA, None, ci, calls)
      else
        let mem := i_xattr_data ci in
        let end_ := i_xattr_len ci in
        match ceph_decode_32_safe mem 0 end_ with
        | None => Ret (- EIO, None, ci, calls)
        | Some (numattr, p) =>
            r ← getxattr_scan (Z.to_nat numattr) mem p end_ name size;
            Ret (r.1, r.2, ci, calls)
        end
  end.

Definition ceph_listxattr (sessions : gmap Z ceph_mds_session)
    (jiffies issued : Z) (ci : ceph_inode_info) (size : Z)
  : kres (Z * option (list byte) * ceph_inode_info * list call) :=
  r ← ceph_do_getattr sessions jiffies issued ci CEPH_STAT_MASK_XATTR;
  let '(err, ci, calls) := r in
  if nonzero err then Ret (err, None, ci, calls)
  else
    let mem := i_xattr_data ci in
    let end_ := i_xattr_len ci in
    let is_dir := Z.land (i_mode (vfs_inode ci)) S_IFMT =? S_IFDIR in
    let measured :=
      if nonzero (i_xattr_len ci) then
        match ceph_decode_32_safe mem 0 end_ with
        | None => None
        | Some (numattr, p) => listxattr_measure (Z.to_nat numattr) mem p end_ 0
        end
      else Some 0 in
    match measured with
    | None => Ret (- EIO, None, ci, calls)
    | Some namelen =>
        let namelen := if is_dir then s32 (namelen + vir_xattr_names_len) else namelen in
        if nonzero size && (u64 namelen >? size) then Ret (- ERANGE, None, ci, calls)
        else if size =? 0 then Ret (namelen, None, ci, calls)
        else
          let real :=
            if nonzero (i_xattr_len ci) then
              let '(numattr, p) := ceph_decode_32 mem 0 in
              Some (listxattr_copy (Z.to_nat numattr) mem p)
            else None in
          let out :=
            match real with
            | Some names => names ++ (if is_dir then vir_xattr_names else [])
            | None =>
                (* names[0] = 0, and the pointer stays where it is *)
                if is_dir then vir_xattr_names else [Byte.x00]
            end in
          Ret (namelen, Some out, ci, calls)
    end.

Definition ceph_setxattr (ci : ceph_inode_info) (name : string) (size flags : Z)
  : kst (Z * ceph_inode_info * list call) :=
  if negb (snap (i_vino ci) =? CEPH_NOSNAP) then mret (- EROFS, ci, [])
  else if negb (String.prefix "user." name) then mret (- EOPNOTSUPP, ci, [])
  else if bool_decide (is_Some (_ceph_match_vir_xattr name))
       then mret (- EOPNOTSUPP, ci, [])
  else
    let nr_pages := calc_pages_for size in
    pages_ok ← (if nonzero nr_pages then
                  ok ← kmalloc;
                  if ok : bool then alloc_pages (Z.to_nat nr_pages) else mret false
                else mret true);
    if negb pages_ok then mret (- ENOMEM, ci, [])
    else if nonzero build_path then mret (build_path, ci, [])
    else if nonzero (create_request CEPH_MDS_OP_LSETXATTR)
         then mret (create_request CEPH_MDS_OP_LSETXATTR, ci, [])
    else
      let req := ReqLsetxattr name flags nr_pages size in
      let r := do_request req ci in
      mret (r.1, r.2, [LeaseRelease CEPH_LOCK_IXATTR; DoRequest req]).

Definition ceph_removexattr (ci : ceph_inode_info) (name : string)
  : Z * ceph_inode_info * list call :=
  if negb (snap (i_vino ci) =? CEPH_NOSNAP) then (- EROFS, ci, [])
  else if negb (String.prefix "user." name) then (- EOPNOTSUPP, ci, [])
  else if bool_decide (is_Some (_ceph_match_vir_xattr name)) then (- EOPNOTSUPP, ci, [])
  else if nonzero build_path then (build_path, ci, [])
  else if nonzero (create_request CEPH_MDS_OP_LRMXATTR)
       then (create_request CEPH_MDS_OP_LRMXATTR, ci, [])
  else
    let req := ReqLrmxattr name in
    let r := do_request req ci in
    (r.1, r.2, [LeaseRelease CEPH_LOCK_IXATTR; DoRequest req]).

End xattr.

(** ** Allocation of an inode *)

(** ceph_alloc_inode on the object [slab] that kmem_cache_alloc returned:
    the fields it sets, the others as the slab left them.  [None] is the
    null pointer of a failed allocation. *)
Definition ceph_alloc_inode `{headers} (slab : ceph_inode_info)
  : kst (option ceph_inode_info) :=
  ok ← kmalloc;
  if ok : bool then
    mret (Some
      (set_i_vmtruncate_to (-1)
      (set_i_wrbuffer_ref 0
      (set_i_snap_caps 0
      (set_i_nr_by_mode (replicate (Z.to_nat CEPH_FILE_MODE_NUM) 0)
      (set_i_xattr_data []
      (set_i_xattr_len 0
      (set_i_fragtree ∅
      (set_i_lease_ttl 0
      (set_i_lease_mask 0
      (set_i_lease_session None
      (set_i_symlink None
      (set_i_time_warp_seq 0
      (set_i_truncate_seq 0
      (set_i_version 0 slab)))))))))))))))
  else mret None.

(** ** Sample objects, used to run the model *)

Definition zero_time : timespec := {| tv_sec := 0; tv_nsec := 0 |}.

Definition zero_inode : inode := {|
  i_mode := 0; i_uid := 0; i_gid := 0; i_nlink := 0; i_rdev := 0;
  i_size := 0; i_blocks := 0; i_blkbits := 0;
  i_atime := zero_time; i_mtime := zero_time; i_ctime := zero_time;
  i_count := 1; i_op := no_iops; i_fop := no_fops; vfs_i_version := 0
|}.

Definition zero_ci : ceph_inode_info := {|
  vfs_inode := zero_inode;
  i_vino := {| ino := 1; snap := 2 ^ 64 - 2 |};
  i_version := 0; i_truncate_seq := 0; i_time_warp_seq := 0;
  i_reported_size := 0; i_max_size := 0;
  i_layout := {| fl_stripe_unit := 0; fl_rest := [] |};
  i_xattr_len := 0; i_xattr_data := []; i_old_atime := zero_time;
  i_symlink := None; i_fragtree := ∅;
  i_files := 0; i_subdirs := 0; i_rbytes := 0; i_rfiles := 0; i_rsubdirs := 0;
  i_rctime := zero_time;
  i_lease_session := None; i_lease_gen := 0; i_lease_ttl := 0; i_lease_mask := 0;
  i_nr_by_mode := [0; 0; 0; 0]; i_snap_caps := 0;
  i_vmtruncate_to := -1; i_wrbuffer_ref := 0
|}.

(** A host that grows files as the vmtruncate of Linux does, answers every
    request with success and leaves the inode as it was. *)
#[global] Instance sample_host : host := {|
  vmtruncate := λ i size, (0, set_i_size size i);
  inode_change_ok := 0;
  build_path := 0;
  create_request := λ _, 0;
  do_request := λ _ ci, (0, ci);
  do_lookup := λ _ _ ci, {| lk_err := 0; lk_negative := false; lk_inode := ci |};
  d_unhashed := false;
  get_cap_mds := 0;
  current_time := {| tv_sec := 1000; tv_nsec := 0 |};
  PAGE_CACHE_SIZE := 4096
|}.

Definition zero_info : ceph_mds_reply_inode := {|
  in_ino := 1; in_snapid := 2 ^ 64 - 2; in_version := 0; in_mode := 0;
  in_uid := 0; in_gid := 0; in_nlink := 0; in_rdev := 0;
  in_layout := {| fl_stripe_unit := 0; fl_rest := [] |};
  in_truncate_seq := 0; in_time_warp_seq := 0; in_size := 0; in_max_size := 0;
  in_mtime := zero_time; in_atime := zero_time; in_ctime := zero_time;
  in_rctime := zero_time;
  in_files := 0; in_subdirs := 0; in_rfiles := 0; in_rsubdirs := 0; in_rbytes := 0;
  in_splits := []
|}.

(** ** The specification's side *)

(** The encoding of a list of attributes in an xattr blob: a 32-bit count,
    then for each attribute the length of its name, the name, the length of
    its value and the value. *)
Definition le32 (x : Z) : list byte := le_split 4 x.

Definition blen (b : list byte) : Z := Z.of_nat (length b).

Definition xattr_entry_head (e : list byte * list byte) : list byte :=
  le32 (blen e.1) ++ e.1 ++ le32 (blen e.2).

Definition xattr_entry_encode (e : list byte * list byte) : list byte :=
  xattr_entry_head e ++ e.2.

Definition xattr_entries_encode (l : list (list byte * list byte)) : list byte :=
  concat (map xattr_entry_encode l).

Definition xattr_encode (l : list (list byte * list byte)) : list byte :=
  le32 (Z.of_nat (length l)) ++ xattr_entries_encode l.

(** The value stored under a name: that of the first attribute with it. *)
Fixpoint xattr_lookup (name : list byte) (l : list (list byte * list byte))
  : option (list byte) :=
  match l with
  | [] => None
  | e :: l' => if bool_decide (e.1 = name) then Some e.2 else xattr_lookup name l'
  end.

(** A blob is malformed when it is the encoding of no list of attributes. *)
Definition xattr_malformed (blob : list byte) : Prop :=
  ∀ l, blob ≠ xattr_encode l.

(** The have-mask of ceph_inode_lease_valid in the words of the
    specification. *)
Definition spec_havemask `{headers} (issued lease_mask_ mask : Z) : Z :=
  let have :=
    if bool_decide (Z.land mask CEPH_LOCK_ICONTENT ≠ 0 ∧
                    Z.land issued CEPH_CAP_EXCL ≠ 0)
    then Z.lor lease_mask_ CEPH_LOCK_ICONTENT else lease_mask_ in
  if bool_decide (Z.land have CEPH_LOCK_ICONTENT ≠ 0)
  then Z.lor have CEPH_LOCK_ICONTENT else have.

(** The session of the lease is still active at [jiffies]. *)
Definition lease_session_active (sessions : gmap Z ceph_mds_session)
    (jiffies : Z) (ci : ceph_inode_info) : Prop :=
  ∃ p s, i_lease_session ci = Some p ∧ sessions !! p = Some s ∧
         s_cap_gen s = i_lease_gen ci ∧
         time_before jiffies (s_cap_ttl s) = true ∧
         time_before jiffies (i_lease_ttl ci) = true.

(** A node the fragment tree has a reason to hold: a split, or a leaf with
    delegation info. *)
Definition frag_needed (fr : ceph_inode_frag) : Prop :=
  0 < split_by fr ∨ 0 <= mds fr ∨ 0 < ndist fr.

Definition fragtree_needed (tree : gmap Z ceph_inode_frag) : Prop :=
  map_Forall (λ _ fr, frag_needed fr) tree.

Definition fragtree_split_signs (tree : gmap Z ceph_inode_frag) : Prop :=
  map_Forall (λ _ fr, 0 <= split_by fr) tree.

(** ceil(size / 512) *)
Definition ceil_blocks (size : Z) : Z := (size + 511) / 512.

(** The cached directory statistics. *)
Definition dir_stats (ci : ceph_inode_info) : list Z * timespec :=
  ([i_files ci; i_subdirs ci; i_rfiles ci; i_rsubdirs ci; i_rbytes ci], i_rctime ci).


Definition two_level_tree : gmap Z ceph_inode_frag :=
  {[ 0 := set_split_by 2 (new_frag 0);
     0x02000003 := set_split_by 1 (new_frag 0x02000003) ]}.


Definition quartered_tree : gmap Z ceph_inode_frag :=
  {[ 0 := set_split_by 1 (new_frag 0);
     0x01000000 := set_split_by 1 (new_frag 0x01000000) ]}.

(** The reply's size is the one to take: its truncate_seq is newer, or the
    same with a larger size. *)
Definition mds_size_wins (truncate_seq size : Z) (ci : ceph_inode_info) : Prop :=
  truncate_seq > i_truncate_seq ci ∨
  (truncate_seq = i_truncate_seq ci ∧ size > i_size (vfs_inode ci)).

#[global] Instance mds_size_wins_dec ts size ci : Decision (mds_size_wins ts size ci).
Proof. unfold mds_size_wins. apply _. Defined.

(** An inode of 1000 bytes at truncate_seq 3, and an inode whose
    time_warp_seq is the largest 64-bit number. *)
Definition ci_1000 : ceph_inode_info :=
  set_i_truncate_seq 3
    (upd_inode (λ i, set_i_blocks 2 (set_i_size 1000 i)) zero_ci).

Definition ci_last_warp : ceph_inode_info :=
  set_i_time_warp_seq (2 ^ 64 - 1) zero_ci.

Definition utimes_attr : iattr := {|
  ia_valid := 48; ia_mode := 0; ia_uid := 0; ia_gid := 0; ia_size := 0;
  ia_atime := {| tv_sec := 5; tv_nsec := 0 |};
  ia_mtime := {| tv_sec := 6; tv_nsec := 0 |};
  ia_ctime := zero_time
|}.

(** A request to grow the file to 1000 bytes. *)
Definition grow_attr : iattr := {|
  ia_valid := 8; ia_mode := 0; ia_uid := 0; ia_gid := 0; ia_size := 1000;
  ia_atime := zero_time; ia_mtime := zero_time;
  ia_ctime := {| tv_sec := 7; tv_nsec := 0 |}
|}.

(** A session at generation 8 whose caps last until 10000, and an inode
    that holds a lease from it taken at generation 7 and good until 5000. *)
Definition session_gen8 : ceph_mds_session :=
  {| s_cap_gen := 8; s_cap_ttl := 10000; s_inode_leases := []; s_dentry_leases := [] |}.

Definition ci_lease_gen7 : ceph_inode_info :=
  set_i_lease_mask 4
    (set_i_lease_ttl 5000 (set_i_lease_gen 7 (set_i_lease_session (Some 1) zero_ci))).

Definition sample_lease : ceph_mds_reply_lease :=
  {| lease_mask := 4; duration_ms := 10000 |}.

(** A reply for a regular file whose fragment tree lists the root as split
    by zero. *)
Definition info_split_by_zero : ceph_mds_reply_info_in := {|
  info_in := {|
    in_ino := 1; in_snapid := 2 ^ 64 - 2; in_version := 1; in_mode := 0x81a4;
    in_uid := 0; in_gid := 0; in_nlink := 1; in_rdev := 0;
    in_layout := {| fl_stripe_unit := 4096; fl_rest := [] |};
    in_truncate_seq := 0; in_time_warp_seq := 0; in_size := 0; in_max_size := 0;
    in_mtime := zero_time; in_atime := zero_time; in_ctime := zero_time;
    in_rctime := zero_time;
    in_files := 0; in_subdirs := 0; in_rfiles := 0; in_rsubdirs := 0;
    in_rbytes := 0;
    in_splits := [ {| fts_frag := 0; fts_by := 0 |} ]
  |};
  symlink_len := 0; symlink := []; xattr_len := 0; xattr_data := []
|}.

Definition sample_dirfrag : ceph_mds_reply_dirfrag :=
  {| df_frag := 0x02000003; df_auth := 1; df_ndist := 0; df_dist := [] |}.

Definition sample_splits : list ceph_frag_tree_split :=
  [ {| fts_frag := 0; fts_by := 2 |}; {| fts_frag := 0x02000003; fts_by := 1 |} ].

(** A directory at version 5 with no bytes in it, and a reply for it at
    the same version that reports 4096 recursive bytes. *)
Definition ci_dir_v5 : ceph_inode_info :=
  set_i_version 5 (upd_inode (set_i_mode 0x41ed) zero_ci).

Definition info_dir_v5 : ceph_mds_reply_info_in := {|
  info_in := {|
    in_ino := 1; in_snapid := 2 ^ 64 - 2; in_version := 5; in_mode := 0x41ed;
    in_uid := 0; in_gid := 0; in_nlink := 2; in_rdev := 0;
    in_layout := {| fl_stripe_unit := 4096; fl_rest := [] |};
    in_truncate_seq := 0; in_time_warp_seq := 0; in_size := 0; in_max_size := 0;
    in_mtime := zero_time; in_atime := zero_time; in_ctime := zero_time;
    in_rctime := zero_time;
    in_files := 3; in_subdirs := 1; in_rfiles := 3; in_rsubdirs := 1;
    in_rbytes := 4096;
    in_splits := sample_splits
  |};
  symlink_len := 0; symlink := []; xattr_len := 0; xattr_data := []
|}.

(** The attributes that a reply of the same version leaves alone. *)
Definition cached_attrs (ci : ceph_inode_info) :=
  (i_mode (vfs_inode ci), i_uid (vfs_inode ci), i_gid (vfs_inode ci),
   i_nlink (vfs_inode ci), i_rdev (vfs_inode ci), i_blocks (vfs_inode ci),
   i_atime (vfs_inode ci), i_mtime (vfs_inode ci), i_ctime (vfs_inode ci),
   i_max_size ci, i_layout ci, i_xattr_len ci, i_xattr_data ci, i_version ci,
   i_truncate_seq ci, i_time_warp_seq ci).

(** The fragment tree after the splits of a reply and, if there is one, its
    dirfrag have been merged, with the allocator in state [o]. *)
Definition merged_fragtree `{headers} (tree : gmap Z ceph_inode_frag)
    (iinfo : ceph_mds_reply_info_in) (dirinfo : option ceph_mds_reply_dirfrag)
    (o : list bool) : kres (gmap Z ceph_inode_frag * list bool) :=
  match fill_fragtree_splits (in_splits (info_in iinfo)) tree o with
  | Ret (t, o') =>
      match dirinfo with
      | None => Ret (t, o')
      | Some d =>
          match ceph_fill_dirfrag t d o' with
          | Ret (r, o'') => Ret (r.2, o'')
          | Fault f => Fault f
          end
      end
  | Fault f => Fault f
  end.

(** The state of the allocator once ceph_fill_inode has tried to allocate
    the xattr buffer ahead. *)
Definition after_prealloc (ci : ceph_inode_info) (iinfo : ceph_mds_reply_info_in)
    (o : list bool) : list bool :=
  if nonzero (xattr_len iinfo) && negb (xattr_len iinfo =? i_xattr_len ci)
  then tail o else o.

(** What ceph_getxattr answers for a value found, by the size of the
    caller's buffer. *)
Definition xattr_answer (found_ : option (list byte)) (size : Z)
  : Z * option (list byte) :=
  match found_ with
  | None => (- ENODATA, None)
  | Some v =>
      if bool_decide (size = 0) then (blen v, None)
      else if bool_decide (size < blen v) then (- ERANGE, None)
      else (blen v, Some v)
  end.

(** The bytes at which a blob stops short of the two length fields of its
    next attribute: fewer than four of them, or a length and fewer bytes
    than the name of that length and the length field after it take. *)
Definition cut_in_head (cut : list byte) : Prop :=
  blen cut < 4 ∨
  ∃ n rest, cut = le32 n ++ rest ∧ 0 <= n < 2 ^ 32 ∧ blen rest < n + 4.

(** One attribute, "a" with value "x"; a blob that holds it and announces
    a second attribute that is not there; a blob that announces it with a
    value of five bytes and holds two of them; and a snapdir inode that
    holds a given blob. *)
Definition one_xattr : list (list byte * list byte) :=
  [ (list_byte_of_string "a", list_byte_of_string "x") ].

Definition short_blob : list byte :=
  le32 2 ++ xattr_entries_encode one_xattr.

Definition cut_value_blob : list byte :=
  le32 1 ++ le32 1 ++ list_byte_of_string "a" ++ le32 5 ++ list_byte_of_string "xy".

Definition ci_with_blob (blob : list byte) : ceph_inode_info :=
  set_i_xattr_data blob
    (set_i_xattr_len (blen blob)
       (set_i_vino {| ino := 1; snap := 2 ^ 64 - 1 |} zero_ci)).

(** ** More sample objects *)

(** The lease of [sample_lease], taken by a new inode from the session at
    key 1 for a request started at time 100: the mask returned, the inode
    and the session table. *)
Definition lease_taken : Z * ceph_inode_info * gmap Z ceph_mds_session :=
  match update_inode_lease zero_ci {[ 1 := session_gen8 ]} sample_lease 1 100 with
  | Ret r => r
  | Fault _ => (0, zero_ci, ∅)
  end.

(** An inode whose lease came from session 2, and the result of a reply of
    session 1 that carries a lease for it. *)
Definition ci_lease_other : ceph_inode_info :=
  set_i_lease_session (Some 2) ci_lease_gen7.

Definition lease_refused : Z * ceph_inode_info * gmap Z ceph_mds_session :=
  match update_inode_lease ci_lease_other {[ 1 := session_gen8 ]} sample_lease 1 100 with
  | Ret r => r
  | Fault _ => (0, zero_ci, ∅)
  end.

(** An inode whose lease came from session 1 in its present generation, and
    the result of a reply of that session that carries a lease for it. *)
Definition ci_lease_gen8 : ceph_inode_info := set_i_lease_gen 8 ci_lease_gen7.

Definition lease_renewed : Z * ceph_inode_info * gmap Z ceph_mds_session :=
  match update_inode_lease ci_lease_gen8 {[ 1 := session_gen8 ]} sample_lease 1 100 with
  | Ret r => r
  | Fault _ => (0, zero_ci, ∅)
  end.

(** An inode with a truncation to 4096 bytes pending. *)
Definition ci_pending : ceph_inode_info := set_i_vmtruncate_to 4096 zero_ci.

(** Timestamps at second 50 and at second 40. *)
Definition time_50 : timespec := {| tv_sec := 50; tv_nsec := 0 |}.
Definition time_40 : timespec := {| tv_sec := 40; tv_nsec := 0 |}.

Definition ci_time_50 : ceph_inode_info :=
  set_i_time_warp_seq 5
    (upd_inode (λ i, set_i_atime time_50 (set_i_mtime time_50 (set_i_ctime time_50 i)))
       zero_ci).

(** The names of a list of attributes as listxattr lays them out: each
    followed by a NUL. *)
Definition xattr_names (l : list (list byte * list byte)) : list byte :=
  concat (map (λ e, e.1 ++ [Byte.x00]) l).

(** What listxattr answers when the names take [out], by the size of the
    caller's buffer. *)
Definition listxattr_answer (out : list byte) (size : Z) : Z * option (list byte) :=
  if bool_decide (size = 0) then (blen out, None)
  else if bool_decide (size < blen out) then (- ERANGE, None)
  else (blen out, Some out).

(** A directory that holds the blob of [one_xattr]. *)
Definition ci_dir_blob : ceph_inode_info :=
  upd_inode (set_i_mode 0x41ed) (ci_with_blob (xattr_encode one_xattr)).

(** A dentry without lease information, and one whose lease was taken
    from the session at key 1 when its generation was 7. *)
Definition fresh_dentry : dentry :=
  {| d_key := 9; d_time := 0; d_fsdata := None; d_count := 1 |}.

Definition dentry_gen7 : dentry :=
  {| d_key := 9; d_time := 500;
     d_fsdata := Some {| lease_session := 1; lease_gen := 7 |}; d_count := 2 |}.

(** [dentry_gen7] after a reply with [sample_lease] for a request started
    at time 100. *)
Definition dentry_renewed : dentry * gmap Z ceph_mds_session * list bool :=
  match update_dentry_lease dentry_gen7 3 {[ 1 := session_gen8 ]} sample_lease 1 100 []
  with
  | Ret r => r
  | Fault _ => (dentry_gen7, ∅, [])
  end.

(** A lease on every attribute of the inode, and what a new inode and
    the session table are once it is taken. *)
Definition full_lease : ceph_mds_reply_lease :=
  {| lease_mask := 254; duration_ms := 10000 |}.

Definition full_lease_taken : Z * ceph_inode_info * gmap Z ceph_mds_session :=
  match update_inode_lease zero_ci {[ 1 := session_gen8 ]} full_lease 1 100 with
  | Ret r => r
  | Fault _ => (0, zero_ci, ∅)
  end.

(** generic_fillattr and the two fields ceph_getattr sets after it. *)
Definition stat_of `{headers} (ci : ceph_inode_info) : kstat :=
  let i := vfs_inode ci in
  {| st_dev := if bool_decide (snap (i_vino ci) = CEPH_NOSNAP) then 0
               else snap (i_vino ci);
     st_ino := ino (i_vino ci);
     st_mode := i_mode i; st_nlink := i_nlink i;
     st_uid := i_uid i; st_gid := i_gid i; st_rdev := i_rdev i;
     st_size := i_size i;
     st_atime := i_atime i; st_mtime := i_mtime i;
     st_ctime := i_ctime i; st_blocks := i_blocks i |}.

(** A new inode on a slab that still holds what [ci_lease_gen7] left. *)
Definition fresh_ci : ceph_inode_info :=
  match ceph_alloc_inode ci_lease_gen7 [] with
  | Ret (Some ci, _) => ci
  | _ => zero_ci
  end.

(** ** Splits of a reply, read as a function *)

(** The split recorded last for [f] in a list of splits. *)
Fixpoint last_by (splits : list ceph_frag_tree_split) (f : Z) : option Z :=
  match splits with
  | [] => None
  | sp :: rest =>
      match last_by rest f with
      | Some b => Some b
      | None => if decide (fts_frag sp = f) then Some (fts_by sp) else None
      end
  end.

(** What the loop over the splits does to a tree when nothing has to be
    allocated. *)
Definition apply_splits (splits : list ceph_frag_tree_split)
    (tree : gmap Z ceph_inode_frag) : gmap Z ceph_inode_frag :=
  foldl (λ t sp, alter (set_split_by (s32 (fts_by sp))) (fts_frag sp) t) tree splits.

(** The frag chosen for a value in [quartered_tree], delegation info for
    it, and the tree once the info is stored. *)
Definition chosen_in_quartered : frag_choice :=
  match ceph_choose_frag 25 quartered_tree 0x2bcdef with
  | Ret c => c
  | Fault _ => {| chosen := 0; found := false; pfrag := None; warned := true |}
  end.

Definition leaf_dirfrag : ceph_mds_reply_dirfrag :=
  {| df_frag := 0x02000000; df_auth := 1; df_ndist := 2; df_dist := [4; 5] |}.

Definition quartered_delegated : gmap Z ceph_inode_frag :=
  match ceph_fill_dirfrag quartered_tree leaf_dirfrag [] with
  | Ret (r, _) => r.2
  | Fault _ => ∅
  end.

(** The tree that [sample_splits] builds from nothing. *)
Definition sample_splits_tree : gmap Z ceph_inode_frag :=
  match fill_fragtree_splits sample_splits ∅ [] with
  | Ret (t, _) => t
  | Fault _ => ∅
  end.

(** ** What a reply leaves alone *)

(** The fields of the inode that belong to the lease, the caps and the
    identity of the inode rather than to its attributes. *)
Definition beside_attrs (ci : ceph_inode_info) :=
  (i_vino ci, i_lease_session ci, i_lease_gen ci, i_lease_ttl ci, i_lease_mask ci,
   i_count (vfs_inode ci), i_nr_by_mode ci, i_snap_caps ci, i_vmtruncate_to ci,
   i_wrbuffer_ref ci).

(** The reply is of the version cached. *)
Definition same_version (ci : ceph_inode_info) (iinfo : ceph_mds_reply_info_in) : bool :=
  (in_version (info_in iinfo) >? 0) && (i_version ci =? in_version (info_in iinfo)).

(** A reply for a regular file at version 1 that carries the blob of
    [one_xattr]. *)
Definition info_with_xattr : ceph_mds_reply_info_in := {|
  info_in := info_in info_split_by_zero;
  symlink_len := 0; symlink := [];
  xattr_len := blen (xattr_encode one_xattr);
  xattr_data := xattr_encode one_xattr
|}.

(** A host whose MDS answers every lookup with EIO. *)
Definition failing_host : host := {|
  vmtruncate := λ i size, (0, set_i_size size i);
  inode_change_ok := 0;
  build_path := 0;
  create_request := λ _, 0;
  do_request := λ _ ci, (0, ci);
  do_lookup := λ _ _ ci, {| lk_err := - EIO; lk_negative := false; lk_inode := ci |};
  d_unhashed := false;
  get_cap_mds := 0;
  current_time := {| tv_sec := 1000; tv_nsec := 0 |};
  PAGE_CACHE_SIZE := 4096
|}.

(** A request to set mtime and atime to second 60, and an inode whose
    times are at second 50. *)
Definition later_times_attr : iattr := {|
  ia_valid := 48; ia_mode := 0; ia_uid := 0; ia_gid := 0; ia_size := 0;
  ia_atime := {| tv_sec := 60; tv_nsec := 0 |};
  ia_mtime := {| tv_sec := 60; tv_nsec := 0 |};
  ia_ctime := zero_time
|}.

(** ** The pages of ceph_setxattr

    ceph_setxattr once more, with the books kept of what it allocates: the
    array of page pointers and the pages.  [held] counts the allocations
    not yet freed. *)

(** The loop [for (i = 0; i < nr_pages; i++)] with [n] rounds left: [None]
    when it ran to the end, [Some i] when alloc_page failed in round [i]. *)
Fixpoint alloc_pages_loop (n : nat) (i held : Z) : kst (option Z * Z) :=
  match n with
  | O => mret (None, held)
  | S n' =>
      ok ← kmalloc;
      if ok : bool then alloc_pages_loop n' (i + 1) (held + 1)
      else mret (Some i, held)
  end.

(** The label [out]: [nr_pages] pages and the array are freed. *)
Definition free_pages (nr_pages held : Z) : Z := held - nr_pages - 1.

(** The result and the allocations still held on return. *)
Definition ceph_setxattr_pages `{headers} `{host} (ci : ceph_inode_info)
    (name : string) (size flags : Z) : kst (Z * Z) :=
  if negb (snap (i_vino ci) =? CEPH_NOSNAP) then mret (- EROFS, 0)
  else if negb (String.prefix "user." name) then mret (- EOPNOTSUPP, 0)
  else if bool_decide (is_Some (_ceph_match_vir_xattr name))
       then mret (- EOPNOTSUPP, 0)
  else
    let nr_pages := calc_pages_for size in
    let request (pages : bool) (held : Z) : Z * Z :=
      if nonzero build_path then (build_path, held)
      else if nonzero (create_request CEPH_MDS_OP_LSETXATTR)
           then (create_request CEPH_MDS_OP_LSETXATTR, held)
      else
        let err := (do_request (ReqLsetxattr name flags nr_pages size) ci).1 in
        (err, if pages then free_pages nr_pages held else held) in
    if nonzero nr_pages then
      ok ← kmalloc;
      if ok : bool then
        r ← alloc_pages_loop (Z.to_nat nr_pages) 0 1;
        match r.1 with
        | Some i => mret (- ENOMEM, free_pages i r.2)
        | None => mret (request true r.2)
        end
      else mret (- ENOMEM, 0)
    else mret (request false 0).

(** A host that cannot build the path of a dentry. *)
Definition pathless_host : host := {|
  vmtruncate := λ i size, (0, set_i_size size i);
  inode_change_ok := 0;
  build_path := - ENOMEM;
  create_request := λ _, 0;
  do_request := λ _ ci, (0, ci);
  do_lookup := λ _ _ ci, {| lk_err := 0; lk_negative := false; lk_inode := ci |};
  d_unhashed := false;
  get_cap_mds := 0;
  current_time := {| tv_sec := 1000; tv_nsec := 0 |};
  PAGE_CACHE_SIZE := 4096
|}.

(** A host whose MDS refuses every chown with EIO and accepts the rest. *)
Definition chown_refusing_host : host := {|
  vmtruncate := λ i size, (0, set_i_size size i);
  inode_change_ok := 0;
  build_path := 0;
  create_request := λ _, 0;
  do_request := λ req ci,
    match req with ReqChown _ _ _ => (- EIO, ci) | _ => (0, ci) end;
  do_lookup := λ _ _ ci, {| lk_err := 0; lk_negative := false; lk_inode := ci |};
  d_unhashed := false;
  get_cap_mds := 0;
  current_time := {| tv_sec := 1000; tv_nsec := 0 |};
  PAGE_CACHE_SIZE := 4096
|}.

(** A request to set the owner to 7 and the mode to 0644. *)
Definition chown_chmod_attr : iattr := {|
  ia_valid := 3; ia_mode := 0x1a4; ia_uid := 7; ia_gid := 0; ia_size := 0;
  ia_atime := zero_time; ia_mtime := zero_time; ia_ctime := zero_time
|}.

(** * Properties *)

(* Reduce the projections of records built by the setters. *)
Ltac fields :=
  cbn [set_i_mode set_i_uid set_i_gid set_i_nlink set_i_rdev set_i_size
       set_i_blocks set_i_blkbits set_i_atime set_i_mtime set_i_ctime
       set_i_count set_i_op set_i_fop set_vfs_i_version set_vfs_inode
       set_i_vino set_i_version set_i_truncate_seq set_i_time_warp_seq
       set_i_reported_size set_i_max_size set_i_layout set_i_xattr_len
       set_i_xattr_data set_i_old_atime set_i_symlink set_i_fragtree
       set_i_files set_i_subdirs set_i_rbytes set_i_rfiles set_i_rsubdirs
       set_i_rctime set_i_lease_session set_i_lease_gen set_i_lease_ttl
       set_i_lease_mask set_i_nr_by_mode set_i_snap_caps set_i_vmtruncate_to
       set_i_wrbuffer_ref set_split_by set_mds set_ndist set_dist
       set_s_inode_leases set_s_dentry_leases set_d_time set_d_fsdata
       set_d_count upd_inode i_mode i_uid i_gid i_nlink i_rdev i_size i_blocks
       i_blkbits i_atime i_mtime i_ctime i_count i_op i_fop vfs_i_version
       vfs_inode i_vino i_version i_truncate_seq i_time_warp_seq
       i_reported_size i_max_size i_layout i_xattr_len i_xattr_data
       i_old_atime i_symlink i_fragtree i_files i_subdirs i_rbytes i_rfiles
       i_rsubdirs i_rctime i_lease_session i_lease_gen i_lease_ttl
       i_lease_mask i_nr_by_mode i_snap_caps i_vmtruncate_to i_wrbuffer_ref
       frag split_by mds ndist dist s_cap_gen s_cap_ttl s_inode_leases
       s_dentry_leases d_key d_time d_fsdata d_count].

Ltac fields_in H :=
  cbn [set_i_mode set_i_uid set_i_gid set_i_nlink set_i_rdev set_i_size
       set_i_blocks set_i_blkbits set_i_atime set_i_mtime set_i_ctime
       set_i_count set_i_op set_i_fop set_vfs_i_version set_vfs_inode
       set_i_vino set_i_version set_i_truncate_seq set_i_time_warp_seq
       set_i_reported_size set_i_max_size set_i_layout set_i_xattr_len
       set_i_xattr_data set_i_old_atime set_i_symlink set_i_fragtree
       set_i_files set_i_subdirs set_i_rbytes set_i_rfiles set_i_rsubdirs
       set_i_rctime set_i_lease_session set_i_lease_gen set_i_lease_ttl
       set_i_lease_mask set_i_nr_by_mode set_i_snap_caps set_i_vmtruncate_to
       set_i_wrbuffer_ref set_split_by set_mds set_ndist set_dist
       set_s_inode_leases set_s_dentry_leases set_d_time set_d_fsdata
       set_d_count upd_inode i_mode i_uid i_gid i_nlink i_rdev i_size i_blocks
       i_blkbits i_atime i_mtime i_ctime i_count i_op i_fop vfs_i_version
       vfs_inode i_vino i_version i_truncate_seq i_time_warp_seq
       i_reported_size i_max_size i_layout i_xattr_len i_xattr_data
       i_old_atime i_symlink i_fragtree i_files i_subdirs i_rbytes i_rfiles
       i_rsubdirs i_rctime i_lease_session i_lease_gen i_lease_ttl
       i_lease_mask i_nr_by_mode i_snap_caps i_vmtruncate_to i_wrbuffer_ref
       frag split_by mds ndist dist s_cap_gen s_cap_ttl s_inode_leases
       s_dentry_leases d_key d_time d_fsdata d_count] in H.

(** ** The fragment tree *)











(** ** The attribute reconciler *)

Section reconciler_facts.
Context `{headers}.

Lemma size_wins_test ts size ci :
  (ts >? i_truncate_seq ci) ||
  ((ts =? i_truncate_seq ci) && (size >? i_size (vfs_inode ci))) =
  bool_decide (mds_size_wins ts size ci).
Proof.
  unfold mds_size_wins. case_bool_decide as Hw; lia.
Qed.

(* The timestamp policy leaves the fields of the size policy alone. *)
Lemma fill_file_bits_size_fields issued ts size tw ctime mtime atime ci :
  let ci0 := if bool_decide (mds_size_wins ts size ci)
             then set_i_truncate_seq ts
                    (set_i_reported_size size
                       (upd_inode (λ i, set_i_blocks (size_to_blocks size)
                                          (set_i_size size i)) ci))
             else ci in
  let ci' := ceph_fill_file_bits issued ts size tw ctime mtime atime ci in
  i_size (vfs_inode ci') = i_size (vfs_inode ci0) ∧
  i_blocks (vfs_inode ci') = i_blocks (vfs_inode ci0) ∧
  i_truncate_seq ci' = i_truncate_seq ci0 ∧
  i_reported_size ci' = i_reported_size ci0.
Proof.
  intros ci0 ci'. subst ci0 ci'. unfold ceph_fill_file_bits.
  rewrite size_wins_test.
  repeat case_match; done.
Qed.

(** C1.  ceph_fill_file_bits takes the size of the reply exactly when the
    reply's truncate_seq is above the inode's, or equal to it with a larger
    size: the size, the blocks recomputed from it, the truncate_seq and the
    reported size are then those of the reply; otherwise the four fields
    are as before.  An inode of 1000 bytes at truncate_seq 3, with the EXCL
    cap among the issued ones, keeps 1000 bytes and truncate_seq 3 on a
    reply of 500 bytes at truncate_seq 3. *)
Theorem ceph_fill_file_bits_size issued ts size tw ctime mtime atime ci :
  let ci' := ceph_fill_file_bits issued ts size tw ctime mtime atime ci in
  (if bool_decide (mds_size_wins ts size ci)
   then i_size (vfs_inode ci') = size ∧
        i_blocks (vfs_inode ci') = size_to_blocks size ∧
        i_truncate_seq ci' = ts ∧
        i_reported_size ci' = size
   else i_size (vfs_inode ci') = i_size (vfs_inode ci) ∧
        i_blocks (vfs_inode ci') = i_blocks (vfs_inode ci) ∧
        i_truncate_seq ci' = i_truncate_seq ci ∧
        i_reported_size ci' = i_reported_size ci) ∧
  let kept := ceph_fill_file_bits (Z.lor issued CEPH_CAP_EXCL) 3 500 tw
                ctime mtime atime ci_1000 in
  i_size (vfs_inode kept) = 1000 ∧ i_truncate_seq kept = 3 ∧
  i_blocks (vfs_inode kept) = 2.
Proof.
  split.
  - pose proof (fill_file_bits_size_fields issued ts size tw ctime mtime atime ci) as Hf.
    cbv zeta in Hf. destruct Hf as (Hs & Hb & Ht & Hr).
    case_bool_decide; rewrite Hs, Hb, Ht, Hr; done.
  - pose proof (fill_file_bits_size_fields (Z.lor issued CEPH_CAP_EXCL) 3 500 tw
                  ctime mtime atime ci_1000) as Hf.
    cbv zeta in Hf. destruct Hf as (Hs & Hb & Ht & Hr). cbv zeta.
    rewrite bool_decide_eq_false_2 in Hs, Hb, Ht.
    + by rewrite Hs, Hb, Ht.
    + unfold mds_size_wins. cbn. lia.
    + unfold mds_size_wins. cbn. lia.
    + unfold mds_size_wins. cbn. lia.
Qed.

(* Neither policy of the reconciler lowers a counter. *)
Lemma fill_file_bits_seqs issued ts size tw ctime mtime atime ci :
  let ci' := ceph_fill_file_bits issued ts size tw ctime mtime atime ci in
  i_truncate_seq ci <= i_truncate_seq ci' ∧
  i_time_warp_seq ci <= i_time_warp_seq ci'.
Proof.
  cbv zeta. unfold ceph_fill_file_bits. rewrite size_wins_test.
  unfold mds_size_wins. repeat (first [case_bool_decide | case_match]); cbn in *; lia.
Qed.

End reconciler_facts.

(** ** Counters and sizes under local changes *)

Section local_changes.
Context `{headers} `{request_constants} `{host}.

(** C2, as amended.  The reconciler never lowers truncate_seq or
    time_warp_seq, whatever the caps issued and whatever the counters hold.
    A local utimes under the EXCL cap is done at once and leaves
    truncate_seq as it is; it raises time_warp_seq by one when the counter
    is below the largest 64-bit number, and takes it from there to 0. *)
Theorem seqs_never_decrease held ts size tw ctime mtime atime
    sessions jiffies issued (ci : ceph_inode_info) attr :
  (let ci' := ceph_fill_file_bits held ts size tw ctime mtime atime ci in
   i_truncate_seq ci <= i_truncate_seq ci' ∧
   i_time_warp_seq ci <= i_time_warp_seq ci') ∧
  (nonzero (Z.land issued CEPH_CAP_EXCL) = true →
   ∃ ci', ceph_setattr_time sessions jiffies issued ci attr = Ret (0, ci', []) ∧
          i_truncate_seq ci' = i_truncate_seq ci ∧
          (0 <= i_time_warp_seq ci < 2 ^ 64 - 1 →
           i_time_warp_seq ci' = i_time_warp_seq ci + 1) ∧
          (i_time_warp_seq ci = 2 ^ 64 - 1 → i_time_warp_seq ci' = 0)).
Proof.
  split; [apply fill_file_bits_seqs|].
  intros Hexcl. unfold ceph_setattr_time. rewrite Hexcl. eexists. split; [done|].
  fields. split_and!; [done| |].
  - intros Hrange. unfold u64. by rewrite Z.mod_small by lia.
  - by intros ->.
Qed.

(* What the local truncate under EXCL writes: the size, ctime and the
   reported size, on top of what vmtruncate left; i_blocks is not among
   them. *)
Lemma setattr_size_excl sessions jiffies issued ci attr :
  nonzero (Z.land issued CEPH_CAP_EXCL) = true →
  s64 (ia_size attr) > s64 (i_size (vfs_inode ci)) →
  (vmtruncate (vfs_inode ci) (ia_size attr)).1 = 0 →
  ∃ ci', ceph_setattr_size sessions jiffies issued ci attr = Ret (0, ci', []) ∧
         i_size (vfs_inode ci') = ia_size attr ∧
         i_reported_size ci' = ia_size attr ∧
         i_blocks (vfs_inode ci') =
           i_blocks (vmtruncate (vfs_inode ci) (ia_size attr)).2.
Proof.
  intros Hexcl Hgrow Hok. unfold ceph_setattr_size. rewrite Hexcl.
  replace (s64 (ia_size attr) >? s64 (i_size (vfs_inode ci))) with true by lia.
  cbn [andb]. rewrite Hok. cbn. eauto.
Qed.

End local_changes.

(** C2, as stated, fails: counters are 64 bits wide, and on an inode whose
    time_warp_seq is 2^64 - 1 a local utimes under EXCL leaves it at 0. *)
Lemma setattr_time_wraps :
  ∃ ci', ceph_setattr_time ∅ 0 CEPH_CAP_EXCL ci_last_warp utimes_attr
           = Ret (0, ci', []) ∧
         i_time_warp_seq ci' = 0 ∧
         i_time_warp_seq ci' < i_time_warp_seq ci_last_warp.
Proof. eexists. split; [reflexivity|]. split; [reflexivity|]. by apply Z.ltb_lt. Qed.

Lemma seqs_never_decrease_witness :
  (let ci' := ceph_fill_file_bits CEPH_CAP_WR 3 500 7 zero_time zero_time
                zero_time ci_last_warp in
   i_truncate_seq ci_last_warp <= i_truncate_seq ci' ∧
   i_time_warp_seq ci_last_warp <= i_time_warp_seq ci') ∧
  (∃ ci', ceph_setattr_time ∅ 0 CEPH_CAP_EXCL ci_1000 utimes_attr
            = Ret (0, ci', []) ∧
          i_truncate_seq ci' = i_truncate_seq ci_1000 ∧
          i_time_warp_seq ci' = i_time_warp_seq ci_1000 + 1) ∧
  (∃ ci', ceph_setattr_time ∅ 0 CEPH_CAP_EXCL ci_last_warp utimes_attr
            = Ret (0, ci', []) ∧
          i_truncate_seq ci' = i_truncate_seq ci_last_warp ∧
          i_time_warp_seq ci' = 0).
Proof.
  destruct (seqs_never_decrease CEPH_CAP_WR 3 500 7 zero_time zero_time zero_time
              ∅ 0 CEPH_CAP_EXCL ci_1000 utimes_attr) as [_ Hlocal].
  destruct (seqs_never_decrease CEPH_CAP_WR 3 500 7 zero_time zero_time zero_time
              ∅ 0 CEPH_CAP_EXCL ci_last_warp utimes_attr) as [Hfill Hwrap].
  split; [exact Hfill|]. split.
  - destruct (Hlocal eq_refl) as (ci' & Hrun & Htrunc & Hup & _).
    exists ci'. split; [exact Hrun|]. split; [exact Htrunc|].
    apply Hup. split; [by apply Z.leb_le|by apply Z.ltb_lt].
  - destruct (Hwrap eq_refl) as (ci' & Hrun & Htrunc & _ & Hzero).
    exists ci'. split; [exact Hrun|]. split; [exact Htrunc|].
    apply Hzero. reflexivity.
Defined.

(** C5 at the failing input.  An empty file, the EXCL cap issued, a local
    truncate to 1000 bytes: ceph_setattr_size returns 0 with a size of 1000
    and i_blocks still 0, where ceil(1000 / 512) is 2. *)
Theorem setattr_size_stale_blocks :
  ∃ ci', ceph_setattr_size ∅ 0 CEPH_CAP_EXCL zero_ci grow_attr = Ret (0, ci', []) ∧
         i_size (vfs_inode ci') = 1000 ∧
         i_blocks (vfs_inode ci') = 0 ∧
         ceil_blocks (i_size (vfs_inode ci')) = 2.
Proof. eexists. split; [reflexivity|]. by split_and!. Qed.

(** ** Inode leases *)

Section lease_facts.
Context `{headers}.

Lemma nonzero_true x : nonzero x = true ↔ x ≠ 0.
Proof. unfold nonzero. destruct (Z.eqb_spec x 0); naive_solver. Qed.

Lemma nonzero_decide x : nonzero x = bool_decide (x ≠ 0).
Proof. unfold nonzero. destruct (Z.eqb_spec x 0); by case_bool_decide. Qed.

(* The mask the code builds is the one the specification describes. *)
Lemma lease_havemask_spec issued ci mask :
  lease_havemask issued ci mask = spec_havemask issued (i_lease_mask ci) mask.
Proof.
  unfold lease_havemask, spec_havemask.
  by rewrite !nonzero_decide, bool_decide_and.
Qed.

(** C4.  ceph_inode_lease_valid returns true exactly when the session of
    the lease is still active (its cap_gen is the gen of the lease, and
    jiffies is before both the session's cap_ttl and the lease's ttl, in the
    order of time_before) and the mask asked for is within the mask held;
    the mask held is the stored one with the ICONTENT bits added when they
    are asked for under an issued EXCL cap, and with all of them when it has
    any.  Once the session's cap_gen differs from the gen of the lease the
    answer is false, whatever the ttl. *)
Theorem ceph_inode_lease_valid_iff sessions jiffies issued ci mask :
  (ceph_inode_lease_valid sessions jiffies issued ci mask = Ret true ↔
   lease_session_active sessions jiffies ci ∧
   Z.land (spec_havemask issued (i_lease_mask ci) mask) mask = mask) ∧
  (∀ p s, i_lease_session ci = Some p → sessions !! p = Some s →
          s_cap_gen s ≠ i_lease_gen ci →
          ceph_inode_lease_valid sessions jiffies issued ci mask = Ret false).
Proof.
  unfold ceph_inode_lease_valid, lease_session_active, session_at.
  rewrite lease_havemask_spec. split.
  - destruct (i_lease_session ci) as [p|]; cbn [mbind kres_bind].
    2: { split; [done|]. by intros [(? & ? & ? & _) _]. }
    destruct (sessions !! p) as [s|] eqn:Hs; cbn [mbind kres_bind].
    2: { split; [done|]. intros [(? & ? & ? & ? & _) _]. congruence. }
    split.
    + intros [= Hv]. apply andb_true_iff in Hv as [Hv Hm].
      apply andb_true_iff in Hv as [Hv Ht2]. apply andb_true_iff in Hv as [Hg Ht1].
      split; [|lia]. exists p, s. split_and!; [done|done|lia|done|done].
    + intros [(p' & s' & Hp & Hs' & Hg & Ht1 & Ht2) Hm]. simplify_eq.
      f_equal. rewrite Ht1, Ht2. cbn. lia.
  - intros p s Hp Hs Hg. rewrite Hp. cbn [mbind kres_bind]. rewrite Hs.
    cbn [mbind kres_bind]. f_equal.
    replace (s_cap_gen s =? i_lease_gen ci) with false by lia. done.
Qed.

End lease_facts.

Lemma ceph_inode_lease_valid_iff_witness :
  ceph_inode_lease_valid {[ 1 := session_gen8 ]} 100 0 ci_lease_gen7 4 = Ret false.
Proof.
  apply (ceph_inode_lease_valid_iff {[ 1 := session_gen8 ]} 100 0 ci_lease_gen7 4)
    with (p := 1) (s := session_gen8).
  - reflexivity.
  - reflexivity.
  - cbn. lia.
Defined.

Section lease_update_facts.
Context `{headers}.

Lemma time_before_irrefl t : time_before t t = false.
Proof. unfold time_before. by rewrite Z.sub_diag. Qed.

Lemma filter_ne_app_self {A : Type} `{EqDecision A} (x : A) (l : list A) :
  filter (λ y, y ≠ x) (l ++ [x]) = filter (λ y, y ≠ x) l.
Proof.
  rewrite filter_app. cbn. rewrite decide_False by naive_solver.
  apply app_nil_r.
Qed.

Lemma list_move_tail_idemp {A : Type} `{EqDecision A} (x : A) (l : list A) :
  list_move_tail x (list_move_tail x l) = list_move_tail x l.
Proof.
  unfold list_move_tail. rewrite filter_ne_app_self. f_equal.
  apply list_filter_filter_l. done.
Qed.

(* An accepted lease leaves the inode in a state in which the same lease
   is accepted again without any change. *)
Lemma update_inode_lease_again ci sessions lease session from_time m ci1 ss1 :
  lease_mask lease ≠ 0 →
  update_inode_lease ci sessions lease session from_time = Ret (m, ci1, ss1) →
  update_inode_lease ci1 ss1 lease session from_time = Ret (m, ci1, ss1).
Proof.
  intros Hmask. unfold update_inode_lease.
  replace (lease_mask lease =? 0) with false by lia.
  set (ttl := lease_ttl lease from_time).
  destruct ((i_lease_ttl ci =? 0) || negb (time_before ttl (i_lease_ttl ci))) eqn:Hnew;
    cbn [mbind kres_bind].
  - destruct (i_lease_session ci) as [p|] eqn:Hp.
    + destruct (Z.eqb_spec p session) as [->|Hne]; cbn [andb].
      * unfold session_at. destruct (sessions !! session) as [s|] eqn:Hs;
          cbn [mbind kres_bind]; [|done].
        rewrite bool_decide_eq_false_2 by done. intros [= <- <- <-].
        fields. rewrite time_before_irrefl, orb_true_r. cbn [mbind kres_bind].
        rewrite Hp, Z.eqb_refl. cbn [andb]. rewrite lookup_insert_eq.
        cbn [mbind kres_bind].
        rewrite bool_decide_eq_false_2 by done. fields.
        rewrite insert_insert_eq, list_move_tail_idemp.
        destruct ci; done.
      * intros [= <- <- <-]. rewrite Hnew. cbn [mbind kres_bind]. rewrite Hp.
        replace (p =? session) with false by lia. done.
    + cbn [andb]. unfold session_at. destruct (sessions !! session) as [s|] eqn:Hs;
        cbn [mbind kres_bind]; [|done].
      rewrite bool_decide_eq_true_2 by done. intros [= <- <- <-].
      fields. rewrite time_before_irrefl, orb_true_r. cbn [mbind kres_bind].
      rewrite Z.eqb_refl. cbn [andb]. rewrite lookup_insert_eq.
      cbn [mbind kres_bind]. fields.
      rewrite insert_insert_eq, list_move_tail_idemp.
      destruct ci; done.
  - unfold session_at. destruct (sessions !! session) as [s|] eqn:Hs;
      cbn [mbind kres_bind]; [|done].
    destruct (i_lease_session ci) as [p|] eqn:Hp.
    + destruct (Z.eqb_spec p session) as [->|Hne].
      * destruct (negb (i_lease_gen ci =? s_cap_gen s)) eqn:Hgen; cbn [andb].
        -- rewrite bool_decide_eq_false_2 by done. intros [= <- <- <-].
           fields. rewrite time_before_irrefl, orb_true_r. cbn [mbind kres_bind].
           rewrite Hp, Z.eqb_refl. cbn [andb]. rewrite lookup_insert_eq.
           cbn [mbind kres_bind].
           rewrite bool_decide_eq_false_2 by done. fields.
           rewrite insert_insert_eq, list_move_tail_idemp.
           destruct ci; done.
        -- intros [= <- <- <-]. rewrite Hnew. cbn [mbind kres_bind].
           rewrite Hs. cbn [mbind kres_bind]. by rewrite Hgen.
      * rewrite andb_false_r. intros [= <- <- <-]. rewrite Hnew.
        cbn [mbind kres_bind]. rewrite Hs, Hp. cbn [mbind kres_bind].
        replace (p =? session) with false by lia. by rewrite andb_false_r.
    + destruct (negb (i_lease_gen ci =? s_cap_gen s)) eqn:Hgen; cbn [andb].
      * rewrite bool_decide_eq_true_2 by done. intros [= <- <- <-].
        fields. rewrite time_before_irrefl, orb_true_r. cbn [mbind kres_bind].
        rewrite Z.eqb_refl. cbn [andb]. rewrite lookup_insert_eq.
        cbn [mbind kres_bind]. fields.
        rewrite insert_insert_eq, list_move_tail_idemp.
        destruct ci; done.
      * intros [= <- <- <-]. rewrite Hnew. cbn [mbind kres_bind].
        rewrite Hs. cbn [mbind kres_bind]. by rewrite Hgen, Hp.
Qed.

(* With the session in the table the update returns. *)
Lemma update_inode_lease_returns ci sessions lease session from_time :
  is_Some (sessions !! session) →
  ∃ m ci1 ss1,
    update_inode_lease ci sessions lease session from_time = Ret (m, ci1, ss1).
Proof.
  intros [s Hs]. unfold update_inode_lease, session_at. rewrite Hs.
  destruct (lease_mask lease =? 0); [by eexists _, _, _|].
  destruct (_ || _); cbn [mbind kres_bind];
    (destruct (_ && _); by eexists _, _, _).
Qed.

(** C6.  For a lease info with a nonzero mask, update_inode_lease called a
    second time with the same arguments returns the mask the first call
    returned and leaves the inode and the session table as the first call
    left them: the reference count, the ttl, the gen and the mask of the
    lease are those after the first call. *)
Theorem update_inode_lease_idempotent ci sessions lease session from_time :
  lease_mask lease ≠ 0 →
  is_Some (sessions !! session) →
  ∃ m ci1 ss1,
    update_inode_lease ci sessions lease session from_time = Ret (m, ci1, ss1) ∧
    update_inode_lease ci1 ss1 lease session from_time = Ret (m, ci1, ss1).
Proof.
  intros Hmask Hs.
  destruct (update_inode_lease_returns ci sessions lease session from_time Hs)
    as (m & ci1 & ss1 & Hfirst).
  exists m, ci1, ss1. split; [done|].
  by apply (update_inode_lease_again ci sessions).
Qed.

End lease_update_facts.

Lemma update_inode_lease_idempotent_witness :
  ∃ m ci1 ss1,
    update_inode_lease zero_ci {[ 1 := session_gen8 ]} sample_lease 1 100
      = Ret (m, ci1, ss1) ∧
    update_inode_lease ci1 ss1 sample_lease 1 100 = Ret (m, ci1, ss1).
Proof.
  apply (update_inode_lease_idempotent zero_ci {[ 1 := session_gen8 ]}
           sample_lease 1 100).
  - cbn. lia.
  - by eexists.
Defined.

(** ** What the fragment tree holds *)

Lemma s32_range x : - 2 ^ 31 <= s32 x < 2 ^ 31.
Proof.
  unfold s32, u32. pose proof (Z.mod_pos_bound x (2 ^ 32) eq_refl).
  cbv zeta. case_match; lia.
Qed.

Lemma u32_neg x : - 2 ^ 32 <= x < 0 → u32 x = x + 2 ^ 32.
Proof.
  intros Hx. unfold u32. symmetry. apply Z.mod_unique with (q := -1); lia.
Qed.

Lemma s32_small x : - 2 ^ 31 <= x < 2 ^ 31 → s32 x = x.
Proof.
  intros Hx. unfold s32. cbv zeta. destruct (decide (0 <= x)).
  - unfold u32. rewrite Z.mod_small by lia. case_match; lia.
  - rewrite u32_neg by lia. case_match; lia.
Qed.

Lemma u32_s32_nonzero x : s32 x ≠ 0 → 0 < u32 (s32 x).
Proof.
  intros Hx. pose proof (s32_range x). destruct (decide (0 <= s32 x)).
  - unfold u32. rewrite Z.mod_small by lia. lia.
  - rewrite u32_neg by lia. lia.
Qed.

Section fragtree_facts.
Context `{headers}.

Lemma get_or_create_frag_cases tree f o :
  ∃ got o', __get_or_create_frag tree f o = Ret (got, o') ∧
    (got = None ∨
     (got = Some tree ∧ is_Some (tree !! f)) ∨
     (got = Some (<[f := new_frag f]> tree) ∧ tree !! f = None)).
Proof.
  unfold __get_or_create_frag. destruct (tree !! f) eqn:Hf.
  - eexists _, _. split; [done|]. right. left. eauto.
  - destruct o as [|[] o]; eexists _, _; (split; [done|]); eauto.
Qed.

(* Writing delegation info into the node of a frag gives the tree a reason
   to hold it. *)
Lemma alter_delegation_keeps (t : gmap Z ceph_inode_frag) id m n (d : ceph_inode_frag → list Z) :
  (∀ f fr, t !! f = Some fr → f ≠ id → frag_needed fr) →
  fragtree_split_signs t →
  0 <= m ∨ 0 < n →
  let t' := alter (λ fr, set_dist (d fr) (set_ndist n (set_mds m fr))) id t in
  fragtree_needed t' ∧ fragtree_split_signs t'.
Proof.
  intros Hn Hs Hmn t'. subst t'. split.
  - intros f fr. destruct (decide (f = id)) as [->|Hne].
    + rewrite lookup_alter_eq. destruct (t !! id) as [fr0|] eqn:Hf0; [|done].
      intros [= <-]. unfold frag_needed. fields. lia.
    + rewrite lookup_alter_ne by done. intros Hf. by apply (Hn f).
  - intros f fr. destruct (decide (f = id)) as [->|Hne].
    + rewrite lookup_alter_eq. destruct (t !! id) as [fr0|] eqn:Hf0; [|done].
      intros [= <-]. fields. by apply (Hs _ _ Hf0).
    + rewrite lookup_alter_ne by done. apply Hs.
Qed.

Lemma min_ndist_positive n :
  0 < MAX_DIRFRAG_REP < 2 ^ 31 → s32 n ≠ 0 →
  0 < s32 (min_t_u32 (s32 n) MAX_DIRFRAG_REP).
Proof.
  intros Hmax Hn. pose proof (u32_s32_nonzero n Hn) as Hu.
  unfold min_t_u32. unfold u32 at 2. rewrite (Z.mod_small MAX_DIRFRAG_REP) by lia.
  rewrite s32_small; lia.
Qed.

Lemma fill_dirfrag_keeps tree dirinfo o :
  0 < MAX_DIRFRAG_REP < 2 ^ 31 →
  fragtree_needed tree → fragtree_split_signs tree →
  ∃ err tree' o',
    ceph_fill_dirfrag tree dirinfo o = Ret ((err, tree'), o') ∧
    fragtree_needed tree' ∧ fragtree_split_signs tree' ∧
    (s32 (df_auth dirinfo) < 0 → s32 (df_ndist dirinfo) = 0 →
     ∀ fr, tree' !! df_frag dirinfo = Some fr →
           0 < split_by fr ∧ mds fr = -1 ∧ ndist fr = 0).
Proof.
  intros Hmax Hneed Hsign. unfold ceph_fill_dirfrag, __ceph_find_frag.
  set (id := df_frag dirinfo). set (m := s32 (df_auth dirinfo)).
  destruct ((m <? 0) && (s32 (df_ndist dirinfo) =? 0)) eqn:Hnone.
  - destruct (tree !! id) as [fr|] eqn:Hfr.
    + destruct (Z.eqb_spec (split_by fr) 0) as [Hleaf|Hbranch].
      * eexists _, _, _. split; [done|]. split_and!.
        -- by apply map_Forall_delete.
        -- by apply map_Forall_delete.
        -- intros _ _ fr'. by rewrite lookup_delete_eq.
      * pose proof (Hsign _ _ Hfr) as Hs. cbn in Hs.
        eexists _, _, _. split; [done|]. split_and!.
        -- apply map_Forall_insert_2; [|done]. left. fields. lia.
        -- apply map_Forall_insert_2; [|done]. fields. lia.
        -- intros _ _ fr'. rewrite lookup_insert_eq. intros [= <-]. fields. lia.
    + eexists _, _, _. split; [done|]. split_and!; [done..|].
      intros _ _ fr'. by rewrite Hfr.
  - assert (Hdeleg : 0 <= m ∨
              0 < s32 (min_t_u32 (s32 (df_ndist dirinfo)) MAX_DIRFRAG_REP)).
    { destruct (decide (0 <= m)); [by left|right].
      apply min_ndist_positive; [done|lia]. }
    assert (Hcond : s32 (df_auth dirinfo) < 0 → s32 (df_ndist dirinfo) = 0 → False).
    { fold m. lia. }
    unfold mbind at 1, kst_bind.
    destruct (get_or_create_frag_cases tree id o) as (got & o' & -> & Hgot).
    destruct Hgot as [->|[[-> Hsome]|[-> Hnew]]].
    + eexists _, _, _. split; [done|]. split_and!; [done..|]. intros; exfalso; auto.
    + eexists _, _, _. split; [done|].
      split_and!; [| |intros; exfalso; auto];
        apply alter_delegation_keeps; try done.
      all: intros f fr Hf _; by apply (Hneed f).
    + assert (Hs' : fragtree_split_signs (<[id := new_frag id]> tree)).
      { by apply map_Forall_insert_2. }
      eexists _, _, _. split; [done|].
      split_and!; [| |intros; exfalso; auto];
        apply alter_delegation_keeps; try done.
      all: intros f fr Hf Hne; rewrite lookup_insert_ne in Hf by done;
        by apply (Hneed f).
Qed.

Lemma fill_fragtree_splits_keeps splits :
  Forall (λ sp, 0 < s32 (fts_by sp)) splits →
  ∀ tree o, fragtree_needed tree → fragtree_split_signs tree →
  ∃ tree' o', fill_fragtree_splits splits tree o = Ret (tree', o') ∧
              fragtree_needed tree' ∧ fragtree_split_signs tree'.
Proof.
  induction 1 as [|sp splits Hby _ IH]; intros tree o Hneed Hsign.
  { by eexists _, _. }
  cbn [fill_fragtree_splits]. unfold mbind at 1, kst_bind.
  destruct (get_or_create_frag_cases tree (fts_frag sp) o) as (got & o' & -> & Hgot).
  assert (Hsplit : ∀ t : gmap Z ceph_inode_frag,
            (∀ f fr, t !! f = Some fr → f ≠ fts_frag sp → frag_needed fr) →
            fragtree_split_signs t →
            let t' := alter (set_split_by (s32 (fts_by sp))) (fts_frag sp) t in
            fragtree_needed t' ∧ fragtree_split_signs t').
  { intros t Hn Hs t'. subst t'.
    split; intros f fr; (destruct (decide (f = fts_frag sp)) as [->|Hne];
      [rewrite lookup_alter_eq; destruct (t !! fts_frag sp) as [fr0|] eqn:Hf0; [|done];
       intros [= <-]; unfold frag_needed; fields; lia
      |rewrite lookup_alter_ne by done]).
    - intros Hf. by apply (Hn f).
    - apply Hs. }
  destruct Hgot as [->|[[-> Hsome]|[-> Hnew]]].
  - by apply IH.
  - apply IH; apply Hsplit; try done.
    all: intros f fr Hf _; by apply (Hneed f).
  - assert (Hs' : fragtree_split_signs (<[fts_frag sp := new_frag (fts_frag sp)]> tree)).
    { by apply map_Forall_insert_2. }
    apply IH; apply Hsplit; try done.
    all: intros f fr Hf Hne; rewrite lookup_insert_ne in Hf by done;
      by apply (Hneed f).
Qed.

(** C7, as amended.  On a fragment tree whose nodes all are splits or carry
    delegation info, none with a negative split_by, ceph_fill_dirfrag and
    the merge of a reply's splits that all split by a positive number (as
    ceph_fill_inode does it) leave such a tree; after a ceph_fill_dirfrag
    without delegation info the frag has no node unless it is a split, whose
    delegation info is then cleared. *)
Theorem fragtree_holds_needed_nodes tree dirinfo splits o :
  0 < MAX_DIRFRAG_REP < 2 ^ 31 →
  fragtree_needed tree → fragtree_split_signs tree →
  Forall (λ sp, 0 < s32 (fts_by sp)) splits →
  (∃ err tree' o',
     ceph_fill_dirfrag tree dirinfo o = Ret ((err, tree'), o') ∧
     fragtree_needed tree' ∧ fragtree_split_signs tree' ∧
     (s32 (df_auth dirinfo) < 0 → s32 (df_ndist dirinfo) = 0 →
      ∀ fr, tree' !! df_frag dirinfo = Some fr →
            0 < split_by fr ∧ mds fr = -1 ∧ ndist fr = 0)) ∧
  (∃ tree' o', fill_fragtree_splits splits tree o = Ret (tree', o') ∧
               fragtree_needed tree' ∧ fragtree_split_signs tree').
Proof.
  intros Hmax Hneed Hsign Hby. split.
  - by apply fill_dirfrag_keeps.
  - by apply fill_fragtree_splits_keeps.
Qed.

End fragtree_facts.

(** C7, as stated, fails: a reply whose fragment tree lists the root as
    split by zero makes ceph_fill_inode store, in an empty tree, a node that
    is no split and carries no delegation info. *)
Lemma fill_inode_stores_bare_leaf :
  ∃ ci', ceph_fill_inode 0 0 zero_ci info_split_by_zero None [] = Ret ((0, ci'), []) ∧
         i_fragtree ci' !! 0 = Some (new_frag 0) ∧
         ¬ frag_needed (new_frag 0) ∧
         ¬ fragtree_needed (i_fragtree ci').
Proof.
  eexists. split; [vm_compute; reflexivity|].
  assert (Hbare : ¬ frag_needed (new_frag 0)).
  { unfold frag_needed. cbn. lia. }
  split_and!; [done|done|].
  intros Hall. apply Hbare. by apply (Hall 0).
Qed.

Lemma fragtree_holds_needed_nodes_witness :
  (∃ err tree' o',
     ceph_fill_dirfrag two_level_tree sample_dirfrag [] = Ret ((err, tree'), o') ∧
     fragtree_needed tree' ∧ fragtree_split_signs tree' ∧
     (s32 (df_auth sample_dirfrag) < 0 → s32 (df_ndist sample_dirfrag) = 0 →
      ∀ fr, tree' !! df_frag sample_dirfrag = Some fr →
            0 < split_by fr ∧ mds fr = -1 ∧ ndist fr = 0)) ∧
  (∃ tree' o', fill_fragtree_splits sample_splits two_level_tree [] = Ret (tree', o') ∧
               fragtree_needed tree' ∧ fragtree_split_signs tree').
Proof.
  apply (fragtree_holds_needed_nodes two_level_tree sample_dirfrag sample_splits []).
  - cbn. lia.
  - apply map_Forall_insert_2; [|apply map_Forall_singleton]; left; cbn; lia.
  - apply map_Forall_insert_2; [|apply map_Forall_singleton]; cbn; lia.
  - repeat constructor; by apply Z.ltb_lt.
Defined.

(** ** A reply of the same version *)

Section same_version.
Context `{headers}.

Lemma kmalloc_tail o : ∃ ok, kmalloc o = Ret (ok, tail o).
Proof. destruct o as [|ok o]; by eexists. Qed.

Lemma fill_fragtree_splits_total splits :
  ∀ tree o, ∃ tree' o', fill_fragtree_splits splits tree o = Ret (tree', o').
Proof.
  induction splits as [|sp splits IH]; intros tree o; [by eexists _, _|].
  cbn [fill_fragtree_splits]. unfold mbind at 1, kst_bind.
  destruct (get_or_create_frag_cases tree (fts_frag sp) o) as (got & o' & -> & _).
  destruct got; apply IH.
Qed.

Lemma fill_dirfrag_total tree d o :
  ∃ err tree' o', ceph_fill_dirfrag tree d o = Ret ((err, tree'), o').
Proof.
  unfold ceph_fill_dirfrag, __ceph_find_frag.
  destruct (_ && _).
  - repeat case_match; by eexists _, _, _.
  - unfold mbind at 1, kst_bind.
    destruct (get_or_create_frag_cases tree (df_frag d) o) as (got & o' & -> & _).
    destruct got; by eexists _, _, _.
Qed.

(* The switch on the file type writes the operation tables, the symlink
   and the directory statistics, and the size of a directory on a mount
   with the rbytes option; nothing else. *)
Lemma fill_inode_type_frame mount_flags iinfo ci o err ci' o' :
  fill_inode_type mount_flags iinfo ci o = Ret ((err, ci'), o') →
  cached_attrs ci' = cached_attrs ci ∧
  i_fragtree ci' = i_fragtree ci ∧
  i_size (vfs_inode ci') =
    (if (Z.land (i_mode (vfs_inode ci)) S_IFMT =? S_IFDIR) &&
        nonzero (Z.land mount_flags CEPH_MOUNT_RBYTES)
     then in_rbytes (info_in iinfo) else i_size (vfs_inode ci)).
Proof.
  unfold fill_inode_type.
  set (fmt := Z.land (i_mode (vfs_inode ci)) S_IFMT).
  destruct ((fmt =? S_IFIFO) || (fmt =? S_IFBLK) || (fmt =? S_IFCHR) ||
            (fmt =? S_IFSOCK)) eqn:Hspecial.
  { intros [= <- <- <-]. replace (fmt =? S_IFDIR) with false; [done|].
    unfold S_IFIFO, S_IFBLK, S_IFCHR, S_IFSOCK, S_IFDIR in *. lia. }
  destruct (Z.eqb_spec fmt S_IFREG) as [Hreg|_].
  { intros [= <- <- <-]. replace (fmt =? S_IFDIR) with false; [done|].
    unfold S_IFREG, S_IFDIR in *. lia. }
  destruct (Z.eqb_spec fmt S_IFLNK) as [Hlnk|_].
  { replace (fmt =? S_IFDIR) with false by (unfold S_IFLNK, S_IFDIR in *; lia).
    fields. destruct (i_symlink ci); [by intros [= <- <- <-]|].
    destruct (negb _); [done|].
    unfold mbind, kst_bind. destruct (kmalloc_tail o) as [[] ->];
      by intros [= <- <- <-]. }
  destruct (Z.eqb_spec fmt S_IFDIR) as [Hdir|_]; [|by intros [= <- <- <-]].
  cbn [andb]. destruct (nonzero _); by intros [= <- <- <-].
Qed.

Lemma fill_inode_type_total mount_flags iinfo ci o :
  ¬ (Z.land (i_mode (vfs_inode ci)) S_IFMT = S_IFLNK ∧ i_symlink ci = None ∧
     s32 (symlink_len iinfo) ≠ s64 (i_size (vfs_inode ci))) →
  ∃ err ci' o', fill_inode_type mount_flags iinfo ci o = Ret ((err, ci'), o').
Proof.
  intros Hlnk. unfold fill_inode_type.
  set (fmt := Z.land (i_mode (vfs_inode ci)) S_IFMT) in *.
  destruct (_ || _); [by eexists _, _, _|].
  destruct (fmt =? S_IFREG); [by eexists _, _, _|].
  destruct (Z.eqb_spec fmt S_IFLNK) as [Hl|_].
  - fields. destruct (i_symlink ci) eqn:Hsym; [by eexists _, _, _|].
    destruct (Z.eqb_spec (s32 (symlink_len iinfo)) (s64 (i_size (vfs_inode ci))))
      as [_|Hne]; [|by destruct Hlnk].
    cbn [negb]. unfold mbind, kst_bind.
    destruct (kmalloc_tail o) as [[] ->]; by eexists _, _, _.
  - destruct (fmt =? S_IFDIR); [|by eexists _, _, _].
    destruct (nonzero _); by eexists _, _, _.
Qed.

(* With the version unchanged, ceph_fill_inode comes down to the merge of
   the fragment tree followed by the switch on the file type. *)
Lemma fill_inode_same_version_steps mount_flags issued ci iinfo dirinfo o :
  in_version (info_in iinfo) > 0 →
  i_version ci = in_version (info_in iinfo) →
  ∃ t o2,
    merged_fragtree (i_fragtree ci) iinfo dirinfo (after_prealloc ci iinfo o)
      = Ret (t, o2) ∧
    ceph_fill_inode mount_flags issued ci iinfo dirinfo o
      = fill_inode_type mount_flags iinfo (set_i_fragtree t ci) o2.
Proof.
  intros Hpos Hsame. unfold ceph_fill_inode, merged_fragtree, after_prealloc.
  replace ((in_version (info_in iinfo) >? 0) &&
           (i_version ci =? in_version (info_in iinfo))) with true by lia.
  unfold mbind at 1, kst_bind at 1.
  assert (Hpre : ∃ b, (if nonzero (xattr_len iinfo) &&
                          negb (xattr_len iinfo =? i_xattr_len ci)
                       then kmalloc else mret false) o =
                      Ret (b, if nonzero (xattr_len iinfo) &&
                                 negb (xattr_len iinfo =? i_xattr_len ci)
                              then tail o else o)).
  { destruct (_ && _); [apply kmalloc_tail|by eexists]. }
  destruct Hpre as [b ->]. set (o1 := if _ && _ then tail o else o).
  unfold mbind at 1, kst_bind at 1. unfold mret at 1, kst_ret at 1.
  unfold mbind at 1, kst_bind at 1.
  destruct (fill_fragtree_splits_total (in_splits (info_in iinfo)) (i_fragtree ci) o1)
    as (t1 & o2 & ->).
  unfold mbind at 1, kst_bind at 1.
  destruct dirinfo as [d|].
  - unfold mbind at 1, kst_bind at 1. fields.
    destruct (fill_dirfrag_total t1 d o2) as (e & t2 & o3 & ->).
    unfold mret at 1, kst_ret at 1. cbn [snd]. eexists _, _. split; [done|].
    by destruct ci.
  - unfold mret at 1, kst_ret at 1. by eexists _, _.
Qed.

(** C8, as amended.  When the version of the reply is positive and is the
    version cached, ceph_fill_inode leaves mode, uid, gid, nlink, rdev,
    blocks, the timestamps, max_size, the layout, the xattr blob and the
    version as they were; the size as well, except that a directory on a
    mount with the rbytes option gets the recursive byte count of the reply
    as its size.  The fragment tree it leaves is the cached tree with the
    splits of the reply and then, if supplied, its dirfrag merged in.  The
    call returns unless the inode is a symlink without a target whose size
    is not the length of the target in the reply. *)
Theorem ceph_fill_inode_same_version mount_flags issued ci iinfo dirinfo o :
  in_version (info_in iinfo) > 0 →
  i_version ci = in_version (info_in iinfo) →
  (∀ err ci' o',
     ceph_fill_inode mount_flags issued ci iinfo dirinfo o = Ret ((err, ci'), o') →
     cached_attrs ci' = cached_attrs ci ∧
     i_size (vfs_inode ci') =
       (if (Z.land (i_mode (vfs_inode ci)) S_IFMT =? S_IFDIR) &&
           nonzero (Z.land mount_flags CEPH_MOUNT_RBYTES)
        then in_rbytes (info_in iinfo) else i_size (vfs_inode ci)) ∧
     ∃ o'', merged_fragtree (i_fragtree ci) iinfo dirinfo (after_prealloc ci iinfo o)
              = Ret (i_fragtree ci', o'')) ∧
  (¬ (Z.land (i_mode (vfs_inode ci)) S_IFMT = S_IFLNK ∧ i_symlink ci = None ∧
      s32 (symlink_len iinfo) ≠ s64 (i_size (vfs_inode ci))) →
   ∃ err ci' o',
     ceph_fill_inode mount_flags issued ci iinfo dirinfo o = Ret ((err, ci'), o')).
Proof.
  intros Hpos Hsame.
  destruct (fill_inode_same_version_steps mount_flags issued ci iinfo dirinfo o
              Hpos Hsame) as (t & o2 & Hmerge & ->).
  split.
  - intros err ci' o' Hty. apply fill_inode_type_frame in Hty as (Ha & Ht & Hs).
    rewrite Ha, Hs, Ht, Hmerge. fields. split_and!; [done|done|by eexists].
  - intros Hlnk. by apply fill_inode_type_total.
Qed.

End same_version.

(** C8, as stated, fails: for a directory on a mount with the rbytes option
    a reply of the cached version changes the size, here from 0 to the 4096
    recursive bytes it reports (and leaves i_blocks at 0). *)
Lemma fill_inode_same_version_resizes :
  in_version (info_in info_dir_v5) > 0 ∧
  i_version ci_dir_v5 = in_version (info_in info_dir_v5) ∧
  ∃ ci', ceph_fill_inode CEPH_MOUNT_RBYTES 0 ci_dir_v5 info_dir_v5 None []
           = Ret ((0, ci'), []) ∧
         i_size (vfs_inode ci_dir_v5) = 0 ∧
         i_size (vfs_inode ci') = 4096 ∧
         i_blocks (vfs_inode ci') = 0.
Proof.
  split; [done|]. split; [done|]. eexists. split; [vm_compute; reflexivity|done].
Qed.

Lemma ceph_fill_inode_same_version_witness :
  (∀ err ci' o',
     ceph_fill_inode 0 0 ci_dir_v5 info_dir_v5 (Some sample_dirfrag) []
       = Ret ((err, ci'), o') →
     cached_attrs ci' = cached_attrs ci_dir_v5 ∧
     i_size (vfs_inode ci') =
       (if (Z.land (i_mode (vfs_inode ci_dir_v5)) S_IFMT =? S_IFDIR) &&
           nonzero (Z.land 0 CEPH_MOUNT_RBYTES)
        then in_rbytes (info_in info_dir_v5) else i_size (vfs_inode ci_dir_v5)) ∧
     ∃ o'', merged_fragtree (i_fragtree ci_dir_v5) info_dir_v5 (Some sample_dirfrag)
              (after_prealloc ci_dir_v5 info_dir_v5 [])
              = Ret (i_fragtree ci', o'')) ∧
  (¬ (Z.land (i_mode (vfs_inode ci_dir_v5)) S_IFMT = S_IFLNK ∧
      i_symlink ci_dir_v5 = None ∧
      s32 (symlink_len info_dir_v5) ≠ s64 (i_size (vfs_inode ci_dir_v5))) →
   ∃ err ci' o',
     ceph_fill_inode 0 0 ci_dir_v5 info_dir_v5 (Some sample_dirfrag) []
       = Ret ((err, ci'), o')).
Proof.
  apply (ceph_fill_inode_same_version 0 0 ci_dir_v5 info_dir_v5
           (Some sample_dirfrag) []).
  - cbn. lia.
  - reflexivity.
Defined.

(** ** Extended attributes in the blob *)

Lemma blen_app (a b : list byte) : blen (a ++ b) = blen a + blen b.
Proof. unfold blen. rewrite length_app. lia. Qed.

Lemma blen_nonneg (a : list byte) : 0 <= blen a.
Proof. unfold blen. lia. Qed.

Lemma blen_le32 n : blen (le32 n) = 4.
Proof. unfold blen, le32. by rewrite length_le_split. Qed.

Lemma le_combine_le32 n : 0 <= n < 2 ^ 32 → le_combine (le32 n) = n.
Proof.
  intros Hn. unfold le32. rewrite le_combine_split.
  change (Z.of_nat 4 * 8) with 32. by apply Z.mod_small.
Qed.

Lemma bytes_at_app (pre x rest : list byte) :
  bytes_at (pre ++ x ++ rest) (blen pre) (blen x) = x.
Proof.
  unfold bytes_at, blen. rewrite !Nat2Z.id.
  rewrite drop_app_length. apply take_app_length.
Qed.

Lemma bytes_at_in (mem pre x rest : list byte) p n :
  mem = pre ++ x ++ rest → p = blen pre → n = blen x → bytes_at mem p n = x.
Proof. intros -> -> ->. apply bytes_at_app. Qed.

Lemma decode_32_safe_in (mem pre rest : list byte) n p end_ :
  mem = pre ++ le32 n ++ rest → p = blen pre → 0 <= n < 2 ^ 32 →
  p + 4 <= end_ →
  ceph_decode_32_safe mem p end_ = Some (n, p + 4).
Proof.
  intros Hmem Hp Hn Hend. unfold ceph_decode_32_safe, ceph_decode_32.
  replace (p + 4 >? end_) with false by lia.
  rewrite (bytes_at_in mem pre (le32 n) rest); [|done|done|by rewrite blen_le32].
  by rewrite le_combine_le32.
Qed.

Lemma decode_32_safe_short mem p end_ :
  end_ < p + 4 → ceph_decode_32_safe mem p end_ = None.
Proof.
  intros Hend. unfold ceph_decode_32_safe.
  by replace (p + 4 >? end_) with true by lia.
Qed.

Lemma length_list_byte_of_string s :
  length (list_byte_of_string s) = String.length s.
Proof.
  unfold list_byte_of_string. rewrite length_map.
  induction s as [|c s IH]; [done|]. cbn. by rewrite IH.
Qed.

Lemma blen_entry e :
  blen (xattr_entry_encode e) = 8 + blen e.1 + blen e.2.
Proof.
  unfold xattr_entry_encode, xattr_entry_head.
  rewrite !blen_app, !blen_le32. lia.
Qed.

(* One turn of the loop over an attribute that is entirely in the blob. *)
Lemma getxattr_scan_entry numattr mem pre e rest end_ name size :
  mem = pre ++ xattr_entry_encode e ++ rest →
  blen e.1 < 2 ^ 32 → blen e.2 < 2 ^ 32 →
  blen pre + blen (xattr_entry_encode e) <= end_ →
  getxattr_scan (S numattr) mem (blen pre) end_ name size =
  if bool_decide (e.1 = list_byte_of_string name) then
    Ret (if nonzero size && (size <? blen e.2) then (- ERANGE, None)
         else if size =? 0 then (s32 (blen e.2), None)
         else (s32 (blen e.2), Some e.2))
  else getxattr_scan numattr mem (blen (pre ++ xattr_entry_encode e)) end_ name size.
Proof.
  intros Hmem Hn1 Hn2 Hend. pose proof (blen_nonneg e.1). pose proof (blen_nonneg e.2).
  rewrite blen_entry in Hend. pose proof (blen_nonneg rest).
  assert (Hall : blen mem = blen pre + (blen e.1 + blen e.2 + 8) + blen rest).
  { rewrite Hmem, !blen_app, blen_entry. lia. }
  cbn [getxattr_scan].
  rewrite (decode_32_safe_in mem pre (e.1 ++ le32 (blen e.2) ++ e.2 ++ rest)
             (blen e.1)); [|by rewrite Hmem; unfold xattr_entry_encode,
             xattr_entry_head; rewrite <- !app_assoc|done|lia|lia].
  rewrite (bytes_at_in mem (pre ++ le32 (blen e.1)) e.1
             (le32 (blen e.2) ++ e.2 ++ rest)); [| |by rewrite blen_app, blen_le32|done].
  2: { rewrite Hmem. unfold xattr_entry_encode, xattr_entry_head.
       by rewrite <- !app_assoc. }
  rewrite (decode_32_safe_in mem (pre ++ le32 (blen e.1) ++ e.1) (e.2 ++ rest)
             (blen e.2)); [| |by rewrite !blen_app, blen_le32; lia|lia|lia].
  2: { rewrite Hmem. unfold xattr_entry_encode, xattr_entry_head.
       by rewrite <- !app_assoc. }
  unfold copy_from_blob. fold (blen mem).
  replace ((blen pre + 4 + blen e.1 + 4 + blen e.2 <=? end_) &&
           (blen pre + 4 + blen e.1 + 4 + blen e.2 <=? blen mem)) with true by lia.
  rewrite (bytes_at_in mem (pre ++ le32 (blen e.1) ++ e.1 ++ le32 (blen e.2)) e.2
             rest); [| |by rewrite !blen_app, !blen_le32; lia|done].
  2: { rewrite Hmem. unfold xattr_entry_encode, xattr_entry_head.
       by rewrite <- !app_assoc. }
  cbn [mbind kres_bind].
  case_bool_decide as Hhit.
  - rewrite Hhit at 1. unfold blen at 1. rewrite length_list_byte_of_string.
    assert (Z.of_nat (String.length name) = blen e.1) as Hlen.
    { rewrite Hhit. unfold blen. by rewrite length_list_byte_of_string. }
    rewrite Hlen. unfold u32. rewrite Z.mod_small by lia.
    rewrite Z.eqb_refl. cbn [andb]. by repeat case_match.
  - rewrite andb_false_r. f_equal. rewrite blen_app, blen_entry. lia.
Qed.

(* What the loop answers for a value found, as the code tests the size. *)
Lemma xattr_answer_code v size :
  0 <= size → blen v < 2 ^ 31 →
  (if nonzero size && (size <? blen v) then (- ERANGE, None)
   else if size =? 0 then (s32 (blen v), None)
   else (s32 (blen v), Some v)) = xattr_answer (Some v) size.
Proof.
  intros Hsize Hv. pose proof (blen_nonneg v). unfold xattr_answer, nonzero.
  rewrite s32_small by lia.
  destruct (Z.eqb_spec size 0) as [->|Hnz]; cbn [negb andb].
  - by rewrite bool_decide_eq_true_2.
  - rewrite bool_decide_eq_false_2 by done.
    destruct (Z.ltb_spec size (blen v)).
    + by rewrite bool_decide_eq_true_2.
    + by rewrite bool_decide_eq_false_2 by lia.
Qed.

Lemma entries_cons e l :
  xattr_entries_encode (e :: l) = xattr_entry_encode e ++ xattr_entries_encode l.
Proof. done. Qed.

Lemma entries_min l : 8 * Z.of_nat (length l) <= blen (xattr_entries_encode l).
Proof.
  induction l as [|e l IH]; [done|].
  rewrite entries_cons, blen_app, blen_entry. cbn [length].
  pose proof (blen_nonneg e.1). pose proof (blen_nonneg e.2). lia.
Qed.

(* The scan of a blob that holds all the attributes it announces. *)
Lemma getxattr_scan_whole name size l :
  0 <= size →
  ∀ mem pre beyond end_,
    mem = pre ++ xattr_entries_encode l ++ beyond →
    end_ = blen pre + blen (xattr_entries_encode l) →
    end_ < 2 ^ 31 →
    getxattr_scan (length l) mem (blen pre) end_ name size =
    Ret (xattr_answer (xattr_lookup (list_byte_of_string name) l) size).
Proof.
  intros Hsize. induction l as [|e l IH]; intros mem pre beyond end_ Hmem Hend Hsmall.
  { done. }
  rewrite entries_cons in Hmem, Hend. rewrite blen_app, blen_entry in Hend.
  pose proof (blen_nonneg pre). pose proof (blen_nonneg e.1).
  pose proof (blen_nonneg e.2). pose proof (blen_nonneg (xattr_entries_encode l)).
  cbn [length].
  rewrite (getxattr_scan_entry (length l) mem pre e (xattr_entries_encode l ++ beyond));
    [|by rewrite Hmem, <- app_assoc|lia|lia|rewrite blen_entry; lia].
  cbn [xattr_lookup]. case_bool_decide.
  - f_equal. apply xattr_answer_code; [done|lia].
  - apply (IH mem _ beyond); [by rewrite Hmem, <- !app_assoc| |done].
    rewrite blen_app, blen_entry. lia.
Qed.

(* The scan of a blob that stops inside the head of an attribute it
   announces, the name not being among the attributes before. *)
Lemma getxattr_scan_cut name size l :
  ∀ numattr mem pre cut beyond end_,
    mem = pre ++ xattr_entries_encode l ++ cut ++ beyond →
    end_ = blen pre + blen (xattr_entries_encode l) + blen cut →
    end_ < 2 ^ 31 →
    (length l < numattr)%nat →
    xattr_lookup (list_byte_of_string name) l = None →
    cut_in_head cut →
    getxattr_scan numattr mem (blen pre) end_ name size = Ret (- EIO, None).
Proof.
  induction l as [|e l IH];
    intros numattr mem pre cut beyond end_ Hmem Hend Hsmall Hnum Hlook Hcut.
  - destruct numattr as [|numattr]; [cbn in Hnum; lia|].
    cbn [xattr_entries_encode concat map app] in Hmem, Hend.
    cbn [getxattr_scan]. pose proof (blen_nonneg pre).
    destruct Hcut as [Hshort|(n & rest & -> & Hn & Hrest)].
    + rewrite decode_32_safe_short; [done|]. change (blen []) with 0 in Hend. lia.
    + rewrite blen_app, blen_le32 in Hend. change (blen []) with 0 in Hend.
      pose proof (blen_nonneg rest).
      rewrite (decode_32_safe_in mem pre (rest ++ beyond) n);
        [|by rewrite Hmem, <- app_assoc|done|done|lia].
      rewrite decode_32_safe_short; [done|lia].
  - destruct numattr as [|numattr]; [cbn in Hnum; lia|].
    rewrite entries_cons in Hmem, Hend. rewrite blen_app, blen_entry in Hend.
    pose proof (blen_nonneg pre). pose proof (blen_nonneg e.1).
    pose proof (blen_nonneg e.2). pose proof (blen_nonneg (xattr_entries_encode l)).
    pose proof (blen_nonneg cut).
    rewrite (getxattr_scan_entry numattr mem pre e
               (xattr_entries_encode l ++ cut ++ beyond));
      [|by rewrite Hmem, <- app_assoc|lia|lia|rewrite blen_entry; lia].
    cbn [xattr_lookup] in Hlook. case_bool_decide; [done|].
    apply (IH numattr mem _ cut beyond); [by rewrite Hmem, <- !app_assoc| |done| |done|done].
    + rewrite blen_app, blen_entry. lia.
    + cbn [length] in Hnum. lia.
Qed.

Section getxattr_facts.
Context `{headers} `{request_constants} `{host}.

(* Past the virtual names and the refresh of the cache, ceph_getxattr is
   the scan of the blob. *)
Lemma ceph_getxattr_scan sessions jiffies issued ci name size ci1 calls :
  _ceph_match_vir_xattr name = None →
  ceph_do_getattr sessions jiffies issued ci CEPH_STAT_MASK_XATTR
    = Ret (0, ci1, calls) →
  ceph_getxattr sessions jiffies issued ci name size =
  if i_xattr_len ci1 =? 0 then Ret (- ENODATA, None, ci1, calls)
  else match ceph_decode_32_safe (i_xattr_data ci1) 0 (i_xattr_len ci1) with
       | None => Ret (- EIO, None, ci1, calls)
       | Some (numattr, p) =>
           r ← getxattr_scan (Z.to_nat numattr) (i_xattr_data ci1) p
                 (i_xattr_len ci1) name size;
           Ret (r.1, r.2, ci1, calls)
       end.
Proof.
  intros Hvir Hget. unfold ceph_getxattr. rewrite Hvir, Hget.
  cbn [mbind kres_bind]. change (nonzero 0) with false. cbn iota.
  destruct (i_xattr_len ci1 =? 0); [done|].
  by destruct (ceph_decode_32_safe _ _ _) as [[]|].
Qed.

(** C9, as amended.  For a name that is not a virtual one, once the cache
    is refreshed without error: on a blob that is the encoding of a list of
    attributes, a name in the list gets the length of its value when the
    size is 0, Range and no copy when the size is positive and below that
    length, and otherwise the length with the value copied; a name not in
    the list gets NoData.  An empty blob gives NoData.  A blob that ends
    inside its count, or ends inside the length fields or the name of an
    attribute it announces when the name was not among the attributes
    before, gives IO. *)
Theorem ceph_getxattr_from_blob sessions jiffies issued ci name size ci1 calls :
  _ceph_match_vir_xattr name = None →
  ceph_do_getattr sessions jiffies issued ci CEPH_STAT_MASK_XATTR
    = Ret (0, ci1, calls) →
  0 <= size →
  (∀ l beyond,
     i_xattr_data ci1 = xattr_encode l ++ beyond →
     i_xattr_len ci1 = blen (xattr_encode l) →
     blen (xattr_encode l) < 2 ^ 31 →
     let r := xattr_answer (xattr_lookup (list_byte_of_string name) l) size in
     ceph_getxattr sessions jiffies issued ci name size = Ret (r.1, r.2, ci1, calls)) ∧
  (i_xattr_len ci1 = 0 →
   ceph_getxattr sessions jiffies issued ci name size
     = Ret (- ENODATA, None, ci1, calls)) ∧
  (∀ n l cut beyond,
     i_xattr_data ci1 = le32 n ++ xattr_entries_encode l ++ cut ++ beyond →
     i_xattr_len ci1 = blen (le32 n ++ xattr_entries_encode l ++ cut) →
     i_xattr_len ci1 < 2 ^ 31 →
     Z.of_nat (length l) < n < 2 ^ 32 →
     xattr_lookup (list_byte_of_string name) l = None →
     cut_in_head cut →
     ceph_getxattr sessions jiffies issued ci name size
       = Ret (- EIO, None, ci1, calls)) ∧
  (∀ cut beyond,
     i_xattr_data ci1 = cut ++ beyond →
     i_xattr_len ci1 = blen cut →
     0 < blen cut < 4 →
     ceph_getxattr sessions jiffies issued ci name size
       = Ret (- EIO, None, ci1, calls)).
Proof.
  intros Hvir Hget Hsize.
  rewrite (ceph_getxattr_scan sessions jiffies issued ci name size ci1 calls Hvir Hget).
  split_and!.
  - intros l beyond Hdata Hlen Hsmall. unfold xattr_encode in *.
    rewrite blen_app, blen_le32 in Hlen, Hsmall.
    pose proof (entries_min l).
    replace (i_xattr_len ci1 =? 0) with false by lia.
    rewrite (decode_32_safe_in (i_xattr_data ci1) [] (xattr_entries_encode l ++ beyond)
               (Z.of_nat (length l))); [|by rewrite Hdata, <- app_assoc|done|lia|lia].
    rewrite Nat2Z.id. cbv zeta.
    rewrite (getxattr_scan_whole name size l Hsize (i_xattr_data ci1)
               (le32 (Z.of_nat (length l))) beyond);
      [done|by rewrite Hdata, <- app_assoc|by rewrite blen_le32; lia|lia].
  - intros ->. done.
  - intros n l cut beyond Hdata Hlen Hsmall Hn Hlook Hcut.
    rewrite !blen_app, blen_le32 in Hlen.
    pose proof (blen_nonneg (xattr_entries_encode l)). pose proof (blen_nonneg cut).
    replace (i_xattr_len ci1 =? 0) with false by lia.
    rewrite (decode_32_safe_in (i_xattr_data ci1) []
               (xattr_entries_encode l ++ cut ++ beyond) n);
      [|done|done|lia|lia].
    cbv zeta.
    rewrite (getxattr_scan_cut name size l (Z.to_nat n) (i_xattr_data ci1)
               (le32 n) cut beyond); [done|done|by rewrite blen_le32; lia|lia|lia|done|done].
  - intros cut beyond Hdata Hlen Hcut.
    replace (i_xattr_len ci1 =? 0) with false by lia.
    rewrite decode_32_safe_short; [done|lia].
Qed.

End getxattr_facts.

Lemma short_blob_malformed : xattr_malformed short_blob.
Proof.
  intros l Heq. unfold short_blob, xattr_encode in Heq.
  apply app_inj_1 in Heq as [Hcount Hentries].
  2: { unfold le32. by rewrite !length_le_split. }
  pose proof (entries_min l) as Hmin. rewrite <- Hentries in Hmin.
  apply (f_equal le_combine) in Hcount. unfold le32 in Hcount.
  rewrite !le_combine_split in Hcount.
  change (2 `mod` 2 ^ (Z.of_nat 4 * 8)) with 2 in Hcount.
  change (blen (xattr_entries_encode one_xattr)) with 10 in Hmin.
  destruct l as [|e1 [|e2 l]]; cbn [length] in *; [done|done|lia].
Qed.

(** C9, as stated, fails on the malformed blob.  A blob that holds the
    attribute "a" and announces a second one that is not there is the
    encoding of no list of attributes, and a lookup of "a" returns the
    length of its value, not IO; a blob whose only attribute has a value cut
    short answers a lookup of another name with NoData, not IO. *)
Lemma getxattr_malformed_not_io :
  xattr_malformed short_blob ∧
  ceph_getxattr ∅ 0 0 (ci_with_blob short_blob) "a" 0
    = Ret (1, None, ci_with_blob short_blob, []) ∧
  ceph_getxattr ∅ 0 0 (ci_with_blob cut_value_blob) "b" 0
    = Ret (- ENODATA, None, ci_with_blob cut_value_blob, []).
Proof.
  split; [apply short_blob_malformed|]. split; vm_compute; reflexivity.
Qed.

Lemma ceph_getxattr_from_blob_witness :
  ceph_getxattr ∅ 0 0 (ci_with_blob (xattr_encode one_xattr)) "a" 1
    = Ret (1, Some (list_byte_of_string "x"),
           ci_with_blob (xattr_encode one_xattr), []).
Proof.
  apply (ceph_getxattr_from_blob ∅ 0 0 (ci_with_blob (xattr_encode one_xattr))
           "a" 1 (ci_with_blob (xattr_encode one_xattr)) [])
    with (l := one_xattr) (beyond := []).
  - reflexivity.
  - reflexivity.
  - lia.
  - reflexivity.
  - reflexivity.
  - reflexivity.
Defined.

(** ** Virtual extended attributes *)

Section virtual_facts.
Context `{headers} `{request_constants} `{host}.

(** C10.  For each name of the table of virtual attributes ceph_getxattr
    returns what the callback of the name returns: the length of a text
    formatted from the cached directory statistics alone, with as much of
    the text as fits in the caller's buffer.  The inode is left alone, no
    collaborator is called, and the result is never negative: a buffer
    shorter than the text gets the length the text would need, not Range. *)
Theorem ceph_getxattr_virtual sessions jiffies issued :
  Forall (λ rec,
    ∃ text : list Z * timespec → string,
      ∀ ci size,
        ceph_getxattr sessions jiffies issued ci (vx_name rec) size
          = Ret ((getxattr_cb rec ci size).1, (getxattr_cb rec ci size).2, ci, []) ∧
        getxattr_cb rec ci size = snprintf size (text (dir_stats ci)) ∧
        (getxattr_cb rec ci size).1 = Z.of_nat (String.length (text (dir_stats ci))) ∧
        (getxattr_cb rec ci size).1 ≠ - ERANGE)
    _ceph_vir_xattr_recs.
Proof.
  assert (Hlen : ∀ size s, (snprintf size s).1 ≠ - ERANGE).
  { intros size s. unfold snprintf, ERANGE. cbn [fst]. lia. }
  unfold _ceph_vir_xattr_recs. repeat apply Forall_cons_2; [..|apply Forall_nil_2].
  - exists (λ st, match st.1 with
                  | [f; s; rf; rs; rb] => fmt_lld (f + s) | _ => ""%string end).
    intros ci size. split_and!; [done|done|done|apply Hlen].
  - exists (λ st, match st.1 with
                  | [f; s; rf; rs; rb] => fmt_lld f | _ => ""%string end).
    intros ci size. split_and!; [done|done|done|apply Hlen].
  - exists (λ st, match st.1 with
                  | [f; s; rf; rs; rb] => fmt_lld s | _ => ""%string end).
    intros ci size. split_and!; [done|done|done|apply Hlen].
  - exists (λ st, match st.1 with
                  | [f; s; rf; rs; rb] => fmt_lld (rf + rs) | _ => ""%string end).
    intros ci size. split_and!; [done|done|done|apply Hlen].
  - exists (λ st, match st.1 with
                  | [f; s; rf; rs; rb] => fmt_lld rf | _ => ""%string end).
    intros ci size. split_and!; [done|done|done|apply Hlen].
  - exists (λ st, match st.1 with
                  | [f; s; rf; rs; rb] => fmt_lld s | _ => ""%string end).
    intros ci size. split_and!; [done|done|done|apply Hlen].
  - exists (λ st, match st.1 with
                  | [f; s; rf; rs; rb] => fmt_lld rb | _ => ""%string end).
    intros ci size. split_and!; [done|done|done|apply Hlen].
  - exists (λ st, fmt_lld (tv_sec st.2) +:+ "." +:+ fmt_lld (tv_nsec st.2)).
    intros ci size. split_and!; [done|done|done|apply Hlen].
Qed.

End virtual_facts.

(** * Further properties of the cache *)

(** ** Inode leases: renewal and validity *)

Lemma land_lor_within a b m : Z.land a m = m → Z.land (Z.lor a b) m = m.
Proof.
  intros Ha. apply Z.bits_inj'. intros i Hi.
  apply (f_equal (λ x, Z.testbit x i)) in Ha.
  rewrite Z.land_spec in Ha. rewrite Z.land_spec, Z.lor_spec.
  destruct (Z.testbit a i), (Z.testbit b i), (Z.testbit m i); done.
Qed.

Section lease_renewal.
Context `{headers}.

(* The two ways update_inode_lease ends for a nonzero mask: the lease is
   taken, or nothing changes and the mask returned is zero. *)
Lemma update_inode_lease_cases ci sessions lease session from_time m ci1 ss1 :
  lease_mask lease ≠ 0 →
  update_inode_lease ci sessions lease session from_time = Ret (m, ci1, ss1) →
  (m = 0 ∧ ci1 = ci ∧ ss1 = sessions) ∨
  (∃ s, sessions !! session = Some s ∧
        m = lease_mask lease ∧
        (i_lease_session ci = None ∨ i_lease_session ci = Some session) ∧
        (i_lease_ttl ci = 0 ∨
         time_before (lease_ttl lease from_time) (i_lease_ttl ci) = false ∨
         i_lease_gen ci ≠ s_cap_gen s) ∧
        i_lease_session ci1 = Some session ∧
        i_lease_ttl ci1 = lease_ttl lease from_time ∧
        i_lease_gen ci1 = s_cap_gen s ∧
        i_lease_mask ci1 = lease_mask lease ∧
        i_count (vfs_inode ci1) =
          i_count (vfs_inode ci) +
          match i_lease_session ci with Some _ => 0 | None => 1 end ∧
        ss1 = <[session := set_s_inode_leases
                  (list_move_tail (i_vino ci) (s_inode_leases s)) s]> sessions).
Proof.
  intros Hmask. unfold update_inode_lease.
  replace (lease_mask lease =? 0) with false by lia.
  set (ttl := lease_ttl lease from_time).
  assert (Hours : ∀ b : bool,
    (b && match i_lease_session ci with Some p => p =? session | None => true end) = true →
    b = true ∧ (i_lease_session ci = None ∨ i_lease_session ci = Some session)).
  { intros b Hb. apply andb_true_iff in Hb as [-> Hb]. split; [done|].
    destruct (i_lease_session ci) as [p|]; [|by left]. right. f_equal. lia. }
  destruct ((i_lease_ttl ci =? 0) || negb (time_before ttl (i_lease_ttl ci))) eqn:Hnew;
    cbn [mbind kres_bind].
  - destruct (true && _) eqn:Hacc.
    + apply Hours in Hacc as [_ Hsess]. unfold session_at.
      destruct (sessions !! session) as [s|] eqn:Hs; cbn [mbind kres_bind]; [|done].
      intros [= <- <- <-]. right. exists s.
      assert (i_lease_ttl ci = 0 ∨ time_before ttl (i_lease_ttl ci) = false ∨
              i_lease_gen ci ≠ s_cap_gen s) as Hwhy.
      { apply orb_true_iff in Hnew as [Hz|Hb]; [left; lia|right; left].
        by apply negb_true_iff. }
      destruct Hsess as [Hnone | Hsome].
      * rewrite Hnone, bool_decide_eq_true_2 by done. fields. rewrite ?Hnone.
        split_and!; auto.
      * rewrite Hsome, bool_decide_eq_false_2 by done. fields. rewrite ?Hsome.
        split_and!; auto. lia.
    + intros [= <- <- <-]. by left.
  - unfold session_at. destruct (sessions !! session) as [s|] eqn:Hs;
      cbn [mbind kres_bind]; [|done].
    destruct (negb (i_lease_gen ci =? s_cap_gen s) && _) eqn:Hacc.
    + apply Hours in Hacc as [Hgen Hsess].
      intros [= <- <- <-]. right. exists s.
      assert (i_lease_ttl ci = 0 ∨ time_before ttl (i_lease_ttl ci) = false ∨
              i_lease_gen ci ≠ s_cap_gen s) as Hwhy.
      { right. right. apply negb_true_iff in Hgen. lia. }
      destruct Hsess as [Hnone | Hsome].
      * rewrite Hnone, bool_decide_eq_true_2 by done. fields. rewrite ?Hnone.
        split_and!; auto.
      * rewrite Hsome, bool_decide_eq_false_2 by done. fields. rewrite ?Hsome.
        split_and!; auto. lia.
    + intros [= <- <- <-]. by left.
Qed.

(** X1.  A lease that update_inode_lease takes (it returns a nonzero mask) is
    valid, for every mask within the mask of the lease, at every time
    before the ttl computed from the reply and before the cap_ttl of the
    session. *)
Theorem taken_lease_is_valid ci sessions lease session from_time m ci1 ss1
    s jiffies issued mask :
  update_inode_lease ci sessions lease session from_time = Ret (m, ci1, ss1) →
  m ≠ 0 →
  sessions !! session = Some s →
  time_before jiffies (lease_ttl lease from_time) = true →
  time_before jiffies (s_cap_ttl s) = true →
  Z.land (lease_mask lease) mask = mask →
  ceph_inode_lease_valid ss1 jiffies issued ci1 mask = Ret true.
Proof.
  intros Hup Hm Hs Httl Hcap Hmask.
  assert (Hnz : lease_mask lease ≠ 0).
  { intros Hz. unfold update_inode_lease in Hup. rewrite Hz in Hup.
    cbn in Hup. by injection Hup as <- _ _. }
  apply update_inode_lease_cases in Hup as [(-> & _)|(s' & Hs' & _ & _ & _ & Hsess &
    Hl & Hg & Hma & _ & ->)]; [done| |done].
  simplify_eq. unfold ceph_inode_lease_valid, session_at, lease_havemask.
  rewrite Hsess. cbn [mbind kres_bind]. rewrite lookup_insert_eq.
  cbn [mbind kres_bind]. fields. rewrite Hg, Hl, Hma, Z.eqb_refl, Httl, Hcap.
  cbn [andb]. f_equal. apply Z.eqb_eq.
  repeat case_match; rewrite ?land_lor_within; done || by apply land_lor_within.
Qed.

(** X2.  update_inode_lease never touches the lease of an inode that holds
    one from another session, and never replaces a lease by one that ends
    earlier while the generation of the session is the one recorded: with a
    recorded ttl other than 0, the ttl after the call is not before the ttl
    before it. *)
Theorem lease_update_keeps_better ci sessions lease session from_time m ci1 ss1 :
  lease_mask lease ≠ 0 →
  update_inode_lease ci sessions lease session from_time = Ret (m, ci1, ss1) →
  (∀ p, i_lease_session ci = Some p → p ≠ session →
        m = 0 ∧ ci1 = ci ∧ ss1 = sessions) ∧
  (∀ s, sessions !! session = Some s → i_lease_gen ci = s_cap_gen s →
        i_lease_ttl ci ≠ 0 →
        time_before (i_lease_ttl ci1) (i_lease_ttl ci) = false).
Proof.
  intros Hmask Hup.
  apply update_inode_lease_cases in Hup as [(-> & -> & ->)|(s' & Hs' & _ & Hsess & Hnew &
    _ & Hl & _)]; [| |done].
  - split; [done|]. intros. apply time_before_irrefl.
  - split.
    + intros p Hp Hne. destruct Hsess; congruence.
    + intros s Hs Hgen Hz. simplify_eq. rewrite Hl.
      by destruct Hnew as [|[|]].
Qed.

(** X3.  update_inode_lease takes a reference on the inode exactly when it
    attaches a lease to an inode that had none: the count goes up by one in
    that case and is unchanged in every other; after a lease is taken the
    inode is the last entry of the session's list and occurs in it once. *)
Theorem lease_update_reference ci sessions lease session from_time m ci1 ss1 :
  lease_mask lease ≠ 0 →
  update_inode_lease ci sessions lease session from_time = Ret (m, ci1, ss1) →
  i_count (vfs_inode ci1) =
    i_count (vfs_inode ci) +
    (if bool_decide (m ≠ 0 ∧ i_lease_session ci = None) then 1 else 0) ∧
  (m ≠ 0 →
   ∃ s1 before, ss1 !! session = Some s1 ∧
                s_inode_leases s1 = before ++ [i_vino ci] ∧
                i_vino ci ∉ before).
Proof.
  intros Hmask Hup.
  apply update_inode_lease_cases in Hup as [(-> & -> & ->)|(s & Hs & -> & _ & _ &
    _ & _ & _ & _ & Hcount & ->)]; [| |done].
  - rewrite bool_decide_eq_false_2 by (by intros [? _]). split; [lia|done].
  - split.
    + rewrite Hcount. destruct (i_lease_session ci).
      * by rewrite bool_decide_eq_false_2 by (by intros [_ ?]).
      * by rewrite bool_decide_eq_true_2.
    + intros _. eexists _, _. rewrite lookup_insert_eq. split; [done|].
      split; [done|]. intros Hin. apply list_elem_of_filter in Hin as [Hne _]. done.
Qed.

End lease_renewal.

Lemma taken_lease_is_valid_witness :
  ceph_inode_lease_valid lease_taken.2 200 0 lease_taken.1.2 4 = Ret true.
Proof.
  apply (taken_lease_is_valid zero_ci {[ 1 := session_gen8 ]} sample_lease 1 100
           lease_taken.1.1 lease_taken.1.2 lease_taken.2 session_gen8 200 0 4).
  - reflexivity.
  - vm_compute. discriminate.
  - reflexivity.
  - reflexivity.
  - reflexivity.
  - reflexivity.
Defined.

Lemma lease_update_keeps_better_witness :
  (lease_refused.1.1 = 0 ∧ lease_refused.1.2 = ci_lease_other ∧
   lease_refused.2 = {[ 1 := session_gen8 ]}) ∧
  time_before (i_lease_ttl lease_renewed.1.2) (i_lease_ttl ci_lease_gen8) = false.
Proof.
  split.
  - apply (proj1 (lease_update_keeps_better ci_lease_other {[ 1 := session_gen8 ]}
                    sample_lease 1 100 lease_refused.1.1 lease_refused.1.2
                    lease_refused.2 ltac:(vm_compute; discriminate) eq_refl) 2).
    + reflexivity.
    + discriminate.
  - apply (proj2 (lease_update_keeps_better ci_lease_gen8 {[ 1 := session_gen8 ]}
                    sample_lease 1 100 lease_renewed.1.1 lease_renewed.1.2
                    lease_renewed.2 ltac:(vm_compute; discriminate) eq_refl)
             session_gen8).
    + reflexivity.
    + reflexivity.
    + vm_compute. discriminate.
Defined.

Lemma lease_update_reference_witness :
  i_count (vfs_inode lease_taken.1.2) =
    i_count (vfs_inode zero_ci) +
    (if bool_decide (lease_taken.1.1 ≠ 0 ∧ i_lease_session zero_ci = None)
     then 1 else 0) ∧
  (lease_taken.1.1 ≠ 0 →
   ∃ s1 before, lease_taken.2 !! 1 = Some s1 ∧
                s_inode_leases s1 = before ++ [i_vino zero_ci] ∧
                i_vino zero_ci ∉ before).
Proof.
  apply (lease_update_reference zero_ci {[ 1 := session_gen8 ]} sample_lease 1 100
           lease_taken.1.1 lease_taken.1.2 lease_taken.2).
  - vm_compute. discriminate.
  - reflexivity.
Defined.

(** ** Sizes, blocks and timestamps *)

Lemma s64_small x : - 2 ^ 63 <= x < 2 ^ 63 → s64 x = x.
Proof.
  intros Hx. unfold s64, u64. cbv zeta. destruct (decide (0 <= x)).
  - rewrite Z.mod_small by lia. case_match; lia.
  - replace (x mod 2 ^ 64) with (x + 2 ^ 64);
      [case_match; lia|].
    apply Z.mod_unique with (q := -1); lia.
Qed.

(** X4.  Where the code recomputes i_blocks it gets ceil(size / 512) as long
    as size + 511 fits the type: ceph_fill_file_bits, when it takes the size
    of the reply, for sizes up to 2^64 - 512, and ceph_inode_set_size for
    sizes up to 2^63 - 512.  From 2^64 - 511 on the sum wraps and the
    reconciler leaves i_blocks at 0. *)
Theorem recomputed_blocks `{headers} issued ts size tw ctime mtime atime ci :
  0 <= size →
  (size <= 2 ^ 64 - 512 → mds_size_wins ts size ci →
   let ci' := ceph_fill_file_bits issued ts size tw ctime mtime atime ci in
   i_size (vfs_inode ci') = size ∧
   i_blocks (vfs_inode ci') = ceil_blocks size) ∧
  (size <= 2 ^ 63 - 512 →
   let ci' := (ceph_inode_set_size ci size).1 in
   i_size (vfs_inode ci') = size ∧
   i_blocks (vfs_inode ci') = ceil_blocks size) ∧
  (2 ^ 64 - 512 < size < 2 ^ 64 → mds_size_wins ts size ci →
   i_blocks (vfs_inode (ceph_fill_file_bits issued ts size tw ctime mtime atime ci))
     = 0).
Proof.
  intros Hsize.
  pose proof (fill_file_bits_size_fields issued ts size tw ctime mtime atime ci) as Hf.
  cbv zeta in Hf. destruct Hf as (Hs & Hb & _).
  assert (Hshift : ∀ x, Z.shiftr x 9 = x / 512).
  { intros x. by rewrite Z.shiftr_div_pow2. }
  split_and!.
  - intros Hfit Hwins. cbv zeta. rewrite Hs, Hb.
    rewrite bool_decide_eq_true_2 by done. fields. split; [done|].
    unfold size_to_blocks, ceil_blocks, u64. rewrite Hshift.
    change (Z.shiftl 1 9) with 512. rewrite Z.mod_small by lia. f_equal. lia.
  - intros Hfit. cbv zeta. unfold ceph_inode_set_size.
    assert (Hfields : ∀ c : bool, i_size (vfs_inode (if c then
        (upd_inode (λ i, set_i_blocks (loff_to_blocks size) (set_i_size (u64 size) i)) ci,
         [CheckCaps]) else
        (upd_inode (λ i, set_i_blocks (loff_to_blocks size) (set_i_size (u64 size) i)) ci,
         [])).1) = u64 size ∧
      i_blocks (vfs_inode (if c then
        (upd_inode (λ i, set_i_blocks (loff_to_blocks size) (set_i_size (u64 size) i)) ci,
         [CheckCaps]) else
        (upd_inode (λ i, set_i_blocks (loff_to_blocks size) (set_i_size (u64 size) i)) ci,
         [])).1) = loff_to_blocks size).
    { by intros []. }
    destruct (Hfields ((u64 (Z.shiftl size 1) >=?
        i_max_size (upd_inode (λ i, set_i_blocks (loff_to_blocks size)
                                      (set_i_size (u64 size) i)) ci)) &&
      (u64 (Z.shiftl (i_reported_size (upd_inode (λ i, set_i_blocks (loff_to_blocks size)
                                      (set_i_size (u64 size) i)) ci)) 1) <?
        i_max_size (upd_inode (λ i, set_i_blocks (loff_to_blocks size)
                                      (set_i_size (u64 size) i)) ci))))
      as [-> ->].
    unfold u64 at 1. rewrite Z.mod_small by lia. split; [done|].
    unfold loff_to_blocks, ceil_blocks. change (Z.shiftl 1 9) with 512.
    rewrite (s64_small size) by lia. rewrite s64_small by lia.
    rewrite Hshift. unfold u64. rewrite Z.mod_small; [f_equal; lia|].
    split; [apply Z.div_pos; lia|]. apply Z.div_lt_upper_bound; lia.
  - intros Hwrap Hwins. rewrite Hb. rewrite bool_decide_eq_true_2 by done. fields.
    unfold size_to_blocks, u64. rewrite Hshift. change (Z.shiftl 1 9) with 512.
    replace ((size + 512 - 1) mod 2 ^ 64) with (size + 511 - 2 ^ 64).
    + apply Z.div_small. lia.
    + apply Z.mod_unique with (q := 1); lia.
Qed.

Lemma recomputed_blocks_witness :
  (1000 <= 2 ^ 64 - 512 → mds_size_wins 4 1000 zero_ci →
   let ci' := ceph_fill_file_bits 0 4 1000 0 zero_time zero_time zero_time zero_ci in
   i_size (vfs_inode ci') = 1000 ∧
   i_blocks (vfs_inode ci') = ceil_blocks 1000) ∧
  (1000 <= 2 ^ 63 - 512 →
   let ci' := (ceph_inode_set_size zero_ci 1000).1 in
   i_size (vfs_inode ci') = 1000 ∧
   i_blocks (vfs_inode ci') = ceil_blocks 1000) ∧
  (2 ^ 64 - 512 < 1000 < 2 ^ 64 → mds_size_wins 4 1000 zero_ci →
   i_blocks (vfs_inode (ceph_fill_file_bits 0 4 1000 0 zero_time zero_time
                          zero_time zero_ci)) = 0).
Proof.
  apply (recomputed_blocks 0 4 1000 0 zero_time zero_time zero_time zero_ci). lia.
Defined.

(** X5.  A pending truncation is applied once: __ceph_do_pending_vmtruncate
    asks for the pages to be truncated exactly when a target of 0 or more
    is pending, asks for a cap check after it exactly when no buffered
    write holds a reference, and leaves no truncation pending, so that a
    second call asks for nothing and changes nothing. *)
Theorem pending_vmtruncate_once ci :
  let r := __ceph_do_pending_vmtruncate ci in
  i_vmtruncate_to r.1 = -1 ∧
  __ceph_do_pending_vmtruncate r.1 = (r.1, []) ∧
  r.2 = (if bool_decide (0 <= i_vmtruncate_to ci)
         then TruncatePages (i_vmtruncate_to ci) ::
              (if bool_decide (i_wrbuffer_ref ci = 0) then [CheckCaps] else [])
         else []).
Proof.
  cbv zeta. unfold __ceph_do_pending_vmtruncate.
  destruct (Z.geb_spec (i_vmtruncate_to ci) 0).
  - rewrite bool_decide_eq_true_2 by lia. cbn [fst snd]. fields.
    split_and!; [done|by destruct ci|].
    destruct (Z.eqb_spec (i_wrbuffer_ref ci) 0).
    + by rewrite bool_decide_eq_true_2.
    + by rewrite bool_decide_eq_false_2.
  - rewrite bool_decide_eq_false_2 by lia. cbn [fst snd]. fields.
    split_and!; [done|by destruct ci|done].
Qed.

Section timestamp_facts.
Context `{headers}.

Lemma timespec_compare_refl t : timespec_compare t t = 0.
Proof.
  unfold timespec_compare. rewrite Z.ltb_irrefl.
  replace (tv_sec t >? tv_sec t) with false by lia. lia.
Qed.

(** X6.  While a write cap is issued the reconciler never moves a timestamp
    backward unless the reply carries a higher time_warp_seq: with EXCL
    issued mtime and atime are left alone and ctime only moves forward;
    with WR or WRBUFFER issued and a time_warp_seq not above the cached one
    each of ctime, mtime and atime is the cached one or a later one. *)
Theorem write_caps_keep_times issued ts size tw ctime mtime atime ci :
  nonzero (Z.land issued CEPH_CAP_EXCL) = true ∨
  (nonzero (Z.land issued (Z.lor CEPH_CAP_WR CEPH_CAP_WRBUFFER)) = true ∧
   tw <= i_time_warp_seq ci) →
  let ci' := ceph_fill_file_bits issued ts size tw ctime mtime atime ci in
  timespec_compare (i_ctime (vfs_inode ci')) (i_ctime (vfs_inode ci)) >= 0 ∧
  timespec_compare (i_mtime (vfs_inode ci')) (i_mtime (vfs_inode ci)) >= 0 ∧
  timespec_compare (i_atime (vfs_inode ci')) (i_atime (vfs_inode ci)) >= 0 ∧
  (nonzero (Z.land issued CEPH_CAP_EXCL) = true →
   i_mtime (vfs_inode ci') = i_mtime (vfs_inode ci) ∧
   i_atime (vfs_inode ci') = i_atime (vfs_inode ci)).
Proof.
  intros Hcaps. cbv zeta. unfold ceph_fill_file_bits.
  set (ci0 := if _ || _ then _ else ci).
  assert (Hsame : i_ctime (vfs_inode ci0) = i_ctime (vfs_inode ci) ∧
                  i_mtime (vfs_inode ci0) = i_mtime (vfs_inode ci) ∧
                  i_atime (vfs_inode ci0) = i_atime (vfs_inode ci) ∧
                  i_time_warp_seq ci0 = i_time_warp_seq ci).
  { subst ci0. by destruct (_ || _). }
  destruct Hsame as (Hc & Hm & Ha & Hw). clearbody ci0.
  destruct (nonzero (Z.land issued CEPH_CAP_EXCL)) eqn:Hexcl.
  - destruct (Z.gtb_spec (timespec_compare ctime (i_ctime (vfs_inode ci0))) 0);
      fields; rewrite <- ?Hc, <- ?Hm, <- ?Ha, ?timespec_compare_refl;
      split_and!; done || lia.
  - destruct Hcaps as [|[Hwr Htw]]; [done|]. rewrite Hwr, Hw.
    replace (tw >? i_time_warp_seq ci) with false by lia.
    destruct (Z.eqb_spec tw (i_time_warp_seq ci)) as [_|_].
    2: { rewrite <- Hc, <- Hm, <- Ha, !timespec_compare_refl. split_and!; done || lia. }
    rewrite <- Hc, <- Hm, <- Ha.
    destruct (Z.gtb_spec (timespec_compare ctime (i_ctime (vfs_inode ci0))) 0);
      fields;
      destruct (Z.gtb_spec (timespec_compare mtime (i_mtime (vfs_inode ci0))) 0);
      fields;
      destruct (Z.gtb_spec (timespec_compare atime (i_atime (vfs_inode ci0))) 0);
      fields; rewrite ?timespec_compare_refl; split_and!; done || lia.
Qed.

End timestamp_facts.

Lemma write_caps_keep_times_witness :
  let ci' := ceph_fill_file_bits CEPH_CAP_WR 0 0 5 time_40 time_40 time_40
               ci_time_50 in
  timespec_compare (i_ctime (vfs_inode ci')) (i_ctime (vfs_inode ci_time_50)) >= 0 ∧
  timespec_compare (i_mtime (vfs_inode ci')) (i_mtime (vfs_inode ci_time_50)) >= 0 ∧
  timespec_compare (i_atime (vfs_inode ci')) (i_atime (vfs_inode ci_time_50)) >= 0 ∧
  (nonzero (Z.land CEPH_CAP_WR CEPH_CAP_EXCL) = true →
   i_mtime (vfs_inode ci') = i_mtime (vfs_inode ci_time_50) ∧
   i_atime (vfs_inode ci') = i_atime (vfs_inode ci_time_50)).
Proof.
  apply (write_caps_keep_times CEPH_CAP_WR 0 0 5 time_40 time_40 time_40 ci_time_50).
  right. split; [reflexivity|]. cbn. lia.
Defined.

(** ** Writing and listing extended attributes *)

Section xattr_write_facts.
Context `{headers} `{request_constants} `{host}.

(** X7.  ceph_setxattr and ceph_removexattr turn a request down before
    anything is allocated or sent: on a snapshot inode with EROFS, and on a
    live inode with EOPNOTSUPP when the name does not begin with "user." or
    is one of the virtual names, each of which is turned down.  The inode
    is left as it was. *)
Theorem xattr_writes_refused ci name size flags o :
  snap (i_vino ci) ≠ CEPH_NOSNAP ∨
  String.prefix "user." name = false ∨
  is_Some (_ceph_match_vir_xattr name) →
  (∃ err, ceph_setxattr ci name size flags o = Ret ((err, ci, []), o) ∧
          ceph_removexattr ci name = (err, ci, []) ∧
          err = (if bool_decide (snap (i_vino ci) = CEPH_NOSNAP)
                 then - EOPNOTSUPP else - EROFS)) ∧
  Forall (λ rec, String.prefix "user." (vx_name rec) = true ∧
                 _ceph_match_vir_xattr (vx_name rec) = Some rec)
         _ceph_vir_xattr_recs.
Proof.
  intros Hwhy. split.
  - unfold ceph_setxattr, ceph_removexattr.
    destruct (Z.eqb_spec (snap (i_vino ci)) CEPH_NOSNAP) as [Hlive|Hsnap]; cbn [negb].
    + rewrite (bool_decide_eq_true_2 (snap (i_vino ci) = CEPH_NOSNAP)) by done.
      destruct Hwhy as [|[Hpre|Hvir]]; [done| |].
      * rewrite Hpre. by eexists.
      * destruct (String.prefix "user." name); cbn [negb]; [|by eexists].
        rewrite (bool_decide_eq_true_2 (is_Some _)) by done. by eexists.
    + rewrite (bool_decide_eq_false_2 (snap (i_vino ci) = CEPH_NOSNAP)) by done.
      by eexists.
  - unfold _ceph_vir_xattr_recs. repeat apply Forall_cons_2; by try apply Forall_nil_2.
Qed.

End xattr_write_facts.

Lemma xattr_writes_refused_witness :
  (∃ err, ceph_setxattr zero_ci "user.ceph.dir.rbytes" 1 0 [] = Ret ((err, zero_ci, []), []) ∧
          ceph_removexattr zero_ci "user.ceph.dir.rbytes" = (err, zero_ci, []) ∧
          err = (if bool_decide (snap (i_vino zero_ci) = CEPH_NOSNAP)
                 then - EOPNOTSUPP else - EROFS)) ∧
  Forall (λ rec, String.prefix "user." (vx_name rec) = true ∧
                 _ceph_match_vir_xattr (vx_name rec) = Some rec)
         _ceph_vir_xattr_recs.
Proof.
  apply (xattr_writes_refused zero_ci "user.ceph.dir.rbytes" 1 0 []).
  right. right. by eexists.
Defined.

(* The first pass of ceph_listxattr over a blob that holds all the
   attributes it announces adds up the lengths of the names and a NUL for
   each. *)
Lemma listxattr_measure_whole l :
  ∀ mem pre beyond end_ acc,
    mem = pre ++ xattr_entries_encode l ++ beyond →
    end_ = blen pre + blen (xattr_entries_encode l) →
    end_ < 2 ^ 31 →
    0 <= acc → acc + blen (xattr_names l) < 2 ^ 31 →
    listxattr_measure (length l) mem (blen pre) end_ acc =
    Some (acc + blen (xattr_names l)).
Proof.
  induction l as [|e l IH]; intros mem pre beyond end_ acc Hmem Hend Hsmall Hacc Hsum.
  { cbn [length listxattr_measure]. change (blen (xattr_names [])) with 0.
    by rewrite Z.add_0_r. }
  rewrite entries_cons in Hmem, Hend. rewrite blen_app, blen_entry in Hend.
  assert (Hnames : blen (xattr_names (e :: l)) = blen e.1 + 1 + blen (xattr_names l)).
  { unfold xattr_names. cbn [map concat]. rewrite !blen_app. done. }
  rewrite Hnames in *.
  pose proof (blen_nonneg pre). pose proof (blen_nonneg e.1).
  pose proof (blen_nonneg e.2). pose proof (blen_nonneg (xattr_entries_encode l)).
  pose proof (blen_nonneg (xattr_names l)).
  cbn [length listxattr_measure].
  rewrite (decode_32_safe_in mem pre
             (e.1 ++ le32 (blen e.2) ++ e.2 ++ xattr_entries_encode l ++ beyond)
             (blen e.1)); [| |done|lia|lia].
  2: { rewrite Hmem. unfold xattr_entry_encode, xattr_entry_head.
       by rewrite <- !app_assoc. }
  rewrite (decode_32_safe_in mem (pre ++ le32 (blen e.1) ++ e.1)
             (e.2 ++ xattr_entries_encode l ++ beyond) (blen e.2));
    [| |by rewrite !blen_app, blen_le32; lia|lia|lia].
  2: { rewrite Hmem. unfold xattr_entry_encode, xattr_entry_head.
       by rewrite <- !app_assoc. }
  rewrite s32_small by lia.
  replace (blen pre + 4 + blen e.1 + 4 + blen e.2)
    with (blen (pre ++ xattr_entry_encode e)) by (rewrite blen_app, blen_entry; lia).
  rewrite (IH mem _ beyond end_); [f_equal; lia|by rewrite Hmem, <- !app_assoc| |done|lia|lia].
  rewrite blen_app, blen_entry. lia.
Qed.

(* The second pass copies the names out in order. *)
Lemma listxattr_copy_whole l :
  ∀ mem pre beyond,
    mem = pre ++ xattr_entries_encode l ++ beyond →
    blen (xattr_entries_encode l) < 2 ^ 32 →
    listxattr_copy (length l) mem (blen pre) = xattr_names l.
Proof.
  induction l as [|e l IH]; intros mem pre beyond Hmem Hsmall; [done|].
  rewrite entries_cons in Hmem, Hsmall. rewrite blen_app, blen_entry in Hsmall.
  pose proof (blen_nonneg e.1). pose proof (blen_nonneg e.2).
  pose proof (blen_nonneg (xattr_entries_encode l)).
  assert (Hflat : mem = pre ++ le32 (blen e.1) ++ e.1 ++ le32 (blen e.2) ++ e.2
                         ++ xattr_entries_encode l ++ beyond).
  { rewrite Hmem. unfold xattr_entry_encode, xattr_entry_head.
    by rewrite <- !app_assoc. }
  assert (Hlen : le_combine (bytes_at mem (blen pre) 4) = blen e.1).
  { rewrite (bytes_at_in mem pre (le32 (blen e.1)) _ _ _ Hflat eq_refl)
      by (by rewrite blen_le32).
    apply le_combine_le32; lia. }
  assert (Hvlen : le_combine (bytes_at mem (blen pre + 4 + blen e.1) 4) = blen e.2).
  { rewrite (bytes_at_in mem (pre ++ le32 (blen e.1) ++ e.1) (le32 (blen e.2))
               (e.2 ++ xattr_entries_encode l ++ beyond)).
    - apply le_combine_le32; lia.
    - by rewrite Hflat, <- !app_assoc.
    - rewrite !blen_app, blen_le32; lia.
    - by rewrite blen_le32. }
  cbn [length listxattr_copy]. unfold ceph_decode_32.
  rewrite Hlen, Hvlen.
  rewrite (bytes_at_in mem (pre ++ le32 (blen e.1)) e.1
             (le32 (blen e.2) ++ e.2 ++ xattr_entries_encode l ++ beyond));
    [|by rewrite Hflat, <- !app_assoc|by rewrite blen_app, blen_le32|done].
  replace (blen pre + 4 + blen e.1 + 4 + blen e.2)
    with (blen (pre ++ xattr_entry_encode e)) by (rewrite blen_app, blen_entry; lia).
  rewrite (IH mem _ beyond); [|by rewrite Hmem, <- !app_assoc|lia].
  unfold xattr_names. cbn [map concat]. by rewrite <- !app_assoc.
Qed.

Lemma vir_xattr_names_measure : vir_xattr_names_len = blen vir_xattr_names.
Proof. reflexivity. Qed.

Lemma listxattr_answer_code out size :
  0 <= size → blen out < 2 ^ 31 →
  ∀ (A : Type) (k : Z * option (list byte) → A),
  (if nonzero size && (u64 (blen out) >? size) then k (- ERANGE, None)
   else if size =? 0 then k (blen out, None)
   else k (blen out, Some out)) = k (listxattr_answer out size).
Proof.
  intros Hsize Hout A k. pose proof (blen_nonneg out).
  unfold listxattr_answer, nonzero, u64. rewrite Z.mod_small by lia.
  destruct (Z.eqb_spec size 0) as [->|Hnz]; cbn [negb andb].
  - by rewrite bool_decide_eq_true_2.
  - rewrite bool_decide_eq_false_2 by done.
    destruct (Z.gtb_spec (blen out) size).
    + by rewrite bool_decide_eq_true_2.
    + by rewrite bool_decide_eq_false_2 by lia.
Qed.

Section listxattr_facts.
Context `{headers} `{request_constants} `{host}.

(** X8.  With no xattr blob cached, ceph_listxattr on a directory lists the
    eight virtual names in the order of the table, each followed by a NUL:
    it returns their total length for a size of 0, Range for a positive
    size below it, and otherwise the length with the names written.  On
    another inode it returns 0, and for a positive size writes a single
    NUL. *)
Theorem ceph_listxattr_no_blob sessions jiffies issued ci size ci1 calls :
  ceph_do_getattr sessions jiffies issued ci CEPH_STAT_MASK_XATTR
    = Ret (0, ci1, calls) →
  i_xattr_len ci1 = 0 →
  0 <= size →
  ceph_listxattr sessions jiffies issued ci size =
  if Z.land (i_mode (vfs_inode ci1)) S_IFMT =? S_IFDIR then
    Ret ((listxattr_answer vir_xattr_names size).1,
         (listxattr_answer vir_xattr_names size).2, ci1, calls)
  else
    Ret (0, if bool_decide (size = 0) then None else Some [Byte.x00], ci1, calls).
Proof.
  intros Hget Hlen Hsize. unfold ceph_listxattr. rewrite Hget.
  cbn [mbind kres_bind]. change (nonzero 0) with false. cbn iota.
  rewrite Hlen. change (nonzero 0) with false. cbn iota.
  destruct (_ =? S_IFDIR).
  - change (s32 (0 + vir_xattr_names_len)) with (blen vir_xattr_names).
    exact (listxattr_answer_code vir_xattr_names size Hsize eq_refl _
             (λ r, Ret (r.1, r.2, ci1, calls))).
  - change (u64 0) with 0. replace (0 >? size) with false by lia.
    rewrite andb_false_r. destruct (Z.eqb_spec size 0).
    + by rewrite bool_decide_eq_true_2.
    + by rewrite bool_decide_eq_false_2.
Qed.

(** X9.  On a blob that is the encoding of a list of attributes
    ceph_listxattr lists the names of the list in order, each followed by a
    NUL, and after them, on a directory, the virtual names: it returns the
    total length for a size of 0, Range for a positive size below it, and
    otherwise the length with the names written. *)
Theorem ceph_listxattr_blob sessions jiffies issued ci size ci1 calls l beyond :
  ceph_do_getattr sessions jiffies issued ci CEPH_STAT_MASK_XATTR
    = Ret (0, ci1, calls) →
  i_xattr_data ci1 = xattr_encode l ++ beyond →
  i_xattr_len ci1 = blen (xattr_encode l) →
  blen (xattr_encode l) < 2 ^ 30 →
  0 <= size →
  let out := xattr_names l ++
             (if Z.land (i_mode (vfs_inode ci1)) S_IFMT =? S_IFDIR
              then vir_xattr_names else []) in
  ceph_listxattr sessions jiffies issued ci size =
  Ret ((listxattr_answer out size).1, (listxattr_answer out size).2, ci1, calls).
Proof.
  intros Hget Hdata Hlen Hsmall Hsize out. unfold ceph_listxattr. rewrite Hget.
  cbn [mbind kres_bind]. change (nonzero 0) with false. cbn iota.
  unfold xattr_encode in *. rewrite blen_app, blen_le32 in Hlen, Hsmall.
  pose proof (entries_min l). pose proof (blen_nonneg (xattr_entries_encode l)).
  assert (Hnz : nonzero (i_xattr_len ci1) = true).
  { unfold nonzero. by replace (i_xattr_len ci1 =? 0) with false by lia. }
  rewrite Hnz.
  assert (Hnames : blen (xattr_names l) <= blen (xattr_entries_encode l)).
  { clear. induction l as [|e l IH]; [done|].
    rewrite entries_cons, blen_app, blen_entry. unfold xattr_names in *.
    cbn [map concat]. rewrite !blen_app. change (blen [Byte.x00]) with 1.
    pose proof (blen_nonneg e.2). lia. }
  pose proof (blen_nonneg (xattr_names l)).
  rewrite (decode_32_safe_in (i_xattr_data ci1) [] (xattr_entries_encode l ++ beyond)
             (Z.of_nat (length l))); [|by rewrite Hdata, <- app_assoc|done|lia|lia].
  rewrite Nat2Z.id.
  rewrite (listxattr_measure_whole l (i_xattr_data ci1) (le32 (Z.of_nat (length l)))
             beyond); [|by rewrite Hdata, <- app_assoc|by rewrite blen_le32; lia|lia|done|lia].
  unfold ceph_decode_32.
  rewrite (bytes_at_in (i_xattr_data ci1) [] (le32 (Z.of_nat (length l)))
             (xattr_entries_encode l ++ beyond));
    [|by rewrite Hdata, <- app_assoc|done|by rewrite blen_le32].
  rewrite le_combine_le32 by lia. rewrite Nat2Z.id.
  change (0 + 4) with (blen (le32 (Z.of_nat (length l)))).
  rewrite (listxattr_copy_whole l (i_xattr_data ci1) _ beyond);
    [|by rewrite Hdata, <- app_assoc|lia].
  rewrite Z.add_0_l. subst out. destruct (_ =? S_IFDIR).
  - assert (Hout : blen (xattr_names l ++ vir_xattr_names) =
                   blen (xattr_names l) + vir_xattr_names_len).
    { by rewrite blen_app, vir_xattr_names_measure. }
    assert (vir_xattr_names_len = 173) as Hvir by reflexivity.
    rewrite s32_small by lia. rewrite <- Hout.
    assert (Hfits : blen (xattr_names l ++ vir_xattr_names) < 2 ^ 31) by lia.
    exact (listxattr_answer_code _ size Hsize Hfits _
             (λ r, Ret (r.1, r.2, ci1, calls))).
  - rewrite app_nil_r.
    assert (Hfits : blen (xattr_names l) < 2 ^ 31) by lia.
    exact (listxattr_answer_code _ size Hsize Hfits _
             (λ r, Ret (r.1, r.2, ci1, calls))).
Qed.

End listxattr_facts.

Lemma ceph_listxattr_no_blob_witness :
  ceph_listxattr ∅ 0 0 (upd_inode (set_i_mode 0x41ed) (ci_with_blob [])) 200 =
  if Z.land (i_mode (vfs_inode (upd_inode (set_i_mode 0x41ed) (ci_with_blob []))))
            S_IFMT =? S_IFDIR then
    Ret ((listxattr_answer vir_xattr_names 200).1,
         (listxattr_answer vir_xattr_names 200).2,
         upd_inode (set_i_mode 0x41ed) (ci_with_blob []), [])
  else
    Ret (0, if bool_decide (200 = 0) then None else Some [Byte.x00],
         upd_inode (set_i_mode 0x41ed) (ci_with_blob []), []).
Proof.
  apply (ceph_listxattr_no_blob ∅ 0 0 (upd_inode (set_i_mode 0x41ed) (ci_with_blob []))
           200 (upd_inode (set_i_mode 0x41ed) (ci_with_blob [])) []).
  - reflexivity.
  - reflexivity.
  - lia.
Defined.

Lemma ceph_listxattr_blob_witness :
  let out := xattr_names one_xattr ++
             (if Z.land (i_mode (vfs_inode ci_dir_blob)) S_IFMT =? S_IFDIR
              then vir_xattr_names else []) in
  ceph_listxattr ∅ 0 0 ci_dir_blob 0 =
  Ret ((listxattr_answer out 0).1, (listxattr_answer out 0).2, ci_dir_blob, []).
Proof.
  apply (ceph_listxattr_blob ∅ 0 0 ci_dir_blob 0 ci_dir_blob [] one_xattr []).
  - reflexivity.
  - reflexivity.
  - reflexivity.
  - reflexivity.
  - lia.
Defined.

(** ** Dentry leases *)

Section dentry_leases.
Context `{headers}.

(** X10.  On a dentry without lease information a reply with a lease
    allocates the information: when the allocation fails nothing changes;
    when it succeeds the dentry gains a reference, is put at the head of the
    session's list, and its lease is valid at every time before the ttl of
    the reply and the cap_ttl of the session. *)
Theorem dentry_lease_taken dn dir_version sessions lease session from_time
    o ok o' s jiffies :
  lease_mask lease ≠ 0 →
  d_fsdata dn = None →
  sessions !! session = Some s →
  kmalloc o = Ret (ok, o') →
  time_before jiffies (lease_ttl lease from_time) = true →
  time_before jiffies (s_cap_ttl s) = true →
  if ok : bool then
    ∃ dn1 ss1 s1,
      update_dentry_lease dn dir_version sessions lease session from_time o
        = Ret (dn1, ss1, o') ∧
      d_count dn1 = d_count dn + 1 ∧
      ss1 !! session = Some s1 ∧
      s_dentry_leases s1 = d_key dn :: s_dentry_leases s ∧
      ceph_dentry_lease_valid ss1 jiffies dn1 = Ret true
  else
    update_dentry_lease dn dir_version sessions lease session from_time o
      = Ret (dn, sessions, o').
Proof.
  intros Hmask Hnone Hs Halloc Httl Hcap. unfold update_dentry_lease.
  replace (lease_mask lease =? 0) with false by lia.
  rewrite Hnone. cbn [mbind kres_bind]. rewrite Halloc. destruct ok; [|done].
  unfold session_at. rewrite Hs. cbn [mbind kres_bind].
  eexists _, _, _. split; [done|]. fields. split; [done|].
  rewrite lookup_insert_eq. split; [done|]. split; [done|].
  unfold ceph_dentry_lease_valid, session_at. fields.
  cbn [lease_session lease_gen]. rewrite lookup_insert_eq.
  cbn [mbind kres_bind]. fields. by rewrite Z.eqb_refl, Httl, Hcap.
Qed.

(** X11.  A reply never replaces the lease information of a dentry that has
    some: the session and the generation recorded stay, no reference is
    taken and nothing is allocated.  So a lease recorded under another
    generation than the session's stays invalid whatever the reply grants,
    and while the generation recorded is the session's a reply with a lease
    never moves d_time to an earlier time. *)
Theorem dentry_lease_keeps_gen dn dir_version sessions lease session from_time
    o di dn1 ss1 o1 :
  d_fsdata dn = Some di →
  update_dentry_lease dn dir_version sessions lease session from_time o
    = Ret (dn1, ss1, o1) →
  d_fsdata dn1 = Some di ∧ d_count dn1 = d_count dn ∧ o1 = o ∧
  (∀ s, sessions !! lease_session di = Some s → lease_gen di ≠ s_cap_gen s →
        ∀ jiffies, ceph_dentry_lease_valid ss1 jiffies dn1 = Ret false) ∧
  (∀ s, lease_mask lease ≠ 0 → sessions !! session = Some s →
        lease_gen di = s_cap_gen s → d_time dn ≠ 0 →
        time_before (d_time dn1) (d_time dn) = false).
Proof.
  intros Hdi Hup.
  assert (Hstale : ∀ (ss : gmap Z ceph_mds_session) (d : dentry) s1,
    d_fsdata d = Some di → ss !! lease_session di = Some s1 →
    lease_gen di ≠ s_cap_gen s1 →
    ∀ jiffies, ceph_dentry_lease_valid ss jiffies d = Ret false).
  { intros ss d s1 Hd Hs1 Hgen jiffies. unfold ceph_dentry_lease_valid, session_at.
    rewrite Hd, Hs1. cbn [mbind kres_bind].
    by replace (lease_gen di =? s_cap_gen s1) with false by lia. }
  unfold update_dentry_lease in Hup. rewrite Hdi in Hup.
  destruct (Z.eqb_spec (lease_mask lease) 0) as [Hz|Hnz].
  { injection Hup as <- <- <-. fields. split_and!; try done.
    intros s Hs Hgen. by apply (Hstale _ _ s). }
  destruct (Z.eqb_spec (d_time dn) 0) as [Ht0|Ht0]; cbn [negb mbind kres_bind] in Hup.
  - (* no ttl recorded: the lease is touched *)
    destruct (Z.eqb_spec (lease_session di) session) as [Heq|Hne];
      cbn [negb] in Hup.
    + unfold session_at in Hup. destruct (sessions !! session) as [s0|] eqn:Hs0; [|done].
      cbn [mbind kres_bind] in Hup. injection Hup as <- <- <-. fields.
      split_and!; try done.
      * intros s Hs Hgen. rewrite Heq, Hs0 in Hs. injection Hs as <-.
        apply (Hstale _ _ (set_s_dentry_leases
                 (list_move_tail (d_key dn) (s_dentry_leases s0)) s0)); try done.
        by rewrite Heq, lookup_insert_eq.
    + injection Hup as <- <- <-. split_and!; try done.
      intros s Hs Hgen. by apply (Hstale _ _ s).
  - unfold session_at in Hup. destruct (sessions !! session) as [s0|] eqn:Hs0; [|done].
    cbn [mbind kres_bind] in Hup.
    destruct ((lease_gen di =? s_cap_gen s0) &&
              time_before (lease_ttl lease from_time) (d_time dn)) eqn:Hnewer.
    + injection Hup as <- <- <-. split_and!; try done.
      * intros s Hs Hgen. by apply (Hstale _ _ s).
      * intros. apply time_before_irrefl.
    + destruct (Z.eqb_spec (lease_session di) session) as [Heq|Hne];
        cbn [negb] in Hup.
      * cbn [mbind kres_bind] in Hup.
        injection Hup as <- <- <-. fields. split_and!; try done.
        -- intros s Hs Hgen. rewrite Heq, Hs0 in Hs. injection Hs as <-.
           apply (Hstale _ _ (set_s_dentry_leases
                    (list_move_tail (d_key dn) (s_dentry_leases s0)) s0)); try done.
           by rewrite Heq, lookup_insert_eq.
        -- intros s _ Hs Hgen _. injection Hs as <-.
           apply andb_false_iff in Hnewer as [Hg|Hb]; [lia|done].
      * injection Hup as <- <- <-. split_and!; try done.
        -- intros s Hs Hgen. by apply (Hstale _ _ s).
        -- intros. apply time_before_irrefl.
Qed.

End dentry_leases.

Lemma dentry_lease_taken_witness :
  ∃ dn1 ss1 s1,
    update_dentry_lease fresh_dentry 3 {[ 1 := session_gen8 ]} sample_lease 1 100 []
      = Ret (dn1, ss1, []) ∧
    d_count dn1 = d_count fresh_dentry + 1 ∧
    ss1 !! 1 = Some s1 ∧
    s_dentry_leases s1 = d_key fresh_dentry :: s_dentry_leases session_gen8 ∧
    ceph_dentry_lease_valid ss1 200 dn1 = Ret true.
Proof.
  apply (dentry_lease_taken fresh_dentry 3 {[ 1 := session_gen8 ]} sample_lease 1 100
           [] true [] session_gen8 200).
  - vm_compute. discriminate.
  - reflexivity.
  - reflexivity.
  - reflexivity.
  - reflexivity.
  - reflexivity.
Defined.

Lemma dentry_lease_keeps_gen_witness :
  d_fsdata dentry_renewed.1.1 = Some {| lease_session := 1; lease_gen := 7 |} ∧
  d_count dentry_renewed.1.1 = d_count dentry_gen7 ∧
  dentry_renewed.2 = [] ∧
  (∀ s, ({[ 1 := session_gen8 ]} : gmap Z ceph_mds_session) !! 1 = Some s →
        7 ≠ s_cap_gen s →
        ∀ jiffies,
          ceph_dentry_lease_valid dentry_renewed.1.2 jiffies dentry_renewed.1.1
            = Ret false) ∧
  (∀ s, lease_mask sample_lease ≠ 0 →
        ({[ 1 := session_gen8 ]} : gmap Z ceph_mds_session) !! 1 = Some s →
        7 = s_cap_gen s → d_time dentry_gen7 ≠ 0 →
        time_before (d_time dentry_renewed.1.1) (d_time dentry_gen7) = false).
Proof.
  apply (dentry_lease_keeps_gen dentry_gen7 3 {[ 1 := session_gen8 ]} sample_lease 1 100
           [] {| lease_session := 1; lease_gen := 7 |}
           dentry_renewed.1.1 dentry_renewed.1.2 dentry_renewed.2).
  - reflexivity.
  - reflexivity.
Defined.

(** ** Attributes under a lease, and a new inode *)

Section cached_getattr.
Context `{headers} `{request_constants} `{host}.

(** X12.  Once update_inode_lease has taken a lease on all the attributes,
    ceph_getattr answers from the cache until the lease runs out: it asks
    the MDS nothing, leaves the inode as it is, and reports the attributes
    the inode had before the lease was taken, which taking it did not
    touch. *)
Theorem leased_getattr_from_cache ci sessions lease session from_time m ci1 ss1
    s jiffies issued :
  update_inode_lease ci sessions lease session from_time = Ret (m, ci1, ss1) →
  m ≠ 0 →
  sessions !! session = Some s →
  time_before jiffies (lease_ttl lease from_time) = true →
  time_before jiffies (s_cap_ttl s) = true →
  Z.land (lease_mask lease) CEPH_STAT_MASK_INODE_ALL = CEPH_STAT_MASK_INODE_ALL →
  ceph_getattr ss1 jiffies issued ci1 = Ret (0, Some (stat_of ci), ci1, []).
Proof.
  intros Hup Hm Hs Httl Hcap Hmask.
  assert (Hnz : lease_mask lease ≠ 0).
  { intros Hz. unfold update_inode_lease in Hup. rewrite Hz in Hup.
    cbn in Hup. by injection Hup as <- _ _. }
  assert (Hattrs : vfs_inode ci1 = set_i_count (i_count (vfs_inode ci1)) (vfs_inode ci) ∧
                   i_vino ci1 = i_vino ci).
  { unfold update_inode_lease in Hup.
    replace (lease_mask lease =? 0) with false in Hup by lia.
    destruct (if _ || _ then _ else _) as [newer|]; [|done].
    cbn [mbind kres_bind] in Hup.
    destruct (newer && _).
    - unfold session_at in Hup. rewrite Hs in Hup. cbn [mbind kres_bind] in Hup.
      injection Hup as _ <- _. destruct ci as [[]]. by case_bool_decide.
    - injection Hup as _ <- _. by destruct ci as [[]]. }
  destruct Hattrs as (Hvfs & Hvino).
  assert (Hvalid : ceph_inode_lease_valid ss1 jiffies issued ci1
                     CEPH_STAT_MASK_INODE_ALL = Ret true).
  { apply update_inode_lease_cases in Hup as [(-> & _)|(s' & Hs' & _ & _ & _ & Hsess &
      Hl & Hg & Hma & _ & ->)]; [done| |done].
    simplify_eq. unfold ceph_inode_lease_valid, session_at, lease_havemask.
    rewrite Hsess. cbn [mbind kres_bind]. rewrite lookup_insert_eq.
    cbn [mbind kres_bind]. fields. rewrite Hg, Hl, Hma, Z.eqb_refl, Httl, Hcap.
    cbn [andb]. f_equal. apply Z.eqb_eq.
    repeat case_match; rewrite ?land_lor_within; done || by apply land_lor_within. }
  unfold ceph_getattr, ceph_do_getattr. rewrite Hvalid.
  assert (Hstat : ∀ calls : list call,
    (let i := vfs_inode ci1 in
     Ret (0, Some {| st_dev := if negb (snap (i_vino ci1) =? CEPH_NOSNAP)
                               then snap (i_vino ci1) else 0;
                     st_ino := ino (i_vino ci1);
                     st_mode := i_mode i; st_nlink := i_nlink i;
                     st_uid := i_uid i; st_gid := i_gid i; st_rdev := i_rdev i;
                     st_size := i_size i;
                     st_atime := i_atime i; st_mtime := i_mtime i;
                     st_ctime := i_ctime i; st_blocks := i_blocks i |},
          ci1, calls)) = Ret (0, Some (stat_of ci), ci1, calls)).
  { intros calls. cbv zeta. unfold stat_of. rewrite Hvino, Hvfs. fields.
    destruct (Z.eqb_spec (snap (i_vino ci)) CEPH_NOSNAP); cbn [negb].
    - by rewrite bool_decide_eq_true_2.
    - by rewrite bool_decide_eq_false_2. }
  destruct (snap (i_vino ci1) =? CEPH_SNAPDIR); cbn [mbind kres_bind];
    change (nonzero 0) with false; cbn iota; apply Hstat.
Qed.

(** X13.  Whatever the slab held, the inode that ceph_alloc_inode returns
    has no valid lease for any mask at any time, has an empty fragment tree
    in which every value is looked up in the root frag, has no truncation
    pending, and takes the first lease a session offers.  The fields of the
    host's inode are left as the slab had them. *)
Theorem fresh_inode_state slab o ci o' :
  ceph_alloc_inode slab o = Ret (Some ci, o') →
  (∀ sessions jiffies issued mask,
     ceph_inode_lease_valid sessions jiffies issued ci mask = Ret false) ∧
  (∀ fuel v, ceph_choose_frag (S fuel) (i_fragtree ci) v =
             Ret {| chosen := 0; found := false; pfrag := None; warned := false |}) ∧
  __ceph_do_pending_vmtruncate ci = (ci, []) ∧
  (∀ sessions lease session from_time s,
     lease_mask lease ≠ 0 → sessions !! session = Some s →
     ∃ ci1 ss1, update_inode_lease ci sessions lease session from_time
                = Ret (lease_mask lease, ci1, ss1)) ∧
  vfs_inode ci = vfs_inode slab.
Proof.
  unfold ceph_alloc_inode, mbind, kst_bind, kmalloc.
  intros Halloc.
  assert (Hci : ci =
      set_i_vmtruncate_to (-1)
      (set_i_wrbuffer_ref 0
      (set_i_snap_caps 0
      (set_i_nr_by_mode (replicate (Z.to_nat CEPH_FILE_MODE_NUM) 0)
      (set_i_xattr_data []
      (set_i_xattr_len 0
      (set_i_fragtree ∅
      (set_i_lease_ttl 0
      (set_i_lease_mask 0
      (set_i_lease_session None
      (set_i_symlink None
      (set_i_time_warp_seq 0
      (set_i_truncate_seq 0
      (set_i_version 0 slab)))))))))))))).
  { destruct o as [|[] o0]; unfold mret, kst_ret in Halloc; by simplify_eq. }
  clear Halloc.
  assert (Hsess : i_lease_session ci = None) by (by rewrite Hci).
  assert (Httl : i_lease_ttl ci = 0) by (by rewrite Hci).
  assert (Htree : i_fragtree ci = ∅) by (by rewrite Hci).
  assert (Hvm : i_vmtruncate_to ci = -1) by (by rewrite Hci).
  assert (Hvfs : vfs_inode ci = vfs_inode slab) by (by rewrite Hci).
  clear Hci. split_and!.
  - intros. unfold ceph_inode_lease_valid. by rewrite Hsess.
  - intros fuel v. unfold ceph_choose_frag. rewrite Htree.
    change (frag_make 0 0) with (Ret (A:=Z) 0). cbn [mbind kres_bind choose_loop].
    unfold frag_contains_value.
    change (frag_mask 0) with (Ret (A:=Z) 0). cbn [mbind kres_bind].
    rewrite Z.land_0_r. change (frag_value 0) with 0. rewrite Z.eqb_refl.
    unfold __ceph_find_frag. by rewrite lookup_empty.
  - unfold __ceph_do_pending_vmtruncate. rewrite Hvm.
    change (-1 >=? 0) with false. cbn iota. f_equal.
    rewrite <- Hvm. by destruct ci.
  - intros sessions lease session from_time s Hmask Hs.
    unfold update_inode_lease. rewrite Httl, Hsess.
    replace (lease_mask lease =? 0) with false by lia.
    change (0 =? 0) with true. cbn [orb mbind kres_bind andb].
    unfold session_at. rewrite Hs. cbn [mbind kres_bind]. by eexists _, _.
  - done.
Qed.

End cached_getattr.

Lemma leased_getattr_from_cache_witness :
  ceph_getattr full_lease_taken.2 200 0 full_lease_taken.1.2 =
  Ret (0, Some (stat_of zero_ci), full_lease_taken.1.2, []).
Proof.
  apply (leased_getattr_from_cache zero_ci {[ 1 := session_gen8 ]} full_lease 1 100
           full_lease_taken.1.1 full_lease_taken.1.2 full_lease_taken.2 session_gen8
           200 0).
  - reflexivity.
  - vm_compute. discriminate.
  - reflexivity.
  - reflexivity.
  - reflexivity.
  - reflexivity.
Defined.

Lemma fresh_inode_state_witness :
  (∀ sessions jiffies issued mask,
     ceph_inode_lease_valid sessions jiffies issued fresh_ci mask = Ret false) ∧
  (∀ fuel v, ceph_choose_frag (S fuel) (i_fragtree fresh_ci) v =
             Ret {| chosen := 0; found := false; pfrag := None; warned := false |}) ∧
  __ceph_do_pending_vmtruncate fresh_ci = (fresh_ci, []) ∧
  (∀ sessions lease session from_time s,
     lease_mask lease ≠ 0 → sessions !! session = Some s →
     ∃ ci1 ss1, update_inode_lease fresh_ci sessions lease session from_time
                = Ret (lease_mask lease, ci1, ss1)) ∧
  vfs_inode fresh_ci = vfs_inode ci_lease_gen7.
Proof.
  apply (fresh_inode_state ci_lease_gen7 [] fresh_ci []). reflexivity.
Defined.

(** ** More on the fragment tree *)

Section fragtree_lookup.
Context `{headers}.

(* The loop of ceph_choose_frag stops at a frag that the tree does not
   hold or holds without a split, and hands back the entry it found. *)
Lemma choose_loop_leaf tree v :
  ∀ fuel t w c,
    choose_loop fuel tree v t w = Ret c →
    pfrag c = tree !! chosen c ∧
    found c = bool_decide (is_Some (tree !! chosen c)) ∧
    (∀ fr, tree !! chosen c = Some fr → split_by fr = 0).
Proof.
  induction fuel as [|fuel IH]; intros t w c Hc; [done|].
  cbn [choose_loop] in Hc.
  destruct (frag_contains_value t v) as [inside|]; [|done].
  cbn [mbind kres_bind] in Hc. unfold __ceph_find_frag in Hc.
  destruct (tree !! t) as [fr|] eqn:Ht.
  - destruct (Z.eqb_spec (split_by fr) 0) as [Hz|Hnz].
    + injection Hc as <-. cbn [chosen found pfrag]. rewrite Ht.
      split_and!; [done|by rewrite bool_decide_eq_true_2|by intros ? [= <-]].
    + destruct (shl32 1 (split_by fr)) as [nway|]; [|done].
      cbn [mbind kres_bind] in Hc.
      destruct (choose_child _ _ _ _ _) as [[n|]|]; try done.
      cbn [mbind kres_bind] in Hc. by eapply IH.
  - injection Hc as <-. cbn [chosen found pfrag]. rewrite Ht.
    split_and!; [done|by rewrite bool_decide_eq_false_2 by (by intros [? ?])|done].
Qed.

(* A tree that differs from another only at the frag chosen, and holds
   no split for it, leads the loop to the same frag. *)
Lemma choose_loop_agree tree tree' v :
  ∀ fuel t w c,
    choose_loop fuel tree v t w = Ret c →
    (∀ t', t' ≠ chosen c → tree' !! t' = tree !! t') →
    (∀ fr, tree' !! chosen c = Some fr → split_by fr = 0) →
    choose_loop fuel tree' v t w =
    Ret {| chosen := chosen c;
           found := bool_decide (is_Some (tree' !! chosen c));
           pfrag := tree' !! chosen c;
           warned := warned c |}.
Proof.
  induction fuel as [|fuel IH]; intros t w c Hc Hsame Hleaf; [done|].
  destruct (choose_loop_leaf _ _ _ _ _ _ Hc) as (_ & _ & Hl).
  cbn [choose_loop] in Hc |- *.
  destruct (frag_contains_value t v) as [inside|]; [|done].
  cbn [mbind kres_bind] in Hc |- *. unfold __ceph_find_frag in Hc |- *.
  assert (Hstop : chosen c = t → warned c = w || negb inside →
    match tree' !! t with
    | Some fr =>
        if split_by fr =? 0
        then Ret {| chosen := t; found := true; pfrag := Some fr;
                    warned := w || negb inside |}
        else nway ← shl32 1 (split_by fr);
             n ← choose_child (Z.to_nat nway) 0 t (split_by fr) v;
             match n with
             | Some n => choose_loop fuel tree' v n (w || negb inside)
             | None => Fault BugOn
             end
    | None => Ret {| chosen := t; found := false; pfrag := None;
                     warned := w || negb inside |}
    end = Ret {| chosen := chosen c;
                 found := bool_decide (is_Some (tree' !! chosen c));
                 pfrag := tree' !! chosen c; warned := warned c |}).
  { intros Heq Hw. rewrite Heq, Hw in *. destruct (tree' !! t) as [fr'|] eqn:Ht'.
    - rewrite (Hleaf fr' eq_refl). change (0 =? 0) with true. cbn iota.
      by rewrite bool_decide_eq_true_2.
    - by rewrite bool_decide_eq_false_2 by (by intros [? ?]). }
  destruct (tree !! t) as [fr|] eqn:Ht.
  - destruct (Z.eqb_spec (split_by fr) 0) as [Hz|Hnz].
    + injection Hc as <-. by apply Hstop.
    + assert (Hne : t ≠ chosen c).
      { intros ->. by apply Hnz, Hl. }
      rewrite (Hsame t Hne), Ht.
      replace (split_by fr =? 0) with false by lia.
      destruct (shl32 1 (split_by fr)) as [nway|]; [|done].
      cbn [mbind kres_bind] in Hc |- *.
      destruct (choose_child _ _ _ _ _) as [[n|]|]; try done.
      cbn [mbind kres_bind] in Hc |- *. by apply IH.
  - injection Hc as <-. by apply Hstop.
Qed.

(* What ceph_fill_dirfrag leaves in the tree for a frag that has no
   split. *)
Lemma fill_dirfrag_at tree dirinfo o tree' o' :
  ceph_fill_dirfrag tree dirinfo o = Ret ((0, tree'), o') →
  (∀ fr, tree !! df_frag dirinfo = Some fr → split_by fr = 0) →
  (∀ t', t' ≠ df_frag dirinfo → tree' !! t' = tree !! t') ∧
  if (s32 (df_auth dirinfo) <? 0) && (s32 (df_ndist dirinfo) =? 0)
  then tree' !! df_frag dirinfo = None
  else ∃ fr, tree' !! df_frag dirinfo = Some fr ∧
             split_by fr = 0 ∧
             mds fr = s32 (df_auth dirinfo) ∧
             ndist fr = s32 (min_t_u32 (s32 (df_ndist dirinfo)) MAX_DIRFRAG_REP) ∧
             take (Z.to_nat (ndist fr)) (df_dist dirinfo) `prefix_of` dist fr.
Proof.
  unfold ceph_fill_dirfrag. intros Hfill Hleaf.
  destruct ((s32 (df_auth dirinfo) <? 0) && (s32 (df_ndist dirinfo) =? 0)).
  - unfold __ceph_find_frag in Hfill.
    destruct (tree !! df_frag dirinfo) as [fr|] eqn:Hfr.
    + rewrite (Hleaf fr eq_refl) in Hfill. change (0 =? 0) with true in Hfill.
      cbn iota in Hfill. injection Hfill as <- <-. split.
      * intros t' Hne. by rewrite lookup_delete_ne.
      * by rewrite lookup_delete_eq.
    + by injection Hfill as <- <-.
  - unfold mbind, kst_bind in Hfill.
    destruct (get_or_create_frag_cases tree (df_frag dirinfo) o)
      as (got & o1 & Hgot & Hcases).
    rewrite Hgot in Hfill.
    destruct Hcases as [->|[(-> & [fr Hfr])|(-> & Hnone)]].
    + by injection Hfill.
    + injection Hfill as <- <-. split.
      * intros t' Hne. by rewrite lookup_alter_ne.
      * rewrite lookup_alter_eq, Hfr. cbn [fmap option_fmap option_map].
        eexists. split; [done|]. fields.
        split_and!; [by apply Hleaf|done|done|by eexists].
    + injection Hfill as <- <-. split.
      * intros t' Hne. by rewrite lookup_alter_ne, lookup_insert_ne.
      * rewrite lookup_alter_eq, lookup_insert_eq. cbn [fmap option_fmap option_map].
        eexists. split; [done|]. unfold new_frag. fields.
        split_and!; [done|done|done|by eexists].
Qed.

(** X14.  The frag that ceph_choose_frag returns is a leaf of the tree: the
    tree holds no node for it or a node without a split.  found says which,
    and pfrag is the copy of the node. *)
Theorem ceph_choose_frag_leaf fuel tree v c :
  ceph_choose_frag fuel tree v = Ret c →
  pfrag c = tree !! chosen c ∧
  found c = bool_decide (is_Some (tree !! chosen c)) ∧
  (∀ fr, tree !! chosen c = Some fr → split_by fr = 0).
Proof.
  unfold ceph_choose_frag. change (frag_make 0 0) with (Ret (A:=Z) 0).
  cbn [mbind kres_bind]. apply choose_loop_leaf.
Qed.

(** X15.  Delegation info stored by ceph_fill_dirfrag for the frag that
    ceph_choose_frag picks for a value is what the next lookup of the value
    hands back: the same frag is chosen, and pfrag carries the auth mds, the
    number of replicas kept and the replicas of the reply.  When the reply
    names no auth and no replica the frag is chosen with nothing found. *)
Theorem fill_dirfrag_then_choose fuel tree v c dirinfo o tree' o' :
  ceph_choose_frag fuel tree v = Ret c →
  df_frag dirinfo = chosen c →
  ceph_fill_dirfrag tree dirinfo o = Ret ((0, tree'), o') →
  ∃ c', ceph_choose_frag fuel tree' v = Ret c' ∧
        chosen c' = chosen c ∧ warned c' = warned c ∧
        if (s32 (df_auth dirinfo) <? 0) && (s32 (df_ndist dirinfo) =? 0)
        then found c' = false ∧ pfrag c' = None
        else found c' = true ∧
             ∃ fr, pfrag c' = Some fr ∧
                   mds fr = s32 (df_auth dirinfo) ∧
                   ndist fr = s32 (min_t_u32 (s32 (df_ndist dirinfo)) MAX_DIRFRAG_REP) ∧
                   take (Z.to_nat (ndist fr)) (df_dist dirinfo) `prefix_of` dist fr.
Proof.
  unfold ceph_choose_frag. change (frag_make 0 0) with (Ret (A:=Z) 0).
  cbn [mbind kres_bind]. intros Hc Hid Hfill.
  destruct (choose_loop_leaf _ _ _ _ _ _ Hc) as (_ & _ & Hl).
  rewrite <- Hid in Hl.
  destruct (fill_dirfrag_at _ _ _ _ _ Hfill Hl) as (Hsame & Hat).
  rewrite Hid in Hsame, Hat.
  eexists. split.
  { apply (choose_loop_agree tree tree' v _ _ _ c Hc Hsame).
    intros fr Hfr. destruct (_ && _).
    - by rewrite Hfr in Hat.
    - destruct Hat as (fr' & Hfr' & Hz & _). by simplify_eq. }
  cbn [chosen warned found pfrag]. split; [done|]. split; [done|].
  destruct (_ && _).
  - rewrite Hat. by rewrite bool_decide_eq_false_2 by (by intros [? ?]).
  - destruct Hat as (fr & -> & _ & Hat). rewrite bool_decide_eq_true_2 by done.
    split; [done|]. by exists fr.
Qed.

(* A frag that the list of splits does not name is left as it was. *)
Lemma fill_fragtree_splits_frame splits f :
  last_by splits f = None →
  ∀ tree o tree1 o1,
    fill_fragtree_splits splits tree o = Ret (tree1, o1) →
    tree1 !! f = tree !! f.
Proof.
  induction splits as [|sp splits IH]; intros Hlast tree o tree1 o1 Hfill.
  { by injection Hfill as <- _. }
  cbn [last_by] in Hlast. destruct (last_by splits f) eqn:Hrest; [done|].
  destruct (decide (fts_frag sp = f)) as [|Hne]; [done|].
  cbn [fill_fragtree_splits] in Hfill. unfold mbind at 1, kst_bind in Hfill.
  destruct (get_or_create_frag_cases tree (fts_frag sp) o) as (got & o' & Hgot & Hcases).
  rewrite Hgot in Hfill.
  destruct Hcases as [->|[(-> & _)|(-> & _)]];
    rewrite (IH eq_refl _ _ _ _ Hfill); try done.
  - by rewrite lookup_alter_ne.
  - by rewrite lookup_alter_ne, lookup_insert_ne.
Qed.

(* A node of the tree that the loop leaves carries the split recorded last
   for its frag. *)
Lemma fill_fragtree_splits_last splits :
  ∀ tree o tree1 o1 f fr b,
    fill_fragtree_splits splits tree o = Ret (tree1, o1) →
    tree1 !! f = Some fr → last_by splits f = Some b →
    split_by fr = s32 b.
Proof.
  induction splits as [|sp splits IH]; intros tree o tree1 o1 f fr b Hfill Hfr Hlast;
    [done|].
  cbn [last_by] in Hlast.
  cbn [fill_fragtree_splits] in Hfill. unfold mbind at 1, kst_bind in Hfill.
  destruct (last_by splits f) as [b'|] eqn:Hrest.
  - injection Hlast as ->.
    destruct (__get_or_create_frag tree (fts_frag sp) o) as [[[t1|] o']|]; [| |done];
      by eapply IH.
  - destruct (decide (fts_frag sp = f)) as [Heq|]; [|done]. injection Hlast as <-.
    unfold __get_or_create_frag in Hfill. rewrite Heq in Hfill.
    destruct (tree !! f) as [fr0|] eqn:Hf.
    + unfold mret, kst_ret in Hfill.
      rewrite (fill_fragtree_splits_frame _ _ Hrest _ _ _ _ Hfill) in Hfr.
      rewrite lookup_alter_eq, Hf in Hfr. by injection Hfr as <-.
    + unfold mbind, kst_bind, kmalloc in Hfill.
      destruct o as [|[] o]; unfold mret, kst_ret in Hfill;
        rewrite (fill_fragtree_splits_frame _ _ Hrest _ _ _ _ Hfill) in Hfr.
      * rewrite lookup_alter_eq, lookup_insert_eq in Hfr. by injection Hfr as <-.
      * rewrite lookup_alter_eq, lookup_insert_eq in Hfr. by injection Hfr as <-.
      * by rewrite Hf in Hfr.
Qed.

(* With a node for every frag named the loop allocates nothing. *)
Lemma fill_fragtree_splits_present splits :
  ∀ tree o,
    Forall (λ sp, is_Some (tree !! fts_frag sp)) splits →
    fill_fragtree_splits splits tree o = Ret (apply_splits splits tree, o).
Proof.
  induction splits as [|sp splits IH]; intros tree o Hall; [done|].
  apply Forall_cons in Hall as [[fr Hfr] Hall].
  cbn [fill_fragtree_splits]. unfold mbind at 1, kst_bind, __get_or_create_frag.
  rewrite Hfr. unfold mret, kst_ret. unfold apply_splits. cbn [foldl].
  apply IH. eapply Forall_impl; [done|]. intros sp' [fr' Hfr'].
  destruct (decide (fts_frag sp' = fts_frag sp)) as [->|Hne].
  - rewrite lookup_alter_eq, Hfr. by eexists.
  - rewrite lookup_alter_ne by done. by eexists.
Qed.

Lemma apply_splits_lookup splits :
  ∀ tree f,
    apply_splits splits tree !! f =
    match last_by splits f with
    | Some b => set_split_by (s32 b) <$> tree !! f
    | None => tree !! f
    end.
Proof.
  induction splits as [|sp splits IH]; intros tree f; [done|].
  unfold apply_splits in *. cbn [foldl last_by]. rewrite IH.
  destruct (last_by splits f) as [b|].
  - destruct (decide (fts_frag sp = f)) as [<-|Hne].
    + rewrite lookup_alter_eq. by destruct (tree !! fts_frag sp).
    + by rewrite lookup_alter_ne.
  - destruct (decide (fts_frag sp = f)) as [<-|Hne].
    + by rewrite lookup_alter_eq.
    + by rewrite lookup_alter_ne.
Qed.

(** X16.  Taking in the same list of splits a second time changes nothing
    and allocates nothing, provided the first pass left a node for every
    frag of the list (no allocation it needed had failed). *)
Theorem fill_fragtree_splits_idempotent splits tree o tree1 o1 o2 :
  fill_fragtree_splits splits tree o = Ret (tree1, o1) →
  Forall (λ sp, is_Some (tree1 !! fts_frag sp)) splits →
  fill_fragtree_splits splits tree1 o2 = Ret (tree1, o2).
Proof.
  intros Hfill Hall. rewrite (fill_fragtree_splits_present _ _ _ Hall).
  do 2 f_equal. apply map_eq. intros f. rewrite apply_splits_lookup.
  destruct (last_by splits f) as [b|] eqn:Hlast; [|done].
  destruct (tree1 !! f) as [fr|] eqn:Hfr; [|done].
  cbn [fmap option_fmap option_map]. f_equal.
  rewrite <- (fill_fragtree_splits_last _ _ _ _ _ _ _ _ Hfill Hfr Hlast).
  by destruct fr.
Qed.

End fragtree_lookup.

Lemma ceph_choose_frag_leaf_witness :
  pfrag chosen_in_quartered = quartered_tree !! chosen chosen_in_quartered ∧
  found chosen_in_quartered =
    bool_decide (is_Some (quartered_tree !! chosen chosen_in_quartered)) ∧
  (∀ fr, quartered_tree !! chosen chosen_in_quartered = Some fr → split_by fr = 0).
Proof.
  apply (ceph_choose_frag_leaf 25 quartered_tree 0x2bcdef chosen_in_quartered).
  reflexivity.
Defined.

Lemma fill_dirfrag_then_choose_witness :
  ∃ c', ceph_choose_frag 25 quartered_delegated 0x2bcdef = Ret c' ∧
        chosen c' = chosen chosen_in_quartered ∧
        warned c' = warned chosen_in_quartered ∧
        if (s32 (df_auth leaf_dirfrag) <? 0) && (s32 (df_ndist leaf_dirfrag) =? 0)
        then found c' = false ∧ pfrag c' = None
        else found c' = true ∧
             ∃ fr, pfrag c' = Some fr ∧
                   mds fr = s32 (df_auth leaf_dirfrag) ∧
                   ndist fr = s32 (min_t_u32 (s32 (df_ndist leaf_dirfrag))
                                             MAX_DIRFRAG_REP) ∧
                   take (Z.to_nat (ndist fr)) (df_dist leaf_dirfrag)
                     `prefix_of` dist fr.
Proof.
  apply (fill_dirfrag_then_choose 25 quartered_tree 0x2bcdef chosen_in_quartered
           leaf_dirfrag [] quartered_delegated []).
  - reflexivity.
  - reflexivity.
  - reflexivity.
Defined.

Lemma fill_fragtree_splits_idempotent_witness :
  fill_fragtree_splits sample_splits sample_splits_tree [false] =
  Ret (sample_splits_tree, [false]).
Proof.
  apply (fill_fragtree_splits_idempotent sample_splits ∅ [] sample_splits_tree []
           [false]).
  - reflexivity.
  - repeat apply Forall_cons_2; [by eexists|by eexists|apply Forall_nil_2].
Defined.

(** ** What ceph_fill_inode keeps and what it replaces *)

Section fill_inode_facts.
Context `{headers}.

(* The reconciler of size and times writes nothing else. *)
Lemma fill_file_bits_frame issued ts size tw ctime mtime atime ci :
  let ci' := ceph_fill_file_bits issued ts size tw ctime mtime atime ci in
  beside_attrs ci' = beside_attrs ci ∧
  i_symlink ci' = i_symlink ci ∧
  i_version ci' = i_version ci ∧
  vfs_i_version (vfs_inode ci') = vfs_i_version (vfs_inode ci) ∧
  i_xattr_len ci' = i_xattr_len ci ∧
  i_xattr_data ci' = i_xattr_data ci.
Proof.
  cbv zeta. unfold ceph_fill_file_bits, beside_attrs.
  repeat case_match; split_and!; reflexivity.
Qed.

(* The attribute update of a reply of another version. *)
Lemma fill_inode_update_keeps issued b iinfo ci ci1 :
  fill_inode_update issued b iinfo ci = Ret ci1 →
  beside_attrs ci1 = beside_attrs ci ∧
  i_symlink ci1 = i_symlink ci ∧
  i_version ci1 = in_version (info_in iinfo) ∧
  vfs_i_version (vfs_inode ci1) = u64 (vfs_i_version (vfs_inode ci) + 1) ∧
  (xattr_len iinfo ≠ 0 → xattr_len iinfo ≠ i_xattr_len ci →
   b = true ∧
   i_xattr_len ci1 = xattr_len iinfo ∧
   i_xattr_data ci1 = take (Z.to_nat (xattr_len iinfo)) (xattr_data iinfo)).
Proof.
  unfold fill_inode_update. cbv zeta.
  set (X := upd_inode _ (set_i_version _ ci)).
  set (R := ceph_fill_file_bits _ _ _ _ _ _ _ X).
  set (Y := upd_inode _ (set_i_layout _ (set_i_max_size _ R))).
  destruct (fill_file_bits_frame issued (in_truncate_seq (info_in iinfo))
              (in_size (info_in iinfo)) (in_time_warp_seq (info_in iinfo))
              (in_ctime (info_in iinfo)) (in_mtime (info_in iinfo))
              (in_atime (info_in iinfo)) X) as (Hb & Hs & Hv & Hvv & Hxl & Hxd).
  fold R in Hb, Hs, Hv, Hvv, Hxl, Hxd.
  assert (HYb : beside_attrs Y = beside_attrs ci).
  { transitivity (beside_attrs R); [reflexivity|]. rewrite Hb. reflexivity. }
  assert (HYs : i_symlink Y = i_symlink ci).
  { transitivity (i_symlink R); [reflexivity|]. rewrite Hs. reflexivity. }
  assert (HYv : i_version Y = in_version (info_in iinfo)).
  { transitivity (i_version R); [reflexivity|]. rewrite Hv. reflexivity. }
  assert (HYvv : vfs_i_version (vfs_inode Y) = u64 (vfs_i_version (vfs_inode ci) + 1)).
  { transitivity (vfs_i_version (vfs_inode R)); [reflexivity|]. rewrite Hvv.
    reflexivity. }
  assert (HYxl : i_xattr_len Y = i_xattr_len ci).
  { transitivity (i_xattr_len R); [reflexivity|]. rewrite Hxl. reflexivity. }
  clearbody Y. clear Hb Hs Hv Hvv Hxl Hxd. clearbody R. clear R X.
  rewrite HYxl. unfold nonzero.
  destruct (Z.eqb_spec (xattr_len iinfo) 0) as [Hz|Hnz]; cbn [negb].
  { cbn [mbind kres_bind]. intros [= <-]. unfold beside_attrs in *. fields.
    split_and!; done. }
  destruct (Z.eqb_spec (i_xattr_len ci) (xattr_len iinfo)) as [Heq|Hne]; cbn [negb].
  { cbn [mbind kres_bind]. intros [= <-]. unfold beside_attrs in *. fields.
    split_and!; done. }
  destruct b; [|done].
  cbn [mbind kres_bind]. intros [= <-]. unfold beside_attrs in *. fields.
  split_and!; done.
Qed.

(* The switch on the file type keeps the lease, the caps and the versions,
   and a symlink target that is there. *)
Lemma fill_inode_type_keeps mount_flags iinfo ci o err ci' o' :
  fill_inode_type mount_flags iinfo ci o = Ret ((err, ci'), o') →
  beside_attrs ci' = beside_attrs ci ∧
  vfs_i_version (vfs_inode ci') = vfs_i_version (vfs_inode ci) ∧
  (∀ t, i_symlink ci = Some t → i_symlink ci' = Some t).
Proof.
  unfold fill_inode_type, beside_attrs.
  destruct (_ || _); [by intros [= <- <- <-]|].
  destruct (_ =? S_IFREG); [by intros [= <- <- <-]|].
  destruct (_ =? S_IFLNK).
  { fields. destruct (i_symlink ci) eqn:Hsym.
    { intros [= <- <- <-]. fields. by rewrite Hsym. }
    destruct (negb _); [done|].
    unfold mbind, kst_bind. destruct (kmalloc_tail o) as [[] ->];
      intros [= <- <- <-]; fields; by rewrite ?Hsym. }
  destruct (_ =? S_IFDIR); [|by intros [= <- <- <-]].
  destruct (nonzero _); by intros [= <- <- <-].
Qed.

(* ceph_fill_inode as its stages: the buffer allocated ahead, the update
   of the attributes unless the version is the one cached, the merge of
   the fragment tree, and the switch on the file type. *)
Lemma fill_inode_steps mount_flags issued ci iinfo dirinfo o err ci' o' :
  ceph_fill_inode mount_flags issued ci iinfo dirinfo o = Ret ((err, ci'), o') →
  ∃ b ci1 t o2,
    (if nonzero (xattr_len iinfo) && negb (xattr_len iinfo =? i_xattr_len ci)
     then kmalloc else mret false) o = Ret (b, after_prealloc ci iinfo o) ∧
    (if same_version ci iinfo then Ret ci
     else fill_inode_update issued b iinfo ci) = Ret ci1 ∧
    fill_inode_type mount_flags iinfo (set_i_fragtree t ci1) o2 = Ret ((err, ci'), o').
Proof.
  unfold ceph_fill_inode, same_version, after_prealloc.
  unfold mbind at 1, kst_bind at 1.
  assert (Hpre : ∃ b, (if nonzero (xattr_len iinfo) &&
                          negb (xattr_len iinfo =? i_xattr_len ci)
                       then kmalloc else mret false) o =
                      Ret (b, if nonzero (xattr_len iinfo) &&
                                 negb (xattr_len iinfo =? i_xattr_len ci)
                              then tail o else o)).
  { destruct (_ && _); [apply kmalloc_tail|by eexists]. }
  destruct Hpre as [b Hpre]. rewrite Hpre. set (o1 := if _ && _ then tail o else o).
  unfold mbind at 1, kst_bind at 1.
  destruct ((in_version (info_in iinfo) >? 0) &&
            (i_version ci =? in_version (info_in iinfo))) eqn:Hsame.
  - unfold mret at 1, kst_ret at 1.
    unfold mbind at 1, kst_bind at 1.
    destruct (fill_fragtree_splits_total (in_splits (info_in iinfo)) (i_fragtree ci) o1)
      as (t1 & o2 & ->).
    unfold mbind at 1, kst_bind at 1.
    destruct dirinfo as [d|].
    + unfold mbind at 1, kst_bind at 1. fields.
      destruct (fill_dirfrag_total t1 d o2) as (e & t2 & o3 & ->).
      unfold mret at 1, kst_ret at 1. cbn [snd]. intros Hty.
      exists b, ci, t2, o3. split; [done|]. split; [done|].
      rewrite <- Hty. by destruct ci.
    + unfold mret at 1, kst_ret at 1. intros Hty. by exists b, ci, t1, o2.
  - destruct (fill_inode_update issued b iinfo ci) as [ci1|] eqn:Hupd; [|done].
    unfold mbind at 1, kst_bind at 1.
    destruct (fill_fragtree_splits_total (in_splits (info_in iinfo)) (i_fragtree ci1) o1)
      as (t1 & o2 & ->).
    unfold mbind at 1, kst_bind at 1.
    destruct dirinfo as [d|].
    + unfold mbind at 1, kst_bind at 1. fields.
      destruct (fill_dirfrag_total t1 d o2) as (e & t2 & o3 & ->).
      unfold mret at 1, kst_ret at 1. cbn [snd]. intros Hty.
      exists b, ci1, t2, o3. split; [done|]. split; [done|].
      rewrite <- Hty. by destruct ci1.
    + unfold mret at 1, kst_ret at 1. intros Hty. by exists b, ci1, t1, o2.
Qed.

(** X17.  A reply of another version than the cached one whose xattr blob
    has another length than the cached blob: ceph_fill_inode allocates the
    new buffer ahead and goes on when the allocation fails, so the copy of
    the blob then goes through a null pointer.  Whenever the call returns,
    the blob cached is the one of the reply, in its length. *)
Theorem fill_inode_xattr_blob mount_flags issued ci iinfo dirinfo o :
  same_version ci iinfo = false →
  xattr_len iinfo ≠ 0 →
  xattr_len iinfo ≠ i_xattr_len ci →
  (∀ o0, o = false :: o0 →
         ceph_fill_inode mount_flags issued ci iinfo dirinfo o = Fault NullDeref) ∧
  (∀ err ci' o',
     ceph_fill_inode mount_flags issued ci iinfo dirinfo o = Ret ((err, ci'), o') →
     i_xattr_len ci' = xattr_len iinfo ∧
     i_xattr_data ci' = take (Z.to_nat (xattr_len iinfo)) (xattr_data iinfo)).
Proof.
  intros Hver Hnz Hne. split.
  - intros o0 ->. unfold ceph_fill_inode. unfold same_version in Hver. rewrite Hver.
    unfold nonzero at 1.
    replace (xattr_len iinfo =? 0) with false by lia.
    replace (xattr_len iinfo =? i_xattr_len ci) with false by lia.
    cbn [negb andb]. unfold mbind at 1, kst_bind at 1, kmalloc.
    unfold mbind at 1, kst_bind at 1.
    assert (Hupd : fill_inode_update issued false iinfo ci = Fault NullDeref).
    { destruct (fill_inode_update issued false iinfo ci) as [ci1|f] eqn:Hupd.
      - apply fill_inode_update_keeps in Hupd as (_ & _ & _ & _ & Hx).
        by destruct (Hx Hnz Hne) as (? & _).
      - revert Hupd. unfold fill_inode_update. cbv zeta.
        set (Y := upd_inode _ (set_i_layout _ _)).
        destruct (nonzero (xattr_len iinfo)); [|done].
        destruct (negb _); [|done]. cbn [mbind kres_bind]. congruence. }
    by rewrite Hupd.
  - intros err ci' o' Hfill.
    apply fill_inode_steps in Hfill as (b & ci1 & t & o2 & _ & Hupd & Hty).
    rewrite Hver in Hupd.
    apply fill_inode_update_keeps in Hupd as (_ & _ & _ & _ & Hx).
    destruct (Hx Hnz Hne) as (_ & Hl & Hd).
    apply fill_inode_type_frame in Hty as (Ha & _ & _).
    unfold cached_attrs in Ha. fields_in Ha.
    injection Ha as _ _ _ _ _ _ _ _ _ _ _ Hl' Hd' _ _ _.
    by rewrite Hl', Hd', Hl, Hd.
Qed.

(** X18.  Whenever ceph_fill_inode returns, with whatever result, the
    version cached is the version of the reply, and the host's i_version
    has gone up by one exactly when the reply was of another version than
    the cached one.  The call never touches the lease, the reference count,
    the open counts, the pending truncation or the identity of the inode,
    and never replaces a symlink target that is there. *)
Theorem ceph_fill_inode_frame mount_flags issued ci iinfo dirinfo o err ci' o' :
  ceph_fill_inode mount_flags issued ci iinfo dirinfo o = Ret ((err, ci'), o') →
  i_version ci' = in_version (info_in iinfo) ∧
  vfs_i_version (vfs_inode ci') =
    (if same_version ci iinfo then vfs_i_version (vfs_inode ci)
     else u64 (vfs_i_version (vfs_inode ci) + 1)) ∧
  beside_attrs ci' = beside_attrs ci ∧
  (∀ t, i_symlink ci = Some t → i_symlink ci' = Some t).
Proof.
  intros Hfill.
  apply fill_inode_steps in Hfill as (b & ci1 & t & o2 & _ & Hupd & Hty).
  pose proof (fill_inode_type_frame _ _ _ _ _ _ _ Hty) as (Ha & _ & _).
  apply fill_inode_type_keeps in Hty as (Hb & Hvv & Hs).
  unfold cached_attrs in Ha. fields_in Ha.
  injection Ha as _ _ _ _ _ _ _ _ _ _ _ _ _ Hv _ _.
  unfold beside_attrs in *. fields_in Hb. fields_in Hvv. fields_in Hs.
  rewrite Hv, Hvv, Hb.
  destruct (same_version ci iinfo) eqn:Hver.
  - injection Hupd as <-. split_and!; try done.
    unfold same_version in Hver. lia.
  - apply fill_inode_update_keeps in Hupd as (Hb1 & Hs1 & Hv1 & Hvv1 & _).
    unfold beside_attrs in Hb1. rewrite Hv1, Hvv1, Hb1. split_and!; try done.
    intros t0 Ht0. apply Hs. by rewrite Hs1.
Qed.

End fill_inode_facts.

Lemma fill_inode_xattr_blob_witness :
  (∀ o0, [false] = false :: o0 →
         ceph_fill_inode 0 0 zero_ci info_with_xattr None [false] = Fault NullDeref) ∧
  (∀ err ci' o',
     ceph_fill_inode 0 0 zero_ci info_with_xattr None [false] = Ret ((err, ci'), o') →
     i_xattr_len ci' = xattr_len info_with_xattr ∧
     i_xattr_data ci' =
       take (Z.to_nat (xattr_len info_with_xattr)) (xattr_data info_with_xattr)).
Proof.
  apply (fill_inode_xattr_blob 0 0 zero_ci info_with_xattr None [false]).
  - reflexivity.
  - vm_compute. discriminate.
  - vm_compute. discriminate.
Defined.

Lemma ceph_fill_inode_frame_witness :
  ∃ ci',
    ceph_fill_inode 0 0 zero_ci info_with_xattr None [] = Ret ((0, ci'), []) ∧
    i_version ci' = in_version (info_in info_with_xattr) ∧
    vfs_i_version (vfs_inode ci') =
      (if same_version zero_ci info_with_xattr then vfs_i_version (vfs_inode zero_ci)
       else u64 (vfs_i_version (vfs_inode zero_ci) + 1)) ∧
    beside_attrs ci' = beside_attrs zero_ci ∧
    (∀ t, i_symlink zero_ci = Some t → i_symlink ci' = Some t).
Proof.
  eexists. split; [vm_compute; reflexivity|].
  eapply (ceph_fill_inode_frame 0 0 zero_ci info_with_xattr None [] 0 _ []).
  vm_compute. reflexivity.
Defined.

(** ** Replayed replies and local time changes *)

(* Case analysis on a condition that depends on no other one. *)
Ltac innermost_if :=
  match goal with
  | |- context [if ?c then _ else _] =>
      lazymatch c with
      | context [if _ then _ else _] => fail
      | _ => destruct c eqn:?
      end
  end.

Section replay.
Context `{headers}.

Lemma timespec_compare_flip a b :
  timespec_compare a b < 0 → timespec_compare b a >= 0.
Proof.
  unfold timespec_compare.
  destruct (Z.ltb_spec (tv_sec a) (tv_sec b)), (Z.ltb_spec (tv_sec b) (tv_sec a));
    destruct (Z.gtb_spec (tv_sec a) (tv_sec b)), (Z.gtb_spec (tv_sec b) (tv_sec a));
    lia.
Qed.

(** X19.  Taking in the same size, sequence numbers and timestamps a second
    time changes nothing: ceph_fill_file_bits applied to its own result,
    with the same caps issued, gives that result. *)
Theorem fill_file_bits_replay issued ts size tw ctime mtime atime ci :
  let ci' := ceph_fill_file_bits issued ts size tw ctime mtime atime ci in
  ceph_fill_file_bits issued ts size tw ctime mtime atime ci' = ci'.
Proof.
  cbv zeta. unfold ceph_fill_file_bits.
  repeat (innermost_if; fields); try (destruct ci as [[]]; reflexivity);
    rewrite ?timespec_compare_refl in *; lia.
Qed.

End replay.

Section local_times.
Context `{headers} `{request_constants} `{host}.

(** X20.  Without the EXCL cap ceph_setattr_time changes the times of the
    inode by itself only forward: whenever it returns without having sent a
    request, mtime and atime are the cached ones or later ones, and
    time_warp_seq is as it was. *)
Theorem setattr_time_local_forward sessions jiffies issued ci attr err ci' :
  nonzero (Z.land issued CEPH_CAP_EXCL) = false →
  ceph_setattr_time sessions jiffies issued ci attr = Ret (err, ci', []) →
  timespec_compare (i_mtime (vfs_inode ci')) (i_mtime (vfs_inode ci)) >= 0 ∧
  timespec_compare (i_atime (vfs_inode ci')) (i_atime (vfs_inode ci)) >= 0 ∧
  i_time_warp_seq ci' = i_time_warp_seq ci.
Proof.
  intros Hexcl. unfold ceph_setattr_time. rewrite Hexcl.
  assert (Hsame : timespec_compare (i_mtime (vfs_inode ci)) (i_mtime (vfs_inode ci)) >= 0 ∧
                  timespec_compare (i_atime (vfs_inode ci)) (i_atime (vfs_inode ci)) >= 0 ∧
                  i_time_warp_seq ci = i_time_warp_seq ci).
  { rewrite !timespec_compare_refl. split_and!; done || lia. }
  destruct (nonzero (Z.land issued CEPH_CAP_WR) && _ && _) eqn:Hwr.
  - intros [= <- <-]. unfold set_times, nonzero.
    apply andb_prop in Hwr as [Hwr Ha]. apply andb_prop in Hwr as [_ Hm].
    destruct (Z.eqb_spec (Z.land (ia_valid attr) ATTR_ATIME) 0) as [Ha0|Ha0];
      destruct (Z.eqb_spec (Z.land (ia_valid attr) ATTR_MTIME) 0) as [Hm0|Hm0];
      cbn [negb orb] in *; fields; rewrite ?timespec_compare_refl;
      split_and!; try done; try lia; apply timespec_compare_flip; lia.
  - destruct (ceph_inode_lease_valid _ _ _ _ _) as [leased|]; [|done].
    cbn [mbind kres_bind]. destruct (leased && _); [by intros [= <- <-]|].
    destruct (nonzero (prepare_setattr _ _)); [by intros [= <- <-]|done].
Qed.

(** X21.  An error of the lookup behind ceph_do_getattr is what the reads of
    extended attributes return: when the inode is not a snapdir, its lease
    does not cover the xattrs and the lookup fails or leaves a negative
    dentry, ceph_getxattr (for a name that is not virtual) and
    ceph_listxattr return the error of the lookup, or ENOENT for the
    negative dentry, after that one lookup, and write nothing. *)
Theorem xattr_reads_pass_lookup_error sessions jiffies issued ci name size :
  let on_inode := d_unhashed && (get_cap_mds >=? 0) in
  let r := do_lookup CEPH_STAT_MASK_XATTR on_inode ci in
  let err := if nonzero (lk_err r) then lk_err r else - ENOENT in
  snap (i_vino ci) ≠ CEPH_SNAPDIR →
  ceph_inode_lease_valid sessions jiffies issued ci CEPH_STAT_MASK_XATTR = Ret false →
  lk_err r ≠ 0 ∨ lk_negative r = true →
  _ceph_match_vir_xattr name = None →
  ceph_getxattr sessions jiffies issued ci name size
    = Ret (err, None, lk_inode r, [DoLookup CEPH_STAT_MASK_XATTR on_inode]) ∧
  ceph_listxattr sessions jiffies issued ci size
    = Ret (err, None, lk_inode r, [DoLookup CEPH_STAT_MASK_XATTR on_inode]).
Proof.
  intros on_inode r err Hsnap Hlease Hfail Hname.
  assert (Hget : ceph_do_getattr sessions jiffies issued ci CEPH_STAT_MASK_XATTR =
                 Ret (err, lk_inode r, [DoLookup CEPH_STAT_MASK_XATTR on_inode])).
  { unfold ceph_do_getattr.
    replace (snap (i_vino ci) =? CEPH_SNAPDIR) with false by lia.
    rewrite Hlease. cbn [mbind kres_bind]. fold on_inode. fold r. subst err.
    destruct (nonzero (lk_err r)) eqn:Hnz; [done|].
    destruct Hfail as [Hne| ->]; [|done]. unfold nonzero in Hnz. lia. }
  assert (Herr : nonzero err = true).
  { subst err. destruct (nonzero (lk_err r)) eqn:Hnz; [done|]. reflexivity. }
  unfold ceph_getxattr, ceph_listxattr. rewrite Hname, Hget.
  cbn [mbind kres_bind]. by rewrite Herr.
Qed.

End local_times.

Lemma setattr_time_local_forward_witness :
  timespec_compare (i_mtime (vfs_inode (upd_inode (set_times later_times_attr) ci_time_50)))
                   (i_mtime (vfs_inode ci_time_50)) >= 0 ∧
  timespec_compare (i_atime (vfs_inode (upd_inode (set_times later_times_attr) ci_time_50)))
                   (i_atime (vfs_inode ci_time_50)) >= 0 ∧
  i_time_warp_seq (upd_inode (set_times later_times_attr) ci_time_50)
    = i_time_warp_seq ci_time_50.
Proof.
  apply (setattr_time_local_forward ∅ 0 CEPH_CAP_WR ci_time_50 later_times_attr 0).
  - reflexivity.
  - reflexivity.
Defined.

Lemma xattr_reads_pass_lookup_error_witness :
  @ceph_getxattr sample_headers failing_host ∅ 0 0 zero_ci "user.a" 0
    = Ret (- EIO, None, zero_ci, [DoLookup CEPH_STAT_MASK_XATTR false]) ∧
  @ceph_listxattr sample_headers failing_host ∅ 0 0 zero_ci 0
    = Ret (- EIO, None, zero_ci, [DoLookup CEPH_STAT_MASK_XATTR false]).
Proof.
  apply (@xattr_reads_pass_lookup_error sample_headers failing_host ∅ 0 0 zero_ci
           "user.a" 0).
  - vm_compute. discriminate.
  - reflexivity.
  - left. vm_compute. discriminate.
  - reflexivity.
Defined.

(** ** The pages of ceph_setxattr *)

(* The loop allocates a page per round until an allocation fails; the
   pages held grow with the round. *)
Lemma alloc_pages_loop_spec n :
  ∀ i held o, ∃ res held' o',
    alloc_pages_loop n i held o = Ret ((res, held'), o') ∧
    alloc_pages n o = Ret (bool_decide (res = None), o') ∧
    match res with
    | None => forallb id (take n o) = true ∧ held' = held + Z.of_nat n
    | Some j => forallb id (take n o) = false ∧ held' - held = j - i ∧
                i <= j < i + Z.of_nat n
    end.
Proof.
  induction n as [|n IH]; intros i held o.
  { eexists None, _, _. split; [done|]. split; [done|]. rewrite take_0.
    split; [done|]. lia. }
  cbn [alloc_pages_loop alloc_pages]. unfold mbind, kst_bind, kmalloc.
  destruct o as [|[] o].
  - destruct (IH (i + 1) (held + 1) []) as (res & held' & o' & -> & -> & Hres).
    eexists _, _, _. split; [done|]. split; [done|].
    destruct res as [j|]; rewrite take_nil in *; cbn [forallb] in *.
    + by destruct Hres.
    + destruct Hres as [_ ->]. split; [done|lia].
  - destruct (IH (i + 1) (held + 1) o) as (res & held' & o' & -> & -> & Hres).
    eexists _, _, _. split; [done|]. split; [done|].
    cbn [take forallb id andb]. destruct res as [j|].
    + destruct Hres as (-> & ? & ?). split_and!; [done|lia|lia|lia].
    + destruct Hres as (-> & ->). split; [done|lia].
  - eexists (Some i), _, _. split; [done|]. split; [done|].
    cbn [take forallb id andb]. split_and!; [done|lia|lia|lia].
Qed.

Section setxattr_pages.
Context `{headers} `{request_constants} `{host}.

(** X22.  ceph_setxattr on a live inode, for a name it accepts and a value
    that takes at least one page.  It sends the request exactly when every
    allocation succeeds and the path and the request can be built.  When it
    sent the request, or an allocation failed (the result is then ENOMEM),
    everything it had allocated is freed again on return.  When the path or
    the request cannot be built it returns the error with the array and all
    the pages still allocated. *)
Theorem setxattr_pages_accounting ci name size flags o :
  snap (i_vino ci) = CEPH_NOSNAP →
  String.prefix "user." name = true →
  _ceph_match_vir_xattr name = None →
  0 < calc_pages_for size →
  let n := calc_pages_for size in
  let allocated := forallb id (take (S (Z.to_nat n)) o) in
  let built := negb (nonzero build_path) &&
               negb (nonzero (create_request CEPH_MDS_OP_LSETXATTR)) in
  ∃ err held ci' calls o',
    ceph_setxattr_pages ci name size flags o = Ret ((err, held), o') ∧
    ceph_setxattr ci name size flags o = Ret ((err, ci', calls), o') ∧
    (calls ≠ [] ↔ allocated && built = true) ∧
    (allocated = false → err = - ENOMEM) ∧
    held = (if allocated && negb built then n + 1 else 0).
Proof.
  intros Hsnap Hname Hvir Hn n allocated built.
  unfold ceph_setxattr_pages, ceph_setxattr. rewrite Hsnap, Z.eqb_refl, Hname, Hvir.
  rewrite bool_decide_eq_false_2 by (by intros [? ?]). cbn [negb]. fold n.
  assert (Hnz : nonzero n = true) by (unfold nonzero; lia).
  rewrite Hnz. unfold mbind, kst_bind, mret, kst_ret. subst allocated.
  destruct o as [|[] o]; unfold kmalloc.
  - (* the allocator never fails *)
    destruct (alloc_pages_loop_spec (Z.to_nat n) 0 1 [])
      as (res & held' & o' & -> & -> & Hres).
    rewrite take_nil in *. cbn [forallb]. cbn [fst snd].
    destruct res as [j|]; [by destruct Hres|]. destruct Hres as [_ ->].
    rewrite bool_decide_eq_true_2 by done. cbn [negb andb]. subst built.
    destruct (nonzero build_path); cbn [negb andb].
    { eexists _, _, _, _, _. split; [done|]. split; [done|].
      split_and!; [done|done|lia]. }
    destruct (nonzero (create_request CEPH_MDS_OP_LSETXATTR)); cbn [negb andb].
    { eexists _, _, _, _, _. split; [done|]. split; [done|].
      split_and!; [done|done|lia]. }
    eexists _, _, _, _, _. split; [done|]. split; [done|].
    split_and!; [done|done|]. unfold free_pages. lia.
  - destruct (alloc_pages_loop_spec (Z.to_nat n) 0 1 o)
      as (res & held' & o' & -> & -> & Hres).
    cbn [take forallb id andb fst snd].
    destruct res as [j|].
    + destruct Hres as (-> & Hheld & _).
      rewrite bool_decide_eq_false_2 by done. cbn [negb andb].
      eexists _, _, _, _, _. split; [done|]. split; [done|].
      split_and!; [done|done|]. unfold free_pages. lia.
    + destruct Hres as [-> ->].
      rewrite bool_decide_eq_true_2 by done. cbn [negb andb]. subst built.
      destruct (nonzero build_path); cbn [negb andb].
      { eexists _, _, _, _, _. split; [done|]. split; [done|].
        split_and!; [done|done|lia]. }
      destruct (nonzero (create_request CEPH_MDS_OP_LSETXATTR)); cbn [negb andb].
      { eexists _, _, _, _, _. split; [done|]. split; [done|].
        split_and!; [done|done|lia]. }
      eexists _, _, _, _, _. split; [done|]. split; [done|].
      split_and!; [done|done|]. unfold free_pages. lia.
  - (* the array itself is not to be had *)
    cbn [take forallb id andb negb].
    eexists _, _, _, _, _. split; [done|]. split; [done|].
    split_and!; done.
Qed.

End setxattr_pages.

Lemma setxattr_pages_accounting_witness :
  let n := @calc_pages_for pathless_host 5000 in
  let allocated := forallb id (take (S (Z.to_nat n)) []) in
  let built := negb (nonzero (@build_path pathless_host)) &&
               negb (nonzero (@create_request pathless_host CEPH_MDS_OP_LSETXATTR)) in
  ∃ err held ci' calls o',
    @ceph_setxattr_pages sample_headers pathless_host zero_ci "user.a" 5000 0 []
      = Ret ((err, held), o') ∧
    @ceph_setxattr sample_headers sample_request_constants pathless_host
      zero_ci "user.a" 5000 0 [] = Ret ((err, ci', calls), o') ∧
    (calls ≠ [] ↔ allocated && built = true) ∧
    (allocated = false → err = - ENOMEM) ∧
    held = (if allocated && negb built then n + 1 else 0).
Proof.
  apply (@setxattr_pages_accounting sample_headers sample_request_constants
           pathless_host zero_ci "user.a" 5000 0 []).
  - reflexivity.
  - reflexivity.
  - reflexivity.
  - reflexivity.
Defined.

(** ** Local attribute changes and the two-call protocol of the xattr reads *)

Section excl_local.
Context `{headers} `{request_constants} `{host}.

Lemma pending_vmtruncate_keeps ci :
  i_size (vfs_inode (__ceph_do_pending_vmtruncate ci).1) = i_size (vfs_inode ci) ∧
  i_time_warp_seq (__ceph_do_pending_vmtruncate ci).1 = i_time_warp_seq ci.
Proof. unfold __ceph_do_pending_vmtruncate. by destruct (_ >=? _). Qed.

Lemma set_times_keeps_size attr i : i_size (set_times attr i) = i_size i.
Proof. unfold set_times. by repeat case_match. Qed.

Lemma setattr_time_under_excl sessions jiffies issued ci attr :
  nonzero (Z.land issued CEPH_CAP_EXCL) = true →
  ceph_setattr_time sessions jiffies issued ci attr =
  Ret (0, upd_inode (set_times attr)
            (set_i_time_warp_seq (u64 (i_time_warp_seq ci + 1)) ci), []).
Proof. intros Hexcl. unfold ceph_setattr_time. by rewrite Hexcl. Qed.

Lemma setattr_size_under_excl sessions jiffies issued ci attr :
  nonzero (Z.land issued CEPH_CAP_EXCL) = true →
  s64 (ia_size attr) > s64 (i_size (vfs_inode ci)) →
  (vmtruncate (vfs_inode ci) (ia_size attr)).1 = 0 →
  ceph_setattr_size sessions jiffies issued ci attr =
  Ret (0, set_i_reported_size (ia_size attr)
            (upd_inode (λ i, set_i_ctime (ia_ctime attr) (set_i_size (ia_size attr) i))
               (set_vfs_inode (vmtruncate (vfs_inode ci) (ia_size attr)).2 ci)), []).
Proof.
  intros Hexcl Hgrow Hok. unfold ceph_setattr_size. rewrite Hexcl.
  replace (s64 (ia_size attr) >? s64 (i_size (vfs_inode ci))) with true by lia.
  cbn [andb]. by rewrite Hok.
Qed.

(** X23.  With the EXCL cap issued, ceph_setattr on a live inode changes
    times and grows the file without a word to the MDS: for a request that
    names no owner and no mode, and whose size, if it names one, is above
    the cached one, the only calls are those of the pending truncation
    applied first; the result is 0, time_warp_seq goes up by one for a
    change of times, and the size and the reported size are the size
    asked for. *)
Theorem setattr_excl_is_local sessions jiffies issued ci attr :
  snap (i_vino ci) = CEPH_NOSNAP →
  inode_change_ok = 0 →
  nonzero (Z.land issued CEPH_CAP_EXCL) = true →
  Z.land (ia_valid attr) (Z.lor ATTR_UID ATTR_GID) = 0 →
  Z.land (ia_valid attr) ATTR_MODE = 0 →
  (∀ i, (vmtruncate i (ia_size attr)).1 = 0) →
  (Z.land (ia_valid attr) ATTR_SIZE ≠ 0 →
   s64 (ia_size attr) > s64 (i_size (vfs_inode ci))) →
  ∃ ci',
    ceph_setattr sessions jiffies issued ci attr
      = Ret (0, ci', (__ceph_do_pending_vmtruncate ci).2) ∧
    i_time_warp_seq ci' =
      (if nonzero (Z.land (ia_valid attr) (Z.lor ATTR_ATIME ATTR_MTIME))
       then u64 (i_time_warp_seq ci + 1) else i_time_warp_seq ci) ∧
    (Z.land (ia_valid attr) ATTR_SIZE ≠ 0 →
     i_size (vfs_inode ci') = ia_size attr ∧ i_reported_size ci' = ia_size attr).
Proof.
  intros Hsnap Hchg Hexcl Hown Hmode Htrunc Hgrow.
  destruct (pending_vmtruncate_keeps ci) as (Hsz & Htw).
  unfold ceph_setattr. rewrite Hsnap, Z.eqb_refl, Hchg, Hown, Hmode.
  change (nonzero 0) with false. cbn [negb]. cbv beta iota zeta.
  set (t := __ceph_do_pending_vmtruncate ci) in *.
  rewrite (setattr_time_under_excl sessions jiffies issued t.1 attr Hexcl).
  destruct (nonzero (Z.land (ia_valid attr) (Z.lor ATTR_ATIME ATTR_MTIME)));
    cbn [mbind kres_bind fst snd]; rewrite ?app_nil_r.
  - unfold nonzero at 1.
    destruct (Z.eqb_spec (Z.land (ia_valid attr) ATTR_SIZE) 0) as [Hz|Hnz]; cbn [negb].
    + eexists. split; [done|]. fields. split; [by rewrite Htw|done].
    + rewrite setattr_size_under_excl; [|done| |done].
      * cbn [mbind kres_bind fst snd]. rewrite app_nil_r.
        eexists. split; [done|]. fields. split; [by rewrite Htw|done].
      * fields. rewrite set_times_keeps_size. fields. rewrite Hsz. by apply Hgrow.
  - unfold nonzero at 1.
    destruct (Z.eqb_spec (Z.land (ia_valid attr) ATTR_SIZE) 0) as [Hz|Hnz]; cbn [negb].
    + eexists. split; [done|]. split; [by rewrite Htw|done].
    + rewrite setattr_size_under_excl; [|done| |done].
      * cbn [mbind kres_bind fst snd]. rewrite app_nil_r.
        eexists. split; [done|]. fields. split; [by rewrite Htw|done].
      * rewrite Hsz. by apply Hgrow.
Qed.

End excl_local.

Lemma setattr_excl_is_local_witness :
  ∃ ci',
    ceph_setattr ∅ 0 CEPH_CAP_EXCL zero_ci grow_attr
      = Ret (0, ci', (__ceph_do_pending_vmtruncate zero_ci).2) ∧
    i_time_warp_seq ci' =
      (if nonzero (Z.land (ia_valid grow_attr) (Z.lor ATTR_ATIME ATTR_MTIME))
       then u64 (i_time_warp_seq zero_ci + 1) else i_time_warp_seq zero_ci) ∧
    (Z.land (ia_valid grow_attr) ATTR_SIZE ≠ 0 →
     i_size (vfs_inode ci') = ia_size grow_attr ∧
     i_reported_size ci' = ia_size grow_attr).
Proof.
  apply (setattr_excl_is_local ∅ 0 CEPH_CAP_EXCL zero_ci grow_attr).
  - reflexivity.
  - reflexivity.
  - reflexivity.
  - reflexivity.
  - reflexivity.
  - intros i. reflexivity.
  - intros _. vm_compute. reflexivity.
Defined.

Section probe_then_read.
Context `{headers} `{request_constants} `{host}.

Lemma decode_32_range mem p : 0 <= (ceph_decode_32 mem p).1 < 2 ^ 32.
Proof.
  unfold ceph_decode_32, bytes_at. cbn [fst].
  pose proof (le_combine_bound (take (Z.to_nat 4) (drop (Z.to_nat p) mem))) as Hb.
  assert (length (take (Z.to_nat 4) (drop (Z.to_nat p) mem)) <= 4)%nat as Hl.
  { rewrite length_take. lia. }
  assert (2 ^ (8 * Z.of_nat (length (take (Z.to_nat 4) (drop (Z.to_nat p) mem))))
          <= 2 ^ 32).
  { apply Z.pow_le_mono_r; lia. }
  lia.
Qed.

Lemma s32_positive x : 0 <= x < 2 ^ 32 → 0 < s32 x → s32 x = x.
Proof.
  intros Hx. unfold s32, u32. cbv zeta. rewrite Z.mod_small by lia.
  case_match; lia.
Qed.

Lemma decode_32_step mem p : (ceph_decode_32 mem p).2 = p + 4.
Proof. done. Qed.

Lemma blen_bytes_at mem p n :
  0 <= p → 0 <= n → p + n <= blen mem → blen (bytes_at mem p n) = n.
Proof.
  unfold blen, bytes_at. intros Hp Hn Hin. rewrite length_take, length_drop. lia.
Qed.

(* The scan finds the same attribute whatever the size of the buffer; with
   a buffer it copies the value out, from a place past the blob when the
   length of the value says so. *)
Lemma getxattr_scan_probe numattr mem end_ name n out :
  ∀ p,
    0 <= p →
    getxattr_scan numattr mem p end_ name 0 = Ret (n, out) → 0 < n →
    (∃ q, getxattr_scan numattr mem p end_ name n
            = Ret (n, Some (bytes_at mem q n)) ∧
          0 <= q ∧ q + n <= end_ ∧ q + n <= blen mem) ∨
    getxattr_scan numattr mem p end_ name n = Fault Undefined.
Proof.
  induction numattr as [|numattr IH]; intros p Hp Hprobe Hn.
  { injection Hprobe as <- _. unfold ENODATA in Hn. lia. }
  cbn [getxattr_scan] in Hprobe |- *.
  unfold ceph_decode_32_safe in Hprobe |- *.
  destruct (p + 4 >? end_); [injection Hprobe as <- _; unfold EIO in Hn; lia|].
  pose proof (decode_32_range mem p) as Hr1.
  pose proof (decode_32_step mem p) as Hs1.
  destruct (ceph_decode_32 mem p) as [len p1] eqn:Hd1. cbn [fst snd] in Hr1, Hs1.
  destruct (p1 + len + 4 >? end_); [injection Hprobe as <- _; unfold EIO in Hn; lia|].
  pose proof (decode_32_range mem (p1 + len)) as Hrange.
  pose proof (decode_32_step mem (p1 + len)) as Hs2.
  destruct (ceph_decode_32 mem (p1 + len)) as [vlen p2] eqn:Hd2.
  cbn [fst snd] in Hrange, Hs2.
  destruct (_ && bool_decide _); [|apply IH; [lia|done|done]].
  change (nonzero 0) with false in Hprobe. cbn [andb] in Hprobe.
  change (0 =? 0) with true in Hprobe. cbn iota in Hprobe.
  injection Hprobe as <- _. rewrite (s32_positive vlen) in * by done.
  unfold nonzero. replace (vlen =? 0) with false by lia.
  rewrite Z.ltb_irrefl. cbn [negb andb]. unfold copy_from_blob. fold (blen mem).
  destruct (Z.leb_spec (p2 + vlen) end_); cbn [andb]; [|by right].
  destruct (Z.leb_spec (p2 + vlen) (blen mem)); [|by right].
  left. exists p2. cbn [mbind kres_bind]. split; [done|lia].
Qed.

(* The errors of the lookup are those of ceph_do_getattr. *)
Lemma do_getattr_nonpositive sessions jiffies issued ci mask err ci1 calls :
  (∀ m on_inode c, lk_err (do_lookup m on_inode c) <= 0) →
  ceph_do_getattr sessions jiffies issued ci mask = Ret (err, ci1, calls) →
  err <= 0.
Proof.
  intros Hhost. unfold ceph_do_getattr.
  destruct (_ =? CEPH_SNAPDIR); [intros [= <- _ _]; lia|].
  destruct (ceph_inode_lease_valid _ _ _ _ _) as [[]|]; [intros [= <- _ _]; lia| |done].
  cbn [mbind kres_bind]. destruct (nonzero _).
  - intros [= <- _ _]. apply Hhost.
  - destruct (lk_negative _); intros [= <- _ _]; unfold ENOENT; lia.
Qed.

(** X24.  The two calls by which a caller reads an attribute: ceph_getxattr
    with a size of 0 has answered a positive length, and the caller comes
    back to the inode that call left with that length as the size.  For a
    virtual attribute the second call succeeds with the same length and
    hands out the text cut one character short, with a NUL in the place of
    the last.  For an attribute of the blob, when the refresh of the second
    call succeeds and leaves the blob as it was, the call either succeeds
    with the same length and hands out exactly that many bytes, all of them
    inside the blob, or it copies from beyond the end of the blob, which
    has no meaning.  The errors of the host's lookup are taken to be 0 or
    negative, as error pointers are. *)
Theorem getxattr_probe_then_read sessions jiffies issued ci name n out ci1 calls
    sessions2 jiffies2 issued2 :
  (∀ m on_inode c, lk_err (do_lookup m on_inode c) <= 0) →
  ceph_getxattr sessions jiffies issued ci name 0 = Ret (n, out, ci1, calls) →
  0 < n →
  match _ceph_match_vir_xattr name with
  | Some _ =>
      ∃ text,
        Z.of_nat (String.length text) = n ∧
        ceph_getxattr sessions2 jiffies2 issued2 ci1 name n =
        Ret (n, Some (take (Z.to_nat (n - 1)) (list_byte_of_string text) ++ [Byte.x00]),
             ci1, [])
  | None =>
      ∀ ci2 calls2,
        ceph_do_getattr sessions2 jiffies2 issued2 ci1 CEPH_STAT_MASK_XATTR
          = Ret (0, ci2, calls2) →
        i_xattr_len ci2 = i_xattr_len ci1 →
        i_xattr_data ci2 = i_xattr_data ci1 →
        (∃ v p, ceph_getxattr sessions2 jiffies2 issued2 ci1 name n
                  = Ret (n, Some v, ci2, calls2) ∧
                v = bytes_at (i_xattr_data ci1) p n ∧ blen v = n ∧
                0 <= p ∧ p + n <= i_xattr_len ci1 ∧
                p + n <= blen (i_xattr_data ci1)) ∨
        ceph_getxattr sessions2 jiffies2 issued2 ci1 name n = Fault Undefined
  end.
Proof.
  unfold ceph_getxattr. intros Hhost Hprobe Hn.
  destruct (_ceph_match_vir_xattr name) as [rec|] eqn:Hname.
  - assert (Htext : ∃ text, ∀ size, getxattr_cb rec ci size = snprintf size text).
    { assert (Hin : rec ∈ _ceph_vir_xattr_recs).
      { unfold _ceph_match_vir_xattr in Hname. revert Hname.
        generalize _ceph_vir_xattr_recs as recs.
        induction recs as [|r recs IH]; [done|]. cbn [match_vir_xattr].
        destruct (String.eqb _ _).
        - intros [= ->]. by left.
        - intros Hrec. right. by apply IH. }
      clear Hname Hprobe. revert rec Hin. apply Forall_forall.
      unfold _ceph_vir_xattr_recs.
      repeat apply Forall_cons_2; [..|apply Forall_nil_2];
        (eexists; intros size; reflexivity). }
    destruct Htext as (text & Htext). rewrite Htext in Hprobe.
    unfold snprintf in Hprobe. cbn [fst snd] in Hprobe.
    injection Hprobe as <- _ <- <-.
    exists text. split; [done|]. rewrite Htext. unfold snprintf. cbn [fst snd].
    by replace (Z.of_nat (String.length text) =? 0) with false by lia.
  - intros ci2 calls2 Hget2 Hlen2 Hdata2. rewrite Hget2.
    destruct (ceph_do_getattr _ _ _ ci _) as [[[err ci1'] calls1]|] eqn:Hget; [|done].
    apply (do_getattr_nonpositive _ _ _ _ _ _ _ _ Hhost) in Hget.
    cbn [mbind kres_bind] in Hprobe |- *. change (nonzero 0) with false. cbn iota.
    destruct (nonzero err) eqn:Herr.
    { injection Hprobe as <- _ _ _. lia. }
    rewrite Hlen2, Hdata2.
    destruct (i_xattr_len ci1' =? 0) eqn:Hz.
    { injection Hprobe as <- _ _ _. unfold ENODATA in Hn. lia. }
    cbv zeta in Hprobe.
    pose proof (decode_32_step (i_xattr_data ci1') 0) as Hstep.
    unfold ceph_decode_32_safe in Hprobe.
    destruct (0 + 4 >? i_xattr_len ci1') eqn:Hshort.
    { injection Hprobe as <- _ _ _. unfold EIO in Hn. lia. }
    destruct (ceph_decode_32 (i_xattr_data ci1') 0) as [numattr p] eqn:Hd.
    cbn [snd] in Hstep.
    destruct (getxattr_scan _ _ _ _ _ 0) as [[a b]|] eqn:Hscan; [|done].
    cbn [mbind kres_bind fst snd] in Hprobe. injection Hprobe as -> -> -> ->.
    rewrite Hz. unfold ceph_decode_32_safe. rewrite Hshort, Hd.
    destruct (getxattr_scan_probe _ _ _ _ _ _ p ltac:(lia) Hscan Hn)
      as [(q & Hread & Hq & Hend & Hmem)|Hread]; rewrite Hread; [left|by right].
    cbn [mbind kres_bind fst snd]. eexists _, q. split; [done|].
    split; [done|]. split; [|done]. apply blen_bytes_at; lia.
Qed.



End probe_then_read.

Lemma getxattr_probe_then_read_witness :
  (∃ text,
     Z.of_nat (String.length text) = 1 ∧
     ceph_getxattr ∅ 7 0 zero_ci "user.ceph.dir.files" 1 =
     Ret (1, Some (take (Z.to_nat (1 - 1)) (list_byte_of_string text) ++ [Byte.x00]),
          zero_ci, [])) ∧
  ((∃ v p, ceph_getxattr ∅ 7 0 (ci_with_blob (xattr_encode one_xattr)) "a" 1
             = Ret (1, Some v, ci_with_blob (xattr_encode one_xattr), []) ∧
           v = bytes_at (i_xattr_data (ci_with_blob (xattr_encode one_xattr))) p 1 ∧
           blen v = 1 ∧ 0 <= p ∧
           p + 1 <= i_xattr_len (ci_with_blob (xattr_encode one_xattr)) ∧
           p + 1 <= blen (i_xattr_data (ci_with_blob (xattr_encode one_xattr)))) ∨
   ceph_getxattr ∅ 7 0 (ci_with_blob (xattr_encode one_xattr)) "a" 1
     = Fault Undefined).
Proof.
  split.
  - apply (getxattr_probe_then_read ∅ 0 0 zero_ci "user.ceph.dir.files" 1 None
             zero_ci [] ∅ 7 0).
    + intros m on_inode c. reflexivity.
    + reflexivity.
    + lia.
  - refine (getxattr_probe_then_read ∅ 0 0 (ci_with_blob (xattr_encode one_xattr)) "a"
              1 None (ci_with_blob (xattr_encode one_xattr)) [] ∅ 7 0 _ _ _
              (ci_with_blob (xattr_encode one_xattr)) [] _ _ _).
    + intros m on_inode c. reflexivity.
    + reflexivity.
    + lia.
    + reflexivity.
    + reflexivity.
    + reflexivity.
Defined.


(** X27.  ceph_getxattr copies a value without looking at the end of the
    blob: on a blob whose only attribute, "a", announces a value of 5 bytes
    and holds 2, the call with a size of 0 answers 5 and the call with room
    for 5 bytes copies from beyond the blob. *)
Example getxattr_reads_past_blob :
  ceph_getxattr ∅ 0 0 (ci_with_blob cut_value_blob) "a" 0
    = Ret (5, None, ci_with_blob cut_value_blob, []) ∧
  ceph_getxattr ∅ 0 0 (ci_with_blob cut_value_blob) "a" 5 = Fault Undefined.
Proof. split; vm_compute; reflexivity. Qed.

(** ** The result of ceph_setattr *)

Section setattr_result.
Context `{headers} `{request_constants} `{host}.

Lemma prepare_setattr_ok valid op :
  build_path = 0 → (∀ op, create_request op = 0) → prepare_setattr valid op = 0.
Proof.
  intros Hpath Hreq. unfold prepare_setattr. rewrite Hpath, !Hreq.
  change (nonzero 0) with false. by destruct (nonzero _).
Qed.

Lemma setattr_chown_sends ci attr :
  build_path = 0 → (∀ op, create_request op = 0) →
  let uid := nonzero (Z.land (ia_valid attr) ATTR_UID) in
  let gid := nonzero (Z.land (ia_valid attr) ATTR_GID) in
  let chown := ReqChown (if uid then ia_uid attr else 0) (if gid then ia_gid attr else 0)
                 (if gid then Z.lor (if uid then CEPH_CHOWN_UID else 0) CEPH_CHOWN_GID
                  else if uid then CEPH_CHOWN_UID else 0) in
  ceph_setattr_chown ci attr =
  ((do_request chown ci).1, (do_request chown ci).2,
   [LeaseRelease CEPH_LOCK_IAUTH; DoRequest chown]).
Proof.
  intros Hpath Hreq. cbv zeta. unfold ceph_setattr_chown.
  rewrite prepare_setattr_ok by done. reflexivity.
Qed.

Lemma setattr_chmod_sends ci attr :
  build_path = 0 → (∀ op, create_request op = 0) →
  ceph_setattr_chmod ci attr =
  ((do_request (ReqLchmod (ia_mode attr)) ci).1,
   (do_request (ReqLchmod (ia_mode attr)) ci).2,
   [LeaseRelease CEPH_LOCK_IAUTH; DoRequest (ReqLchmod (ia_mode attr))]).
Proof.
  intros Hpath Hreq. unfold ceph_setattr_chmod.
  rewrite prepare_setattr_ok by done. reflexivity.
Qed.

(** X26.  ceph_setattr handles owner, mode, times and size in turn and
    returns the result of the last of them.  For a request that names an
    owner and a mode and neither times nor size, on a live inode whose
    requests can be built: after the pending truncation the chown request
    and then the chmod request are sent, each after the release of the
    IAUTH lease, the chmod on the inode as the chown request left it, and
    the result is the one of the chmod request whatever the chown request
    returned. *)
Theorem setattr_last_result_wins sessions jiffies issued ci attr :
  snap (i_vino ci) = CEPH_NOSNAP →
  inode_change_ok = 0 →
  build_path = 0 →
  (∀ op, create_request op = 0) →
  Z.land (ia_valid attr) (Z.lor ATTR_UID ATTR_GID) ≠ 0 →
  Z.land (ia_valid attr) ATTR_MODE ≠ 0 →
  Z.land (ia_valid attr) (Z.lor ATTR_ATIME ATTR_MTIME) = 0 →
  Z.land (ia_valid attr) ATTR_SIZE = 0 →
  let t := __ceph_do_pending_vmtruncate ci in
  let uid := nonzero (Z.land (ia_valid attr) ATTR_UID) in
  let gid := nonzero (Z.land (ia_valid attr) ATTR_GID) in
  let chown := ReqChown (if uid then ia_uid attr else 0) (if gid then ia_gid attr else 0)
                 (if gid then Z.lor (if uid then CEPH_CHOWN_UID else 0) CEPH_CHOWN_GID
                  else if uid then CEPH_CHOWN_UID else 0) in
  let chmod := ReqLchmod (ia_mode attr) in
  let r1 := do_request chown t.1 in
  let r2 := do_request chmod r1.2 in
  ceph_setattr sessions jiffies issued ci attr =
  Ret (r2.1, r2.2,
       t.2 ++ [LeaseRelease CEPH_LOCK_IAUTH; DoRequest chown;
               LeaseRelease CEPH_LOCK_IAUTH; DoRequest chmod]).
Proof.
  intros Hsnap Hchg Hpath Hreq Hown Hmode Htime Hsize t uid gid chown chmod r1 r2.
  assert (Hn1 : nonzero (Z.land (ia_valid attr) (Z.lor ATTR_UID ATTR_GID)) = true)
    by (unfold nonzero; lia).
  assert (Hn2 : nonzero (Z.land (ia_valid attr) ATTR_MODE) = true)
    by (unfold nonzero; lia).
  unfold ceph_setattr. rewrite Hsnap, Z.eqb_refl, Hchg, Htime, Hsize, Hn1, Hn2.
  change (nonzero 0) with false. cbn [negb]. fold t.
  cbv beta iota zeta.
  rewrite (setattr_chown_sends t.1 attr Hpath Hreq). cbv zeta.
  fold uid gid. fold chown. fold r1. cbn [fst snd].
  rewrite (setattr_chmod_sends r1.2 attr Hpath Hreq).
  fold chmod. fold r2. cbn [fst snd mbind kres_bind].
  by rewrite <- app_assoc.
Qed.

End setattr_result.

Lemma setattr_last_result_wins_witness :
  let t := __ceph_do_pending_vmtruncate zero_ci in
  let uid := nonzero (Z.land (ia_valid chown_chmod_attr) ATTR_UID) in
  let gid := nonzero (Z.land (ia_valid chown_chmod_attr) ATTR_GID) in
  let chown := ReqChown (if uid then ia_uid chown_chmod_attr else 0)
                 (if gid then ia_gid chown_chmod_attr else 0)
                 (if gid then Z.lor (if uid then CEPH_CHOWN_UID else 0) CEPH_CHOWN_GID
                  else if uid then CEPH_CHOWN_UID else 0) in
  let chmod := ReqLchmod (ia_mode chown_chmod_attr) in
  let r1 := @do_request chown_refusing_host chown t.1 in
  let r2 := @do_request chown_refusing_host chmod r1.2 in
  @ceph_setattr sample_headers sample_request_constants chown_refusing_host
    ∅ 0 0 zero_ci chown_chmod_attr =
  Ret (r2.1, r2.2,
       t.2 ++ [LeaseRelease CEPH_LOCK_IAUTH; DoRequest chown;
               LeaseRelease CEPH_LOCK_IAUTH; DoRequest chmod]).
Proof.
  apply (@setattr_last_result_wins sample_headers sample_request_constants
           chown_refusing_host ∅ 0 0 zero_ci chown_chmod_attr).
  - reflexivity.
  - reflexivity.
  - reflexivity.
  - intros op. reflexivity.
  - vm_compute. discriminate.
  - vm_compute. discriminate.
  - reflexivity.
  - reflexivity.
Defined.
